(** * Wild Duck IMAP server: the command handlers of [imap.js]

    A shallow embedding of the handlers [server.onAuth], [server.onStore],
    [server.updateMailboxFlags], [server.onExpunge], [server.onCopy],
    [server.onFetch] and [server.onSearch].

    The handlers are written in continuation-passing style over a document
    database.  Every handler is embedded as a function that threads a
    [world] (the database and the chronological trace of the observable
    effects: lines written to the session, notifier calls, storage writes
    and invocations of the completion callback).  A storage call that the
    source guards with [if (err)] consults a fault oracle [fault : op -> bool]
    so that the error branches of the source are part of the model. *)

From Stdlib Require Import ZArith List Bool String Ascii Lia Arith.
From Stdlib Require Import Sorting.Sorted Sorting.Permutation.
Import ListNotations.
Local Open Scope string_scope.
Local Open Scope list_scope.
Local Open Scope Z_scope.

Set Implicit Arguments.
Set Warnings "-register-all".

(** ** JavaScript strings

    A string is a sequence of code units; the embedding covers the code
    units 0..255 (what a binary-decoded IMAP atom can hold). *)

Module JsString.

(** [String.prototype.toLowerCase] on one code unit below 256: the ASCII
    capitals and the Latin-1 capitals (all of 0xC0..0xDE but the
    multiplication sign 0xD7) move up by 0x20. *)
Definition lower_ascii (c : ascii) : ascii :=
  let n := nat_of_ascii c in
  if ((65 <=? n) && (n <=? 90))%nat then ascii_of_nat (n + 32)
  else if ((192 <=? n) && (n <=? 222) && negb (n =? 215))%nat
       then ascii_of_nat (n + 32)
       else c.

Fixpoint toLowerCase (s : string) : string :=
  match s with
  | EmptyString => EmptyString
  | String c r => String (lower_ascii c) (toLowerCase r)
  end.

(** White space and line terminators below 256: TAB, LF, VT, FF, CR,
    SPACE and NBSP. *)
Definition is_space (c : ascii) : bool :=
  let n := nat_of_ascii c in
  (((9 <=? n) && (n <=? 13)) || (n =? 32) || (n =? 160))%nat.

Fixpoint trim_start (s : string) : string :=
  match s with
  | EmptyString => EmptyString
  | String c r => if is_space c then trim_start r else s
  end.

Fixpoint trim_end (s : string) : string :=
  match s with
  | EmptyString => EmptyString
  | String c r =>
      match trim_end r with
      | EmptyString => if is_space c then EmptyString else String c EmptyString
      | r' => String c r'
      end
  end.

Definition trim (s : string) : string := trim_end (trim_start s).

(** [Array.prototype.includes] on an array of strings. *)
Definition includes (l : list string) (x : string) : bool :=
  existsb (String.eqb x) l.

(** JavaScript truthiness of a string. *)
Definition truthy (s : string) : bool :=
  match s with EmptyString => false | _ => true end.

End JsString.

Import JsString.

(** ** JavaScript values handed to collaborators

    Object literals the handlers build (update documents, journal entries,
    callback data) are kept as objects: association lists in key order. *)

Inductive jsval : Type :=
| JNull
| JBool (b : bool)
| JNum (z : Z)
| JStr (s : string)
| JId (i : Z)
| JArr (l : list jsval)
| JObj (fields : list (string * jsval)).

Definition jsobj := list (string * jsval).

Fixpoint obj_get (k : string) (o : jsobj) : option jsval :=
  match o with
  | [] => None
  | (k', v) :: r => if String.eqb k k' then Some v else obj_get k r
  end.

(** [o[k] = v]: replaces the value of an existing key, else adds the key. *)
Fixpoint obj_set (k : string) (v : jsval) (o : jsobj) : jsobj :=
  match o with
  | [] => [(k, v)]
  | (k', v') :: r =>
      if String.eqb k k' then (k, v) :: r else (k', v') :: obj_set k v r
  end.

Definition keys (o : jsobj) : list string := map fst o.

Definition str_array (l : list string) : jsval := JArr (map JStr l).
Definition num_array (l : list Z) : jsval := JArr (map JNum l).

(** The strings of an array value (other elements are skipped). *)
Definition strings_of (v : jsval) : list string :=
  match v with
  | JArr l =>
      flat_map (fun x => match x with JStr s => [s] | _ => [] end) l
  | _ => []
  end.

(** An [Error] object with its message. *)
Definition js_error (msg : string) : jsval := JObj [("message", JStr msg)].

(** [Number(x) || 0] on a value that is a number. *)
Definition number_or_zero (z : Z) : Z := if z =? 0 then 0 else z.

(** ** Documents of the database *)

Record mailbox : Type := {
  mb_id : Z;
  mb_user : Z;
  mb_path : string;
  uidValidity : Z;
  uidNext : Z;
  modifyIndex : Z;
  subscribed : bool;
  mb_flags : list string;
  specialUse : option string
}.

Record message : Type := {
  msg_id : Z;
  msg_mailbox : Z;
  uid : Z;
  modseq : Z;
  flags : list string;
  seen : bool;
  flagged : bool;
  deleted : bool;
  size : Z;
  meta_source : option string;
  (* envelope, bodystructure, mimeTree, headers, dates: carried along *)
  content : string
}.

Record user : Type := {
  user_id : Z;
  username : string;
  password : string;
  quota : Z;
  storageUsed : Z
}.

(** A document of [attachments.files]: [metadata.messages]. *)
Record attachment : Type := {
  att_id : Z;
  att_messages : list Z
}.

Record DB : Type := {
  mailboxes : list mailbox;
  messages : list message;
  users : list user;
  attachments : list attachment;
  (* source of [new ObjectID()] *)
  next_oid : Z
}.

Record session : Type := {
  sess_id : string;
  sess_user : Z;
  sess_username : string;
  remoteAddress : string
}.

(** [session.formatResponse(command, uid, data)], as handed to
    [session.writeStream.write]. *)
Record response : Type := {
  resp_command : string;
  resp_uid : Z;
  resp_data : jsobj
}.

(** ** Storage calls and observable effects *)

(** The storage calls (and the two other fallible collaborators, the login
    limiter and the FETCH body stream) whose completion the handlers
    receive through an [err] argument. *)
Inductive op : Type :=
| OpLoginLimiter (key : string)
| OpFindUser (name : string)
| OpFindMailbox (user_ : Z) (path : string)
| OpCursorNext (n : nat)
| OpBulkWrite (ops : list (Z * jsobj))
| OpAddMailboxFlags (mailbox_ : Z) (new_flags : list string)
| OpDeleteMessage (id : Z)
| OpUnlinkAttachments (msg : Z)
| OpLinkAttachments (src new : Z)
| OpSweepAttachments
| OpIncStorageUsed (user_ : Z) (delta : Z)
| OpIncUidNext (mailbox_ : Z) (n : nat)
| OpInsertMessage (id : Z)
| OpStream (msg : Z).

Inductive event : Type :=
| EvWrite (r : response)
| EvSocketWrite (s : string)
| EvSocketDestroy
| EvStorageUsed (user_ : Z) (delta : Z)
| EvBulkWrite (ops : list (Z * jsobj))
| EvAddEntries (user_ : Z) (path : string) (entries : list jsobj)
| EvFire (user_ : Z) (path : string)
| EvCallback (args : list jsval).

Record world : Type := {
  db : DB;
  trace : list event
}.

Definition emit (e : event) (w : world) : world :=
  {| db := db w; trace := trace w ++ [e] |}.

Definition with_db (f : DB -> DB) (w : world) : world :=
  {| db := f (db w); trace := trace w |}.

Definition start (d : DB) : world := {| db := d; trace := [] |}.

(** The arguments of every invocation of the completion callback. *)
Definition callbacks (t : list event) : list (list jsval) :=
  flat_map (fun e => match e with EvCallback a => [a] | _ => [] end) t.

(** The entries of every [notifier.addEntries] call, in order. *)
Definition added_entries (t : list event) : list jsobj :=
  flat_map (fun e => match e with EvAddEntries _ _ l => l | _ => [] end) t.

(** The responses written to the session, in order. *)
Definition written (t : list event) : list response :=
  flat_map (fun e => match e with EvWrite r => [r] | _ => [] end) t.

(** ** The document database *)

Definition with_flags (f : list string) (m : message) : message :=
  {| msg_id := msg_id m; msg_mailbox := msg_mailbox m; uid := uid m;
     modseq := modseq m; flags := f; seen := seen m; flagged := flagged m;
     deleted := deleted m; size := size m; meta_source := meta_source m;
     content := content m |}.

Definition with_seen (b : bool) (m : message) : message :=
  {| msg_id := msg_id m; msg_mailbox := msg_mailbox m; uid := uid m;
     modseq := modseq m; flags := flags m; seen := b; flagged := flagged m;
     deleted := deleted m; size := size m; meta_source := meta_source m;
     content := content m |}.

Definition with_flagged (b : bool) (m : message) : message :=
  {| msg_id := msg_id m; msg_mailbox := msg_mailbox m; uid := uid m;
     modseq := modseq m; flags := flags m; seen := seen m; flagged := b;
     deleted := deleted m; size := size m; meta_source := meta_source m;
     content := content m |}.

Definition with_deleted (b : bool) (m : message) : message :=
  {| msg_id := msg_id m; msg_mailbox := msg_mailbox m; uid := uid m;
     modseq := modseq m; flags := flags m; seen := seen m; flagged := flagged m;
     deleted := b; size := size m; meta_source := meta_source m;
     content := content m |}.

Definition with_modseq (z : Z) (m : message) : message :=
  {| msg_id := msg_id m; msg_mailbox := msg_mailbox m; uid := uid m;
     modseq := z; flags := flags m; seen := seen m; flagged := flagged m;
     deleted := deleted m; size := size m; meta_source := meta_source m;
     content := content m |}.

(** [$set: { k: v }] on a message document. *)
Definition set_field (m : message) (kv : string * jsval) : message :=
  match kv with
  | (k, JArr l) => if String.eqb k "flags" then with_flags (strings_of (JArr l)) m else m
  | (k, JBool b) =>
      if String.eqb k "seen" then with_seen b m
      else if String.eqb k "flagged" then with_flagged b m
      else if String.eqb k "deleted" then with_deleted b m
      else m
  | (k, JNum z) => if String.eqb k "modseq" then with_modseq z m else m
  | _ => m
  end.

(** [$addToSet]: appends each value the array does not hold yet. *)
Definition add_to_set (l news : list string) : list string :=
  fold_left (fun acc f => if includes acc f then acc else acc ++ [f]) news l.

(** [$pull: { $in: old }]: removes every element listed in [old]. *)
Definition pull_in (l old : list string) : list string :=
  filter (fun f => negb (includes old f)) l.

(** The operand of [$addToSet: { flags: ... }]: [{ $each: [...] }] or one
    value. *)
Definition add_to_set_operand (v : jsval) : list string :=
  match v with
  | JObj e => match obj_get "$each" e with Some a => strings_of a | None => [] end
  | JStr s => [s]
  | _ => []
  end.

Definition pull_operand (v : jsval) : list string :=
  match v with
  | JObj e => match obj_get "$in" e with Some a => strings_of a | None => [] end
  | JStr s => [s]
  | _ => []
  end.

(** The update operators the handlers use, applied to one message. *)
Definition apply_update (u : jsobj) (m : message) : message :=
  let m1 := match obj_get "$set" u with
            | Some (JObj fs) => fold_left set_field fs m
            | _ => m
            end in
  let m2 := match obj_get "$addToSet" u with
            | Some (JObj o) =>
                match obj_get "flags" o with
                | Some v => with_flags (add_to_set (flags m1) (add_to_set_operand v)) m1
                | None => m1
                end
            | _ => m1
            end in
  match obj_get "$pull" u with
  | Some (JObj o) =>
      match obj_get "flags" o with
      | Some v => with_flags (pull_in (flags m2) (pull_operand v)) m2
      | None => m2
      end
  | _ => m2
  end.

(** [updateOne({_id: id}, u)]: the first document with that id. *)
Fixpoint update_one (id : Z) (u : jsobj) (l : list message) : list message :=
  match l with
  | [] => []
  | m :: r => if msg_id m =? id then apply_update u m :: r
              else m :: update_one id u r
  end.

Definition with_messages (l : list message) (d : DB) : DB :=
  {| mailboxes := mailboxes d; messages := l; users := users d;
     attachments := attachments d; next_oid := next_oid d |}.

Definition with_mailboxes (l : list mailbox) (d : DB) : DB :=
  {| mailboxes := l; messages := messages d; users := users d;
     attachments := attachments d; next_oid := next_oid d |}.

Definition with_users (l : list user) (d : DB) : DB :=
  {| mailboxes := mailboxes d; messages := messages d; users := l;
     attachments := attachments d; next_oid := next_oid d |}.

Definition with_attachments (l : list attachment) (d : DB) : DB :=
  {| mailboxes := mailboxes d; messages := messages d; users := users d;
     attachments := l; next_oid := next_oid d |}.

(** [messages.bulkWrite(ops)] with [updateOne] operations. *)
Definition bulk_write (ops : list (Z * jsobj)) (d : DB) : DB :=
  with_messages
    (fold_left (fun l o => update_one (fst o) (snd o) l) ops (messages d)) d.

(** [mailboxes.findOne({user, path})]. *)
Definition find_mailbox (d : DB) (u : Z) (path : string) : option mailbox :=
  find (fun m => (mb_user m =? u) && String.eqb (mb_path m) path) (mailboxes d).

(** [.sort([['uid', 1]])]: stable, ascending. *)
Fixpoint insert_by_uid (m : message) (l : list message) : list message :=
  match l with
  | [] => [m]
  | x :: r => if uid m <=? uid x then m :: l else x :: insert_by_uid m r
  end.

Definition sort_by_uid (l : list message) : list message :=
  fold_right insert_by_uid [] l.

Definition uid_in (l : list Z) (u : Z) : bool := existsb (Z.eqb u) l.

(** [messages.find(q).sort([['uid', 1]])], read in full when the cursor is
    opened. *)
Definition find_messages (q : message -> bool) (d : DB) : list message :=
  sort_by_uid (filter q (messages d)).

(** JavaScript truthiness of a value. *)
Definition js_truthy (v : jsval) : bool :=
  match v with
  | JNull => false
  | JBool b => b
  | JNum z => negb (z =? 0)
  | JStr s => truthy s
  | _ => true
  end.

(** The error a failed storage call hands to its callback. *)
Definition storage_error : jsval := js_error "storage error".

(** how many modifications to cache before writing *)
Definition BULK_BATCH_SIZE : nat := 150.

Record login : Type := {
  login_username : string;
  login_password : string
}.

(** The [update] argument of the STORE, EXPUNGE and COPY handlers (each
    handler reads its own fields). *)
Record update : Type := {
  action : string;
  value : list string;
  silent : bool;
  isUid : bool;
  upd_messages : list Z;
  unchangedSince : option Z;
  destination : string
}.

(** [flag.toLowerCase().trim()] *)
Definition normalize (flag : string) : string := trim (toLowerCase flag).

(** ** The handlers *)

Section Handlers.

(** Which storage calls fail. *)
Variable fault : op -> bool.

(** [server.loginLimiter]: the time left when the key is over its limit,
    0 when the attempt is allowed. *)
Variable loginLimiter : string -> Z.

(** [bcrypt.compareSync(password, hash)] *)
Variable compareSync : string -> string -> bool.

(** [imapTools.systemFlags] *)
Variable systemFlags : list string.

(** *** AUTH *)

Definition find_user (d : DB) (name : string) : option user :=
  find (fun u => String.eqb (username u) name) (users d).

Definition onAuth (lg : login) (s : session) (w : world) : world :=
  let username := trim (login_username lg) in
  let key := String.append username (String.append ":" (remoteAddress s)) in
  if fault (OpLoginLimiter key) then emit (EvCallback [storage_error]) w
  else if negb (loginLimiter key =? 0) then
    emit (EvCallback
            [JObj [("message", JStr "Too many logins, try again later");
                   ("response", JStr "NO")]]) w
  else if fault (OpFindUser username) then emit (EvCallback [storage_error]) w
  else
    match find_user (db w) username with
    | None => emit (EvCallback []) w
    | Some user =>
        if negb (compareSync (login_password lg) (password user)) then
          emit (EvCallback []) w
        else
          emit (EvCallback
                  [JNull;
                   JObj [("user", JObj [("id", JId (user_id user));
                                        ("username", JStr username)])]]) w
    end.

(** [messages.bulkWrite(ops, ...)]: the call is traced; a failed call
    writes nothing. *)
Definition write_updates (ops : list (Z * jsobj)) (w : world) : world :=
  let w1 := emit (EvBulkWrite ops) w in
  if fault (OpBulkWrite ops) then w1 else with_db (bulk_write ops) w1.

(** *** STORE *)

(** [$addToSet: { flags: { $each: newFlags } }] on the mailbox. *)
Fixpoint add_mailbox_flags (id : Z) (news : list string) (l : list mailbox)
  : list mailbox :=
  match l with
  | [] => []
  | m :: r =>
      if mb_id m =? id then
        {| mb_id := mb_id m; mb_user := mb_user m; mb_path := mb_path m;
           uidValidity := uidValidity m; uidNext := uidNext m;
           modifyIndex := modifyIndex m; subscribed := subscribed m;
           mb_flags := add_to_set (mb_flags m) news;
           specialUse := specialUse m |} :: r
      else m :: add_mailbox_flags id news r
  end.

(** The [forEach] of [updateMailboxFlags]: at most 100 flags in all. *)
Definition learn_flags (mailboxFlags : list string) (value : list string)
  : list string :=
  fold_left
    (fun newFlags flag =>
       if (100 <=? List.length mailboxFlags + List.length newFlags)%nat then newFlags
       else if negb (includes mailboxFlags (normalize flag))
            then newFlags ++ [flag]
            else newFlags)
    value [].

(** [server.updateMailboxFlags(mailbox, update, callback)]; its caller's
    callback takes no argument, so the outcome of the write is dropped. *)
Definition updateMailboxFlags (mailbox : mailbox) (u : update) (w : world)
  : world :=
  if String.eqb (action u) "remove" then w
  else
    let mailboxFlags :=
      map (fun flag => toLowerCase (trim flag))
          (systemFlags ++ mb_flags mailbox) in
    let newFlags := learn_flags mailboxFlags (value u) in
    match newFlags with
    | [] => w
    | _ =>
        if fault (OpAddMailboxFlags (mb_id mailbox) newFlags) then w
        else with_db (fun d => with_mailboxes
                                 (add_mailbox_flags (mb_id mailbox) newFlags
                                                    (mailboxes d)) d) w
    end.

(** The three denormalised booleans, as the [add] and [remove] cases write
    them: each assignment replaces the whole [$set] object. *)
Definition set_system_flags (b : bool) (changed : list string)
           (flagsupdate : jsobj) : jsobj :=
  if includes changed "\Seen" || includes changed "\Flagged"
     || includes changed "\Deleted" then
    let fu0 := obj_set "$set" (JObj []) flagsupdate in
    let fu1 := if includes changed "\Seen"
               then obj_set "$set" (JObj [("seen", JBool b)]) fu0 else fu0 in
    let fu2 := if includes changed "\Flagged"
               then obj_set "$set" (JObj [("flagged", JBool b)]) fu1 else fu1 in
    if includes changed "\Deleted"
    then obj_set "$set" (JObj [("deleted", JBool b)]) fu2 else fu2
  else flagsupdate.

(** The body of the [switch (update.action)] for one message: the new
    [message.flags], [updated] and [flagsupdate]. *)
Definition store_flags (u : update) (m : message)
  : list string * bool * jsobj :=
  let existingFlags := map normalize (flags m) in
  if String.eqb (action u) "set" then
    let updated :=
      negb (List.length existingFlags =? List.length (value u))%nat
      || negb (List.length (filter (fun flag =>
                                 negb (includes existingFlags (normalize flag)))
                              (value u)) =? 0)%nat in
    let flags' := value u in
    (flags', updated,
     [("$set", JObj [("flags", str_array flags');
                     ("seen", JBool (includes flags' "\Seen"));
                     ("flagged", JBool (includes flags' "\Flagged"));
                     ("deleted", JBool (includes flags' "\Deleted"))])])
  else if String.eqb (action u) "add" then
    let newFlags :=
      filter (fun flag => negb (includes existingFlags (normalize flag)))
             (value u) in
    let updated := negb (List.length newFlags =? 0)%nat in
    (flags m ++ newFlags, updated,
     set_system_flags true newFlags
       [("$addToSet", JObj [("flags", JObj [("$each", str_array newFlags)])])])
  else if String.eqb (action u) "remove" then
    let flagsUpdates := map normalize (value u) in
    let oldFlags :=
      filter (fun flag => includes flagsUpdates (normalize flag)) (flags m) in
    let updated := negb (List.length oldFlags =? 0)%nat in
    (filter (fun flag => negb (includes flagsUpdates (normalize flag))) (flags m),
     updated,
     set_system_flags false oldFlags
       [("$pull", JObj [("flags", JObj [("$in", str_array oldFlags)])])])
  else (flags m, false, []).

(** [if (update.unchangedSince)] *)
Definition has_unchangedSince (u : update) : bool :=
  match unchangedSince u with
  | Some z => negb (z =? 0)
  | None => false
  end.

(** The [query] of [onStore]. *)
Definition store_query (mailbox : mailbox) (u : update) (m : message) : bool :=
  if has_unchangedSince u then
    (msg_mailbox m =? mb_id mailbox)
    && (modseq m <=? match unchangedSince u with Some z => z | None => 0 end)
    && uid_in (upd_messages u) (uid m)
  else
    (msg_mailbox m =? mb_id mailbox) && uid_in (upd_messages u) (uid m).

Section OnStore.

Variable path : string.
Variable u : update.
Variable s : session.
Variable mailbox : mailbox.

Definition store_finish (args : list jsval) (w : world) : world :=
  match args with
  | a :: _ =>
      if js_truthy a then emit (EvCallback args) w
      else emit (EvCallback args) (updateMailboxFlags mailbox u w)
  | [] => emit (EvCallback args) (updateMailboxFlags mailbox u w)
  end.

(** [done(...args)]; the outcome of its [bulkWrite] is not looked at. *)
Definition store_done (args : list jsval)
           (updateEntries : list (Z * jsobj)) (notifyEntries : list jsobj)
           (w : world) : world :=
  match updateEntries with
  | _ :: _ =>
      let w1 := write_updates updateEntries w in
      let w2 := emit (EvAddEntries (sess_user s) path notifyEntries) w1 in
      let w3 := emit (EvFire (sess_user s) path) w2 in
      store_finish args w3
  | [] =>
      store_finish args (emit (EvFire (sess_user s) path) w)
  end.

Definition store_response (m : message) (flags' : list string) : response :=
  {| resp_command := "FETCH";
     resp_uid := uid m;
     resp_data := [("uid", if isUid u then JNum (uid m) else JBool false);
                   ("flags", str_array flags')] |}.

Definition store_entry (m : message) (flags' : list string) : jsobj :=
  [("command", JStr "FETCH");
   ("ignore", JStr (sess_id s));
   ("uid", JNum (uid m));
   ("flags", str_array flags');
   ("message", JId (msg_id m))].

(** [processNext]: [cursor] holds the documents not yet read, [n] counts
    the calls of [cursor.next]. *)
Fixpoint store_processNext (cursor : list message) (n : nat)
         (updateEntries : list (Z * jsobj)) (notifyEntries : list jsobj)
         (w : world) : world :=
  if fault (OpCursorNext n) then
    store_done [storage_error] updateEntries notifyEntries w
  else
    match cursor with
    | [] => store_done [JNull; JBool true] updateEntries notifyEntries w
    | message :: rest =>
        let '(flags', updated, flagsupdate) := store_flags u message in
        let w1 := if silent u then w
                  else emit (EvWrite (store_response message flags')) w in
        if updated then
          let updateEntries' := updateEntries ++ [(msg_id message, flagsupdate)] in
          let notifyEntries' := notifyEntries ++ [store_entry message flags'] in
          if (BULK_BATCH_SIZE <=? List.length updateEntries')%nat then
            if fault (OpBulkWrite updateEntries') then
              store_done [storage_error] [] notifyEntries'
                         (emit (EvBulkWrite updateEntries') w1)
            else
              let w2 := write_updates updateEntries' w1 in
              let w3 := emit (EvAddEntries (sess_user s) path notifyEntries') w2 in
              let w4 := emit (EvFire (sess_user s) path) w3 in
              store_processNext rest (S n) [] [] w4
          else store_processNext rest (S n) updateEntries' notifyEntries' w1
        else store_processNext rest (S n) updateEntries notifyEntries w1
    end.

End OnStore.

Definition onStore (path : string) (u : update) (s : session) (w : world)
  : world :=
  if fault (OpFindMailbox (sess_user s) path) then
    emit (EvCallback [storage_error]) w
  else
    match find_mailbox (db w) (sess_user s) path with
    | None => emit (EvCallback [JNull; JStr "NONEXISTENT"]) w
    | Some mailbox =>
        store_processNext path u s mailbox
          (find_messages (store_query mailbox u) (db w)) 0 [] [] w
    end.

(** *** EXPUNGE *)

Fixpoint inc_storageUsed (id : Z) (delta : Z) (l : list user) : list user :=
  match l with
  | [] => []
  | x :: r =>
      if user_id x =? id then
        {| user_id := user_id x; username := username x;
           password := password x; quota := quota x;
           storageUsed := storageUsed x + delta |} :: r
      else x :: inc_storageUsed id delta r
  end.

(** [users.findOneAndUpdate({_id}, {$inc: {storageUsed: delta}}, next)];
    [next] does not look at the outcome. *)
Definition adjust_storage (id : Z) (delta : Z) (w : world) : world :=
  let w1 := emit (EvStorageUsed id delta) w in
  if fault (OpIncStorageUsed id delta) then w1
  else with_db (fun d => with_users (inc_storageUsed id delta (users d)) d) w1.

(** [messages.deleteOne({_id: id})] *)
Fixpoint delete_one (id : Z) (l : list message) : list message :=
  match l with
  | [] => []
  | m :: r => if msg_id m =? id then r else m :: delete_one id r
  end.

Definition holds_message (id : Z) (a : attachment) : bool :=
  existsb (Z.eqb id) (att_messages a).

(** [updateMany({'metadata.messages': id}, {$pull: {'metadata.messages': id}})] *)
Definition unlink_attachments (id : Z) (l : list attachment) : list attachment :=
  map (fun a =>
         {| att_id := att_id a;
            att_messages := filter (fun x => negb (x =? id)) (att_messages a) |})
      l.

(** [updateMany({'metadata.messages': src}, {$push: {'metadata.messages': new}})] *)
Definition link_attachments (src new : Z) (l : list attachment) : list attachment :=
  map (fun a =>
         if holds_message src a then
           {| att_id := att_id a; att_messages := att_messages a ++ [new] |}
         else a)
      l.

(** [deleteMany({'metadata.messages': {$size: 0}})] *)
Definition sweep_attachments (l : list attachment) : list attachment :=
  filter (fun a => negb (List.length (att_messages a) =? 0)%nat) l.

Section OnExpunge.

Variable path : string.
Variable u : update.
Variable s : session.
Variable mailbox : mailbox.

Definition expunge_updateQuota (deletedMessages : nat) (deletedStorage : Z)
           (w : world) : world :=
  match deletedMessages with
  | O => w
  | S _ => adjust_storage (mb_user mailbox) (- deletedStorage) w
  end.

Definition expunge_entry (m : message) : jsobj :=
  [("command", JStr "EXPUNGE");
   ("ignore", JStr (sess_id s));
   ("uid", JNum (uid m));
   ("message", JId (msg_id m))].

Fixpoint expunge_processNext (cursor : list message) (n : nat)
         (deletedMessages : nat) (deletedStorage : Z) (w : world) : world :=
  if fault (OpCursorNext n) then
    emit (EvCallback [storage_error])
         (expunge_updateQuota deletedMessages deletedStorage w)
  else
    match cursor with
    | [] =>
        let w1 := expunge_updateQuota deletedMessages deletedStorage w in
        let w2 := emit (EvFire (sess_user s) path) w1 in
        (* delete all attachments that do not have any active links *)
        let w3 := if fault OpSweepAttachments then w2
                  else with_db (fun d => with_attachments
                                           (sweep_attachments (attachments d)) d) w2 in
        emit (EvCallback [JNull; JBool true]) w3
    | message :: rest =>
        let w1 := if silent u then w
                  else emit (EvWrite {| resp_command := "EXPUNGE";
                                        resp_uid := uid message;
                                        resp_data := [] |}) w in
        if fault (OpDeleteMessage (msg_id message)) then
          emit (EvCallback [storage_error])
               (expunge_updateQuota deletedMessages deletedStorage w1)
        else
          let w2 := with_db (fun d => with_messages
                                        (delete_one (msg_id message) (messages d)) d) w1 in
          let deletedMessages' := S deletedMessages in
          let deletedStorage' := deletedStorage + number_or_zero (size message) in
          let w3 := if fault (OpUnlinkAttachments (msg_id message)) then w2
                    else with_db (fun d => with_attachments
                                             (unlink_attachments (msg_id message)
                                                                 (attachments d)) d) w2 in
          let w4 := emit (EvAddEntries (sess_user s) path [expunge_entry message]) w3 in
          expunge_processNext rest (S n) deletedMessages' deletedStorage' w4
    end.

End OnExpunge.

Definition expunge_query (mailbox : mailbox) (m : message) : bool :=
  (msg_mailbox m =? mb_id mailbox) && Bool.eqb (deleted m) true.

Definition onExpunge (path : string) (u : update) (s : session) (w : world)
  : world :=
  if fault (OpFindMailbox (sess_user s) path) then
    emit (EvCallback [storage_error]) w
  else
    match find_mailbox (db w) (sess_user s) path with
    | None => emit (EvCallback [JNull; JStr "NONEXISTENT"]) w
    | Some mailbox =>
        expunge_processNext path u s mailbox
          (find_messages (expunge_query mailbox) (db w)) 0 0 0 w
    end.

(** *** COPY *)

Definition find_mailbox_by_id (d : DB) (id : Z) : option mailbox :=
  find (fun m => mb_id m =? id) (mailboxes d).

(** [$inc: { uidNext: 1 }] on the mailbox with that id. *)
Fixpoint inc_uidNext (id : Z) (l : list mailbox) : list mailbox :=
  match l with
  | [] => []
  | m :: r =>
      if mb_id m =? id then
        {| mb_id := mb_id m; mb_user := mb_user m; mb_path := mb_path m;
           uidValidity := uidValidity m; uidNext := uidNext m + 1;
           modifyIndex := modifyIndex m; subscribed := subscribed m;
           mb_flags := mb_flags m; specialUse := specialUse m |} :: r
      else m :: inc_uidNext id r
  end.

Definition fresh_oid (d : DB) : DB :=
  {| mailboxes := mailboxes d; messages := messages d; users := users d;
     attachments := attachments d; next_oid := next_oid d + 1 |}.

Section OnCopy.

Variable s : session.
Variable target : mailbox.
Variable mailbox : mailbox.

Definition copy_updateQuota (copiedMessages : nat) (copiedStorage : Z)
           (w : world) : world :=
  match copiedMessages with
  | O => w
  | S _ => adjust_storage (mb_user mailbox) copiedStorage w
  end.

(** The copy that is inserted: a new id, the target mailbox, the
    allocated uid and [meta.source = 'IMAPCOPY']. *)
Definition copy_of (source : message) (id uidNext : Z) : message :=
  {| msg_id := id; msg_mailbox := mb_id target; uid := uidNext;
     modseq := modseq source; flags := flags source; seen := seen source;
     flagged := flagged source; deleted := deleted source;
     size := size source; meta_source := Some "IMAPCOPY";
     content := content source |}.

Definition copy_entry (copy : message) : jsobj :=
  [("command", JStr "EXISTS");
   ("uid", JNum (uid copy));
   ("message", JId (msg_id copy))].

(** [findOneAndUpdate] hands back the mailbox as it was before the
    increment. *)
Fixpoint copy_processNext (cursor : list message) (n : nat)
         (copiedMessages : nat) (copiedStorage : Z)
         (sourceUid destinationUid : list Z) (w : world) : world :=
  if fault (OpCursorNext n) then
    emit (EvCallback [storage_error])
         (copy_updateQuota copiedMessages copiedStorage w)
  else
    match cursor with
    | [] =>
        let w1 := copy_updateQuota copiedMessages copiedStorage w in
        let w2 := emit (EvFire (sess_user s) (mb_path target)) w1 in
        emit (EvCallback
                [JNull; JBool true;
                 JObj [("uidValidity", JNum (uidValidity target));
                       ("sourceUid", num_array sourceUid);
                       ("destinationUid", num_array destinationUid)]]) w2
    | message :: rest =>
        let sourceId := msg_id message in
        let sourceUid' := uid message :: sourceUid in
        if fault (OpIncUidNext (mb_id target) n) then
          emit (EvCallback [storage_error])
               (copy_updateQuota copiedMessages copiedStorage w)
        else
          match find_mailbox_by_id (db w) (mb_id target) with
          | None =>
              (* was not able to acquire a lock *)
              emit (EvCallback [JNull; JStr "TRYCREATE"])
                   (copy_updateQuota copiedMessages copiedStorage w)
          | Some item =>
              let w1 := with_db (fun d => with_mailboxes
                                            (inc_uidNext (mb_id target) (mailboxes d)) d) w in
              let uidNext := uidNext item in
              let destinationUid' := uidNext :: destinationUid in
              let id := next_oid (db w1) in
              let w2 := with_db fresh_oid w1 in
              let copy := copy_of message id uidNext in
              if fault (OpInsertMessage id) then
                emit (EvCallback [storage_error])
                     (copy_updateQuota copiedMessages copiedStorage w2)
              else
                let w3 := with_db (fun d => with_messages (messages d ++ [copy]) d) w2 in
                let copiedMessages' := S copiedMessages in
                let copiedStorage' := copiedStorage + number_or_zero (size copy) in
                let w4 := if fault (OpLinkAttachments sourceId id) then w3
                          else with_db (fun d => with_attachments
                                                   (link_attachments sourceId id
                                                                     (attachments d)) d) w3 in
                let w5 := emit (EvAddEntries (sess_user s) (mb_path target)
                                             [copy_entry copy]) w4 in
                copy_processNext rest (S n) copiedMessages' copiedStorage'
                                 sourceUid' destinationUid' w5
          end
    end.

End OnCopy.

Definition copy_query (mailbox : mailbox) (u : update) (m : message) : bool :=
  (msg_mailbox m =? mb_id mailbox) && uid_in (upd_messages u) (uid m).

Definition onCopy (path : string) (u : update) (s : session) (w : world)
  : world :=
  if fault (OpFindMailbox (sess_user s) path) then
    emit (EvCallback [storage_error]) w
  else
    match find_mailbox (db w) (sess_user s) path with
    | None => emit (EvCallback [JNull; JStr "NONEXISTENT"]) w
    | Some mailbox =>
        if fault (OpFindMailbox (sess_user s) (destination u)) then
          emit (EvCallback [storage_error]) w
        else
          match find_mailbox (db w) (sess_user s) (destination u) with
          | None => emit (EvCallback [JNull; JStr "TRYCREATE"]) w
          | Some target =>
              copy_processNext s target mailbox
                (find_messages (copy_query mailbox u) (db w)) 0 0 0 [] [] w
          end
    end.

(** *** FETCH *)

Record fetch_options : Type := {
  opt_messages : list Z;
  opt_query : jsval;
  markAsSeen : bool;
  changedSince : option Z;
  metadataOnly : bool
}.

(** [session.getQueryResponse(query, message, ...)] *)
Variable getQueryResponse : jsval -> message -> jsval.

(** The error a failed response stream raises. *)
Definition stream_error : jsval := js_error "stream error".

Definition LF : string := String (ascii_of_nat 10) EmptyString.

Definition fetch_query (mailbox : mailbox) (o : fetch_options) (m : message)
  : bool :=
  match changedSince o with
  | Some z =>
      if negb (z =? 0) then
        (msg_mailbox m =? mb_id mailbox) && (z <? modseq m)
        && uid_in (opt_messages o) (uid m)
      else (msg_mailbox m =? mb_id mailbox) && uid_in (opt_messages o) (uid m)
  | None => (msg_mailbox m =? mb_id mailbox) && uid_in (opt_messages o) (uid m)
  end.

Section OnFetch.

Variable path : string.
Variable o : fetch_options.
Variable s : session.

(** [done(...args)] *)
Definition fetch_done (args : list jsval) (isUpdated : bool)
           (updateEntries : list (Z * jsobj)) (notifyEntries : list jsobj)
           (w : world) : world :=
  match updateEntries with
  | _ :: _ =>
      let w1 := write_updates updateEntries w in
      let w2 := emit (EvAddEntries (sess_user s) path notifyEntries) w1 in
      let w3 := emit (EvFire (sess_user s) path) w2 in
      emit (EvCallback args) w3
  | [] =>
      let w1 := if isUpdated then emit (EvFire (sess_user s) path) w else w in
      emit (EvCallback args) w1
  end.

Definition fetch_entry (m : message) : jsobj :=
  [("command", JStr "FETCH");
   ("ignore", JStr (sess_id s));
   ("uid", JNum (uid m));
   ("flags", str_array (flags m));
   ("message", JId (msg_id m))].

Definition seen_update : jsobj :=
  [("$addToSet", JObj [("flags", JStr "\Seen")]);
   ("$set", JObj [("seen", JBool true)])].

(** [processNext].  The response stream is handed to
    [session.writeStream.write]; when the stream fails ([OpStream]) its
    error handler runs and the completion of the write is never reached. *)
Fixpoint fetch_processNext (cursor : list message) (n : nat)
         (isUpdated : bool)
         (updateEntries : list (Z * jsobj)) (notifyEntries : list jsobj)
         (w : world) : world :=
  if fault (OpCursorNext n) then
    fetch_done [storage_error] isUpdated updateEntries notifyEntries w
  else
    match cursor with
    | [] => fetch_done [JNull; JBool true] isUpdated updateEntries notifyEntries w
    | m :: rest =>
        let mark := markAsSeen o && negb (includes (flags m) "\Seen") in
        let message := if mark then with_flags ("\Seen" :: flags m) m else m in
        let w1 := emit (EvWrite
                          {| resp_command := "FETCH";
                             resp_uid := uid message;
                             resp_data :=
                               [("query", opt_query o);
                                ("values", getQueryResponse (opt_query o) message)] |})
                       w in
        if fault (OpStream (msg_id message)) then
          let w2 := emit (EvSocketWrite (String.append "INTERNAL ERROR" LF)) w1 in
          (* ended up in erroneus state, kill the connection to abort *)
          let w3 := emit EvSocketDestroy w2 in
          fetch_done [stream_error] isUpdated updateEntries notifyEntries w3
        else if negb mark then
          fetch_processNext rest (S n) isUpdated updateEntries notifyEntries w1
        else
          let updateEntries' := updateEntries ++ [(msg_id message, seen_update)] in
          let notifyEntries' := notifyEntries ++ [fetch_entry message] in
          if (BULK_BATCH_SIZE <=? List.length updateEntries')%nat then
            if fault (OpBulkWrite updateEntries') then
              fetch_done [storage_error] true [] notifyEntries'
                         (emit (EvBulkWrite updateEntries') w1)
            else
              let w2 := write_updates updateEntries' w1 in
              let w3 := emit (EvAddEntries (sess_user s) path notifyEntries') w2 in
              let w4 := emit (EvFire (sess_user s) path) w3 in
              fetch_processNext rest (S n) true [] [] w4
          else fetch_processNext rest (S n) true updateEntries' notifyEntries' w1
    end.

End OnFetch.

Definition onFetch (path : string) (o : fetch_options) (s : session)
           (w : world) : world :=
  if fault (OpFindMailbox (sess_user s) path) then
    emit (EvCallback [storage_error]) w
  else
    match find_mailbox (db w) (sess_user s) path with
    | None => emit (EvCallback [JNull; JStr "NONEXISTENT"]) w
    | Some mailbox =>
        fetch_processNext path o s
          (find_messages (fetch_query mailbox o) (db w)) 0 false [] [] w
    end.

(** *** SEARCH *)

(** The parsed search criteria: [term.key] with the fields each key reads.
    [TNot] holds [[].concat(term.value || [])], [TOr] the same for every
    entry of its value. *)
Inductive term : Type :=
| TAll
| TNot (value : list term)
| TOr (value : list (list term))
| TText (value : string)
| TBody (value : string)
| TModseq (value : Z)
| TUidSet (value : list Z)
| TUid (value : Z)
| TFlag (value : string) (exists_ : bool)
| THeader (header : string) (value : string)
| TInternaldate (operator : string) (value : string)
| THeaderdate (operator : string) (value : string)
| TSize (operator : string) (value : Z)
| TOther (key : string).

(** [new Date(value + ' GMT').getTime()] *)
Variable parse_date : string -> Z.

(** [Buffer.from(value, 'binary').toString()] *)
Variable binary_to_string : string -> string.

(** [messages.find(query).project({uid, modseq})] for a search query; the
    query language is the database's. *)
Variable run_query : jsval -> DB -> list message.

Definition is_regex_special (c : ascii) : bool :=
  existsb (Ascii.eqb c)
          (list_ascii_of_string "-/\^$*+?.()|[]{}").

(** [.replace(/[-\/\\^$*+?.()|[\]{}]/g, '\\$&')] *)
Fixpoint escape_regex (s : string) : string :=
  match s with
  | EmptyString => EmptyString
  | String c r =>
      if is_regex_special c then String "\"%char (String c (escape_regex r))
      else String c (escape_regex r)
  end.

Definition comparison (operator : string) : option string :=
  if String.eqb operator "<" then Some "$lt"
  else if String.eqb operator "<=" then Some "$lte"
  else if String.eqb operator ">" then Some "$gt"
  else if String.eqb operator ">=" then Some "$gte"
  else None.

Definition js_date (ms : Z) : jsval := JObj [("$date", JNum ms)].

(** The entry of the [internaldate] and [headerdate] cases. *)
Definition date_clause (field operator value : string) (ne : bool) : jsval :=
  let v := parse_date value in
  let entry :=
    match comparison operator with
    | None => JArr [JObj [("$gte", js_date v)];
                    JObj [("$lt", js_date (v + 24 * 3600 * 1000))]]
    | Some op => JObj [(op, js_date v)]
    end in
  JObj [(field, if negb ne then entry else JObj [("$not", entry)])].

Definition size_clause (operator : string) (value : Z) (ne : bool) : jsval :=
  let op := match comparison operator with Some op => op | None => "$eq" end in
  let entry := JObj [(op, JNum (number_or_zero value))] in
  JObj [("size", if negb ne then entry else JObj [("$not", entry)])].

Definition header_clause (header value : string) (ne : bool) : jsval :=
  let regex := escape_regex (binary_to_string value) in
  let re := JObj [("$regex", JStr regex); ("$options", JStr "i")] in
  if truthy value then
    JObj [("headers",
           JObj [("$elemMatch",
                  JObj [("key", JStr header);
                        ("value", if negb ne then re else JObj [("$not", re)])])])]
  else
    JObj [("headers.key",
           if negb ne then JStr header else JObj [("$ne", JStr header)])].

Definition substr1 (s : string) : string :=
  match s with
  | EmptyString => EmptyString
  | String _ r => r
  end.

Definition flag_clause (value : string) (exists_ ne : bool) : jsval :=
  if String.eqb value "\Seen" || String.eqb value "\Deleted"
     || String.eqb value "\Flagged" then
    JObj [(substr1 (toLowerCase value),
           JBool (if exists_ then negb ne else ne))]
  else if exists_ then
    JObj [("flags", JObj [(if negb ne then "$eq" else "$ne", JStr value)])]
  else
    JObj [("flags", JObj [(if negb ne then "$ne" else "$eq", JStr value)])].

(** The variables [walkQuery] closes over: [hasAll], [nothing], and the
    world that collects the calls of [callback]. *)
Record walk_state : Type := {
  hasAll : bool;
  nothing : bool;
  walk_world : world
}.

Definition empty_result : jsval :=
  JObj [("uidList", JArr []); ("highestModseq", JNum 0)].

(** One round of the [forEach] of [walkQuery]: the clauses pushed to
    [parent] and the state after the term.  The [return callback(...)] of
    the [uid] case leaves the arrow function of the [forEach] only. *)
Fixpoint walk_term (ne : bool) (t : term) (st : walk_state)
  : list jsval * walk_state :=
  let each :=
    fix each (ne : bool) (node : list term) (st : walk_state)
      : list jsval * walk_state :=
      match node with
      | [] => ([], st)
      | t' :: r =>
          let '(p1, st1) := walk_term ne t' st in
          let '(p2, st2) := each ne r st1 in
          (p1 ++ p2, st2)
      end in
  let walk := fun (ne : bool) (node : list term) (st : walk_state) =>
                if hasAll st || nothing st then ([], st) else each ne node st in
  match t with
  | TAll =>
      if negb ne then
        ([], {| hasAll := true; nothing := nothing st; walk_world := walk_world st |})
      else ([], st)
  | TNot value => walk (negb ne) value st
  | TOr value =>
      let '(inner, st') :=
        (fix entries (l : list (list term)) (st : walk_state)
           : list jsval * walk_state :=
           match l with
           | [] => ([], st)
           | entry :: r =>
               let '(p1, st1) := walk false entry st in
               let '(p2, st2) := entries r st1 in
               (p1 ++ p2, st2)
           end) value st in
      ([JObj [("$or", JArr inner)]], st')
  | TText value | TBody value =>
      if truthy value && negb ne then
        ([JObj [("$text", JObj [("$search", JStr value)])]], st)
      else
        ([], {| hasAll := hasAll st; nothing := true; walk_world := walk_world st |})
  | TModseq value =>
      ([JObj [("modseq", JObj [(if negb ne then "$gte" else "$lt", JNum value)])]], st)
  | TUidSet value =>
      match value with
      | [] =>
          (* trying to find a message that does not exist *)
          ([], {| hasAll := hasAll st; nothing := nothing st;
                  walk_world := emit (EvCallback [JNull; empty_result])
                                     (walk_world st) |})
      | _ =>
          ([JObj [("uid", JObj [(if negb ne then "$in" else "$nin",
                                 num_array value)])]], st)
      end
  | TUid value =>
      ([JObj [("uid", JObj [(if negb ne then "$eq" else "$ne", JNum value)])]], st)
  | TFlag value exists_ => ([flag_clause value exists_ ne], st)
  | THeader header value => ([header_clause header value ne], st)
  | TInternaldate operator value =>
      ([date_clause "internaldate" operator value ne], st)
  | THeaderdate operator value =>
      ([date_clause "headerdate" operator value ne], st)
  | TSize operator value => ([size_clause operator value ne], st)
  | TOther _ => ([], st)
  end.

Fixpoint walk_each (ne : bool) (node : list term) (st : walk_state)
  : list jsval * walk_state :=
  match node with
  | [] => ([], st)
  | t :: r =>
      let '(p1, st1) := walk_term ne t st in
      let '(p2, st2) := walk_each ne r st1 in
      (p1 ++ p2, st2)
  end.

(** [walkQuery(parent, ne, node)]: what it pushes to [parent]. *)
Definition walkQuery (ne : bool) (node : list term) (st : walk_state)
  : list jsval * walk_state :=
  if hasAll st || nothing st then ([], st) else walk_each ne node st.

Fixpoint search_processNext (cursor : list message) (n : nat)
         (highestModseq : Z) (uidList : list Z) (w : world) : world :=
  if fault (OpCursorNext n) then
    emit (EvCallback [js_error "Can not make requested search query"]) w
  else
    match cursor with
    | [] =>
        emit (EvCallback
                [JNull; JObj [("uidList", num_array uidList);
                              ("highestModseq", JNum highestModseq)]]) w
    | message :: rest =>
        let highestModseq' :=
          if highestModseq <? modseq message then modseq message
          else highestModseq in
        search_processNext rest (S n) highestModseq'
                           (uidList ++ [uid message]) w
    end.

Definition onSearch (path : string) (query : list term) (s : session)
           (w : world) : world :=
  if fault (OpFindMailbox (sess_user s) path) then
    emit (EvCallback [storage_error]) w
  else
    match find_mailbox (db w) (sess_user s) path with
    | None => emit (EvCallback [JNull; JStr "NONEXISTENT"]) w
    | Some mailbox =>
        let '(pushed, st) :=
          walkQuery false query
                    {| hasAll := false; nothing := false; walk_world := w |} in
        let q := if hasAll st then JObj [("mailbox", JId (mb_id mailbox))]
                 else JObj [("mailbox", JId (mb_id mailbox));
                            ("$and", JArr pushed)] in
        if nothing st then
          (* reject immediatelly *)
          emit (EvCallback [JNull; empty_result]) (walk_world st)
        else
          search_processNext (run_query q (db (walk_world st))) 0 0 []
                             (walk_world st)
    end.

End Handlers.

(** ** What the notifier does with an entry *)

(** A session that has a mailbox selected. *)
Record listener : Type := {
  listener_id : string;
  listener_user : Z;
  listener_selected : string
}.

(** Modelled from the spec: the notifier ([lib/imap-notifier]) is not part of
    the handlers' file.  [fire(user, path)] "delivers a mailbox changed event
    to every Session whose selected mailbox matches, excluding sessions whose
    id equals each entry's [ignore] field". *)
Definition delivered_to (l : listener) (user_ : Z) (path : string)
           (entry : jsobj) : bool :=
  (listener_user l =? user_) && String.eqb (listener_selected l) path
  && match obj_get "ignore" entry with
     | Some (JStr sid) => negb (String.eqb sid (listener_id l))
     | _ => true
     end.

(** ** Observations on a trace *)

(** Every entry of every [addEntries] call satisfies [P user path entry]. *)
Definition entries_all (P : Z -> string -> jsobj -> Prop) (t : list event) : Prop :=
  Forall (fun e => match e with
                   | EvAddEntries us p l => Forall (P us p) l
                   | _ => True
                   end) t.

(** The operations of every [bulkWrite] call, in order. *)
Definition bulk_written (t : list event) : list (Z * jsobj) :=
  flat_map (fun e => match e with EvBulkWrite l => l | _ => [] end) t.

(** The adjustments of [storageUsed], in order. *)
Definition storage_adjustments (t : list event) : list (Z * Z) :=
  flat_map (fun e => match e with EvStorageUsed us d => [(us, d)] | _ => [] end) t.

Fixpoint starts_with (p s : string) : bool :=
  match p, s with
  | EmptyString, _ => true
  | String a p', String b s' => Ascii.eqb a b && starts_with p' s'
  | String _ _, EmptyString => false
  end.

(** An untagged BYE, written raw to the socket or as a response. *)
Definition is_bye (e : event) : bool :=
  match e with
  | EvSocketWrite line => starts_with "* BYE" line
  | EvWrite r => String.eqb (resp_command r) "BYE"
  | _ => false
  end.

Definition is_destroy (e : event) : bool :=
  match e with EvSocketDestroy => true | _ => false end.

(** Some BYE is written and the socket is destroyed after it. *)
Fixpoint bye_then_destroy (t : list event) : bool :=
  match t with
  | [] => false
  | e :: r => (is_bye e && existsb is_destroy r) || bye_then_destroy r
  end.

(** What reaches the client: written responses, raw socket writes. *)
Definition is_output (e : event) : bool :=
  match e with
  | EvWrite _ | EvSocketWrite _ | EvSocketDestroy => true
  | _ => false
  end.

(** A number occurs in a value. *)
Fixpoint mentions (z : Z) (v : jsval) : bool :=
  match v with
  | JNum x => x =? z
  | JArr l => existsb (mentions z) l
  | JObj fields => existsb (fun kv => mentions z (snd kv)) fields
  | _ => false
  end.

(** A uid is reported by the completion of a command: it occurs in the
    arguments of a callback. *)
Definition reported (t : list event) (z : Z) : bool :=
  existsb (existsb (mentions z)) (callbacks t).

Definition sum_sizes (l : list message) : Z :=
  fold_right (fun m acc => size m + acc) 0 l.

Definition storage_of (d : DB) (id : Z) : option Z :=
  option_map storageUsed (find (fun x => user_id x =? id) (users d)).

Fixpoint zseq (start : Z) (len : nat) : list Z :=
  match len with
  | O => []
  | S k => start :: zseq (start + 1) k
  end.

Definition reliable (fault : op -> bool) : Prop := forall o, fault o = false.

(** No two messages share an [_id]. *)
Definition unique_ids (d : DB) : Prop := NoDup (map msg_id (messages d)).

(** The denormalised booleans agree with the flags. *)
Definition denormalized (m : message) : Prop :=
  seen m = includes (flags m) "\Seen"
  /\ flagged m = includes (flags m) "\Flagged"
  /\ deleted m = includes (flags m) "\Deleted".

(** ** Sample data *)

Module Sample.

Definition no_fault (o : op) : bool := false.

Definition systemFlags : list string :=
  ["\Answered"; "\Flagged"; "\Draft"; "\Deleted"; "\Seen"].

Definition msg (id mb u ms : Z) (fl : list string) (sz : Z) : message :=
  {| msg_id := id; msg_mailbox := mb; uid := u; modseq := ms; flags := fl;
     seen := includes fl "\Seen"; flagged := includes fl "\Flagged";
     deleted := includes fl "\Deleted"; size := sz; meta_source := None;
     content := "" |}.

Definition box (id : Z) (path : string) (uv un mi : Z) : mailbox :=
  {| mb_id := id; mb_user := 1; mb_path := path; uidValidity := uv;
     uidNext := un; modifyIndex := mi; subscribed := true; mb_flags := [];
     specialUse := None |}.

Definition alice : user :=
  {| user_id := 1; username := "alice"; password := "$2a$10$hash";
     quota := 0; storageUsed := 80 |}.

(** Drafts holds the uids 7 and 9; Archive is empty with [uidNext = 40]. *)
Definition db0 : DB :=
  {| mailboxes := [box 1 "Drafts" 100 10 5; box 2 "Archive" 200 40 0];
     messages := [msg 11 1 9 5 [] 50; msg 10 1 7 2 ["\Seen"] 30];
     users := [alice];
     attachments := [{| att_id := 1; att_messages := [10] |}];
     next_oid := 1000 |}.

(** Drafts with the uids 7 and 9 marked \Deleted and uid 8 not. *)
Definition db1 : DB :=
  {| mailboxes := [box 1 "Drafts" 100 10 5; box 2 "Archive" 200 40 0];
     messages := [msg 11 1 9 5 ["\Deleted"] 50; msg 12 1 8 4 [] 20;
                  msg 10 1 7 2 ["\Seen"; "\Deleted"] 30];
     users := [alice];
     attachments := [{| att_id := 1; att_messages := [10] |}];
     next_oid := 1000 |}.

Definition s1 : session :=
  {| sess_id := "s1"; sess_user := 1; sess_username := "alice";
     remoteAddress := "192.0.2.1" |}.

Definition store (a : string) (v : list string) (uids : list Z)
           (us : option Z) : update :=
  {| action := a; value := v; silent := false; isUid := true;
     upd_messages := uids; unchangedSince := us; destination := "" |}.

Definition copy (uids : list Z) (dest : string) : update :=
  {| action := ""; value := []; silent := false; isUid := true;
     upd_messages := uids; unchangedSince := None; destination := dest |}.

Definition expunge : update :=
  {| action := ""; value := []; silent := false; isUid := false;
     upd_messages := []; unchangedSince := None; destination := "" |}.

Definition fetch (uids : list Z) : fetch_options :=
  {| opt_messages := uids; opt_query := JArr [JStr "BODY[]"];
     markAsSeen := true; changedSince := None; metadataOnly := false |}.

Definition getQueryResponse (q : jsval) (m : message) : jsval :=
  JArr [JStr (content m)].

(** A database that evaluates the [uid], [modseq] and boolean clauses of a
    search query. *)
Definition holds (c : jsval) (m : message) : bool :=
  match c with
  | JObj [(k, JBool b)] =>
      if String.eqb k "seen" then Bool.eqb (seen m) b
      else if String.eqb k "flagged" then Bool.eqb (flagged m) b
      else if String.eqb k "deleted" then Bool.eqb (deleted m) b
      else false
  | JObj [(k, JObj [(o, JNum z)])] =>
      if String.eqb k "uid" then
        if String.eqb o "$eq" then uid m =? z
        else if String.eqb o "$ne" then negb (uid m =? z) else false
      else if String.eqb k "modseq" then
        if String.eqb o "$gte" then z <=? modseq m
        else if String.eqb o "$lt" then modseq m <? z else false
      else false
  | JObj [(k, JObj [(o, JArr l)])] =>
      if String.eqb k "uid" then
        if String.eqb o "$in" then existsb (mentions (uid m)) l
        else if String.eqb o "$nin" then negb (existsb (mentions (uid m)) l)
        else false
      else false
  | _ => false
  end.

Definition run_query (q : jsval) (d : DB) : list message :=
  match q with
  | JObj fields =>
      match obj_get "mailbox" fields with
      | Some (JId id) =>
          filter (fun m =>
                    (msg_mailbox m =? id)
                    && match obj_get "$and" fields with
                       | Some (JArr cs) => forallb (fun c => holds c m) cs
                       | None => true
                       | _ => false
                       end)
                 (messages d)
      | _ => []
      end
  | _ => []
  end.

Definition parse_date (s : string) : Z := 0.
Definition binary_to_string (s : string) : string := s.

(** Only the FETCH body stream of one message fails. *)
Definition torn_stream (id : Z) (o : op) : bool :=
  match o with OpStream x => x =? id | _ => false end.

(** Only the sweep of the attachments fails. *)
Definition failing_sweep (o : op) : bool :=
  match o with OpSweepAttachments => true | _ => false end.

(** Only the adjustment of [storageUsed] fails. *)
Definition failing_inc (o : op) : bool :=
  match o with OpIncStorageUsed _ _ => true | _ => false end.

Definition compareSync (p h : string) : bool :=
  String.eqb (String.append "$2a$10$" p) h.

Definition limiter (key : string) : Z := 0.

End Sample.

(** ** The claims of the specification, as stated *)

Definition store_new_flags (u : update) (m : message) : list string :=
  fst (fst (store_flags u m)).

Definition store_updated (u : update) (m : message) : bool :=
  snd (fst (store_flags u m)).

Definition store_flagsupdate (u : update) (m : message) : jsobj :=
  snd (store_flags u m).

(** STORE gives every changed message a modseq above the mailbox's
    [modifyIndex], stores it and puts it into the journal entry. *)
Definition store_assigns_modseq (fault : op -> bool) (systemFlags : list string)
           (path : string) (u : update) (s : session) (d : DB) : Prop :=
  let r := onStore fault systemFlags path u s (start d) in
  forall mailbox m,
    find_mailbox d (sess_user s) path = Some mailbox ->
    In m (find_messages (store_query mailbox u) d) ->
    store_updated u m = true ->
    exists ms mailbox' m' e,
      find_mailbox (db r) (sess_user s) path = Some mailbox'
      /\ modifyIndex mailbox < ms <= modifyIndex mailbox'
      /\ In m' (messages (db r)) /\ msg_id m' = msg_id m /\ modseq m' = ms
      /\ In e (added_entries (trace r))
      /\ obj_get "uid" e = Some (JNum (uid m))
      /\ obj_get "modseq" e = Some (JNum ms).

(** COPY answers with the source uids ascending and the destination uids in
    the order of their allocation. *)
Definition copyuid_in_order (fault : op -> bool) (path : string) (u : update)
           (s : session) (d : DB) : Prop :=
  forall mailbox target,
    find_mailbox d (sess_user s) path = Some mailbox ->
    find_mailbox d (sess_user s) (destination u) = Some target ->
    let cursor := find_messages (copy_query mailbox u) d in
    callbacks (trace (onCopy fault path u s (start d))) =
      [[JNull; JBool true;
        JObj [("uidValidity", JNum (uidValidity target));
              ("sourceUid", num_array (map uid cursor));
              ("destinationUid",
               num_array (zseq (uidNext target) (List.length cursor)))]]].

(** A conditional STORE leaves a message changed after [unchangedSince]
    as it is and reports its uid. *)
Definition conditional_store_reports (fault : op -> bool)
           (systemFlags : list string) (path : string) (u : update)
           (s : session) (d : DB) : Prop :=
  let r := onStore fault systemFlags path u s (start d) in
  forall m mailbox msg,
    unchangedSince u = Some m ->
    find_mailbox d (sess_user s) path = Some mailbox ->
    In msg (messages d) ->
    msg_mailbox msg = mb_id mailbox ->
    uid_in (upd_messages u) (uid msg) = true ->
    m < modseq msg ->
    In msg (messages (db r)) /\ reported (trace r) (uid msg) = true.

(** A STORE writes no FETCH response for a message it did not change. *)
Definition fetch_only_when_changed (fault : op -> bool)
           (systemFlags : list string) (path : string) (u : update)
           (s : session) (d : DB) : Prop :=
  forall mailbox m r,
    find_mailbox d (sess_user s) path = Some mailbox ->
    In m (find_messages (store_query mailbox u) d) ->
    store_updated u m = false ->
    In r (written (trace (onStore fault systemFlags path u s (start d)))) ->
    resp_uid r <> uid m.

(** A journal entry that its own session does not get back: it names the
    command and carries [ignore = session.id]. *)
Definition own_entry (command : string) (s : session) (path : string)
           (user_ : Z) (p : string) (e : jsobj) : Prop :=
  user_ = sess_user s /\ p = path
  /\ obj_get "command" e = Some (JStr command)
  /\ obj_get "ignore" e = Some (JStr (sess_id s))
  /\ forall l, listener_id l = sess_id s -> delivered_to l user_ p e = false.

(** A journal entry without [ignore]: every session of the user that has
    the mailbox selected gets it. *)
Definition shared_entry (command : string) (s : session) (path : string)
           (user_ : Z) (p : string) (e : jsobj) : Prop :=
  user_ = sess_user s /\ p = path
  /\ obj_get "command" e = Some (JStr command)
  /\ obj_get "ignore" e = None
  /\ forall l, listener_user l = user_ -> listener_selected l = p ->
               delivered_to l user_ p e = true.

(** The keys of the entries STORE appends; no [modseq] among them. *)
Definition flags_entry_shape (us : Z) (p : string) (e : jsobj) : Prop :=
  keys e = ["command"; "ignore"; "uid"; "flags"; "message"]
  /\ obj_get "modseq" e = None.

(** The copies COPY inserts for the documents of its cursor, given the
    first new id and the first allocated uid. *)
Fixpoint copies (target : mailbox) (cursor : list message) (oid uidNext : Z)
  : list message :=
  match cursor with
  | [] => []
  | m :: r => copy_of target m oid uidNext :: copies target r (oid + 1) (uidNext + 1)
  end.

(** Only the maintenance of the attachments may fail. *)
Definition only_attachment_faults (fault : op -> bool) : Prop :=
  forall o, fault o = true ->
            o = OpSweepAttachments \/ exists id, o = OpUnlinkAttachments id.

(** Nothing fails before the body stream of [m], which does. *)
Definition stream_fails_at (fault : op -> bool) (pre : list message)
           (m : message) : Prop :=
  (forall n, fault (OpCursorNext n) = false)
  /\ (forall ops, fault (OpBulkWrite ops) = false)
  /\ (forall x, In x pre -> fault (OpStream (msg_id x)) = false)
  /\ fault (OpStream (msg_id m)) = true.

(** Ascending by uid. *)
Definition uid_le (a b : message) : Prop := uid a <= uid b.

(** The loop of the [or] case over the entries of its value. *)
Definition walk_entries pd bts :=
  fix entries (l : list (list term)) (st : walk_state)
    : list jsval * walk_state :=
    match l with
    | [] => ([], st)
    | entry :: r =>
        let '(p1, st1) := walkQuery pd bts false entry st in
        let '(p2, st2) := entries r st1 in
        (p1 ++ p2, st2)
    end.

(** The walk only adds calls of the callback to the trace. *)
Definition extends (st st' : walk_state) : Prop :=
  exists evs, trace (walk_world st') = trace (walk_world st) ++ evs
              /\ db (walk_world st') = db (walk_world st).

(** The messages of [d] that are not stored in [d'] any more. *)
Definition removed_messages (d d' : DB) : list message :=
  filter (fun m => negb (existsb (fun x => msg_id x =? msg_id m) (messages d')))
         (messages d).

(** After an EXPUNGE [storageUsed] of the owner of the mailbox is down by
    the summed sizes of the messages it deleted. *)
Definition expunge_decrements_storage (fault : op -> bool) (path : string)
           (u : update) (s : session) (d : DB) : Prop :=
  forall mailbox,
    find_mailbox d (sess_user s) path = Some mailbox ->
    let r := onExpunge fault path u s (start d) in
    storage_of (db r) (mb_user mailbox)
    = option_map (fun z => z - sum_sizes (removed_messages d (db r)))
                 (storage_of d (mb_user mailbox)).

(** ** The mailbox and account handlers

    [onList], [onLsub], [onSubscribe], [onUnsubscribe], [onCreate],
    [onRename], [onDelete], [onOpen], [onStatus], [onAppend], [onMove],
    [onGetQuotaRoot] and [onGetQuota]. *)

(** The storage calls of these handlers, next to the ones above. *)
Inductive call : Type :=
| Basic (o : op)
| CallListMailboxes (user_ : Z) (subscribed_only : bool)
| CallSetSubscribed (user_ : Z) (path : string) (b : bool)
| CallInsertMailbox (user_ : Z) (path : string)
| CallRenameMailbox (user_ : Z) (path newname : string)
| CallDeleteMailbox (id : Z)
| CallAggregateSize (id : Z)
| CallDeleteMessages (id : Z)
| CallDeleteJournal (id : Z)
| CallFindUids (id : Z)
| CallCount (id : Z) (unseen_only : bool)
| CallFindUserById (id : Z).

(** A mailbox document as a value. *)
Definition mailbox_value (m : mailbox) : jsobj :=
  [("_id", JId (mb_id m));
   ("user", JId (mb_user m));
   ("path", JStr (mb_path m));
   ("uidValidity", JNum (uidValidity m));
   ("uidNext", JNum (uidNext m));
   ("modifyIndex", JNum (modifyIndex m));
   ("subscribed", JBool (subscribed m));
   ("flags", str_array (mb_flags m))]
  ++ match specialUse m with
     | Some role => [("specialUse", JStr role)]
     | None => []
     end.

Definition with_subscribed (b : bool) (m : mailbox) : mailbox :=
  {| mb_id := mb_id m; mb_user := mb_user m; mb_path := mb_path m;
     uidValidity := uidValidity m; uidNext := uidNext m;
     modifyIndex := modifyIndex m; subscribed := b;
     mb_flags := mb_flags m; specialUse := specialUse m |}.

Definition with_path (p : string) (m : mailbox) : mailbox :=
  {| mb_id := mb_id m; mb_user := mb_user m; mb_path := p;
     uidValidity := uidValidity m; uidNext := uidNext m;
     modifyIndex := modifyIndex m; subscribed := subscribed m;
     mb_flags := mb_flags m; specialUse := specialUse m |}.

Definition at_path (u : Z) (path : string) (m : mailbox) : bool :=
  (mb_user m =? u) && String.eqb (mb_path m) path.

(** [findOneAndUpdate({user, path}, {$set: ...})]: the first mailbox of the
    user at the path. *)
Fixpoint update_mailbox (u : Z) (path : string) (f : mailbox -> mailbox)
         (l : list mailbox) : list mailbox :=
  match l with
  | [] => []
  | m :: r => if at_path u path m then f m :: r
              else m :: update_mailbox u path f r
  end.

(** [mailboxes.deleteOne({_id: id})] *)
Fixpoint delete_mailbox (id : Z) (l : list mailbox) : list mailbox :=
  match l with
  | [] => []
  | m :: r => if mb_id m =? id then r else m :: delete_mailbox id r
  end.

(** The [$group] of [onDelete]: the sum of [size] over the messages of the
    mailbox. *)
Definition aggregate_size (id : Z) (l : list message) : Z :=
  fold_right (fun m acc => size m + acc) 0
             (filter (fun m => msg_mailbox m =? id) l).

(** The journal collection: the entries the notifier stored, each with the
    id of its mailbox. *)
Definition journal := list (Z * jsobj).

(** [a || b || 0] on numbers. *)
Definition first_nonzero (a b : Z) : Z :=
  if negb (a =? 0) then a else if negb (b =? 0) then b else 0.

(** What [messageHandler.add] is given. *)
Record append_request : Type := {
  req_user : Z;
  req_path : string;
  req_meta_to : string;
  req_meta_time : Z;
  req_date : jsval;
  req_flags : list string;
  req_raw : string
}.

(** What [messageHandler.add] and [messageHandler.move] hand to their
    callback: [(err)] or [(null, status, data)]. *)
Inductive handler_result : Type :=
| HandlerError (err : jsobj)
| HandlerDone (status data : jsval).

(** [if (err.imapResponse) callback(null, err.imapResponse) else
    callback(err)] *)
Definition relay_error (err : jsobj) : list jsval :=
  match obj_get "imapResponse" err with
  | Some response => if js_truthy response then [JNull; response] else [JObj err]
  | None => [JObj err]
  end.

Section Accounts.

(** Which storage calls fail. *)
Variable fails : call -> bool.

(** [Date.now()] *)
Variable now : Z.

(** [server.options.maxStorage] *)
Variable maxStorage : Z.

(** [messageHandler.add] and [messageHandler.move] *)
Variable messageHandler_add : append_request -> world -> world * handler_result.
Variable messageHandler_move :
  Z -> string -> string -> session -> list Z -> world -> world * handler_result.

(** LIST "" "*" *)
Definition onList (s : session) (w : world) : world :=
  if fails (CallListMailboxes (sess_user s) false) then
    emit (EvCallback [storage_error]) w
  else
    emit (EvCallback
            [JNull;
             JArr (map (fun m => JObj (mailbox_value m))
                       (filter (fun m => mb_user m =? sess_user s)
                               (mailboxes (db w))))]) w.

(** LSUB "" "*" *)
Definition onLsub (s : session) (w : world) : world :=
  if fails (CallListMailboxes (sess_user s) true) then
    emit (EvCallback [storage_error]) w
  else
    emit (EvCallback
            [JNull;
             JArr (map (fun m => JObj (mailbox_value m))
                       (filter (fun m => (mb_user m =? sess_user s)
                                         && Bool.eqb (subscribed m) true)
                               (mailboxes (db w))))]) w.

(** The body shared by SUBSCRIBE and UNSUBSCRIBE. *)
Definition set_subscription (b : bool) (path : string) (s : session)
           (w : world) : world :=
  if fails (CallSetSubscribed (sess_user s) path b) then
    emit (EvCallback [storage_error]) w
  else
    match find_mailbox (db w) (sess_user s) path with
    | None => emit (EvCallback [JNull; JStr "NONEXISTENT"]) w
    | Some _ =>
        emit (EvCallback [JNull; JBool true])
             (with_db (fun d => with_mailboxes
                                  (update_mailbox (sess_user s) path
                                                  (with_subscribed b)
                                                  (mailboxes d)) d) w)
    end.

(** SUBSCRIBE "path/to/mailbox" *)
Definition onSubscribe (path : string) (s : session) (w : world) : world :=
  set_subscription true path s w.

(** UNSUBSCRIBE "path/to/mailbox" *)
Definition onUnsubscribe (path : string) (s : session) (w : world) : world :=
  set_subscription false path s w.

(** CREATE "path/to/mailbox" *)
Definition onCreate (path : string) (s : session) (w : world) : world :=
  if fails (Basic (OpFindMailbox (sess_user s) path)) then
    emit (EvCallback [storage_error]) w
  else
    match find_mailbox (db w) (sess_user s) path with
    | Some _ => emit (EvCallback [JNull; JStr "ALREADYEXISTS"]) w
    | None =>
        let mailbox :=
          {| mb_id := next_oid (db w); mb_user := sess_user s; mb_path := path;
             uidValidity := now / 1000; uidNext := 1; modifyIndex := 0;
             subscribed := true; mb_flags := []; specialUse := None |} in
        if fails (CallInsertMailbox (sess_user s) path) then
          emit (EvCallback [storage_error]) w
        else
          emit (EvCallback [JNull; JBool true])
               (with_db (fun d => fresh_oid
                                    (with_mailboxes (mailboxes d ++ [mailbox]) d)) w)
    end.

(** RENAME "path/to/mailbox" "new/path" *)
Definition onRename (path newname : string) (s : session) (w : world) : world :=
  if fails (Basic (OpFindMailbox (sess_user s) newname)) then
    emit (EvCallback [storage_error]) w
  else
    match find_mailbox (db w) (sess_user s) newname with
    | Some _ => emit (EvCallback [JNull; JStr "ALREADYEXISTS"]) w
    | None =>
        if fails (CallRenameMailbox (sess_user s) path newname) then
          emit (EvCallback [storage_error]) w
        else
          match find_mailbox (db w) (sess_user s) path with
          | None => emit (EvCallback [JNull; JStr "NONEXISTENT"]) w
          | Some _ =>
              emit (EvCallback [JNull; JBool true])
                   (with_db (fun d => with_mailboxes
                                        (update_mailbox (sess_user s) path
                                                        (with_path newname)
                                                        (mailboxes d)) d) w)
          end
    end.

(** [if (mailbox.specialUse)] *)
Definition has_specialUse (m : mailbox) : bool :=
  match specialUse m with
  | Some role => truthy role
  | None => false
  end.

(** [done] of [onDelete]: the journal entries of the mailbox go last. *)
Definition delete_done (mailbox : mailbox) (wj : world * journal)
  : world * journal :=
  if fails (CallDeleteJournal (mb_id mailbox)) then
    (emit (EvCallback [storage_error]) (fst wj), snd wj)
  else
    (emit (EvCallback [JNull; JBool true]) (fst wj),
     filter (fun e => negb (fst e =? mb_id mailbox)) (snd wj)).

(** DELETE "path/to/mailbox" *)
Definition onDelete (path : string) (s : session) (w : world) (j : journal)
  : world * journal :=
  if fails (Basic (OpFindMailbox (sess_user s) path)) then
    (emit (EvCallback [storage_error]) w, j)
  else
    match find_mailbox (db w) (sess_user s) path with
    | None => (emit (EvCallback [JNull; JStr "NONEXISTENT"]) w, j)
    | Some mailbox =>
        if has_specialUse mailbox then
          (emit (EvCallback [JNull; JStr "CANNOT"]) w, j)
        else if fails (CallDeleteMailbox (mb_id mailbox)) then
          (emit (EvCallback [storage_error]) w, j)
        else
          let w1 := with_db (fun d => with_mailboxes
                                        (delete_mailbox (mb_id mailbox)
                                                        (mailboxes d)) d) w in
          if fails (CallAggregateSize (mb_id mailbox)) then
            (emit (EvCallback [storage_error]) w1, j)
          else
            (* calculate mailbox size by aggregating the size's of all messages *)
            let storageUsed := aggregate_size (mb_id mailbox) (messages (db w1)) in
            if fails (CallDeleteMessages (mb_id mailbox)) then
              (emit (EvCallback [storage_error]) w1, j)
            else
              let w2 := with_db (fun d => with_messages
                                            (filter (fun m => negb (msg_mailbox m
                                                                    =? mb_id mailbox))
                                                    (messages d)) d) w1 in
              if storageUsed =? 0 then delete_done mailbox (w2, j)
              else
                (* decrement quota counters *)
                delete_done mailbox
                  (adjust_storage (fun o => fails (Basic o)) (mb_user mailbox)
                                  (number_or_zero (- storageUsed)) w2, j)
    end.

(** SELECT/EXAMINE *)
Definition onOpen (path : string) (s : session) (w : world) : world :=
  if fails (Basic (OpFindMailbox (sess_user s) path)) then
    emit (EvCallback [storage_error]) w
  else
    match find_mailbox (db w) (sess_user s) path with
    | None => emit (EvCallback [JNull; JStr "NONEXISTENT"]) w
    | Some mailbox =>
        if fails (CallFindUids (mb_id mailbox)) then
          emit (EvCallback [storage_error]) w
        else
          let found := find_messages (fun m => msg_mailbox m =? mb_id mailbox)
                                     (db w) in
          emit (EvCallback
                  [JNull;
                   JObj (mailbox_value mailbox
                         ++ [("uidList", num_array (map uid found))])]) w
    end.

(** STATUS (X Y X) *)
Definition onStatus (path : string) (s : session) (w : world) : world :=
  if fails (Basic (OpFindMailbox (sess_user s) path)) then
    emit (EvCallback [storage_error]) w
  else
    match find_mailbox (db w) (sess_user s) path with
    | None => emit (EvCallback [JNull; JStr "NONEXISTENT"]) w
    | Some mailbox =>
        if fails (CallCount (mb_id mailbox) false) then
          emit (EvCallback [storage_error]) w
        else
          let total :=
            List.length (filter (fun m => msg_mailbox m =? mb_id mailbox)
                                (messages (db w))) in
          if fails (CallCount (mb_id mailbox) true) then
            emit (EvCallback [storage_error]) w
          else
            let unseen :=
              List.length (filter (fun m => (msg_mailbox m =? mb_id mailbox)
                                            && Bool.eqb (seen m) false)
                                  (messages (db w))) in
            emit (EvCallback
                    [JNull;
                     JObj [("messages", JNum (Z.of_nat total));
                           ("uidNext", JNum (uidNext mailbox));
                           ("uidValidity", JNum (uidValidity mailbox));
                           ("unseen", JNum (Z.of_nat unseen))]]) w
    end.

Definition find_user_by_id (d : DB) (id : Z) : option user :=
  find (fun x => user_id x =? id) (users d).

(** APPEND mailbox (flags) date message *)
Definition onAppend (path : string) (flags_ : list string) (date : jsval)
           (raw : string) (s : session) (w : world) : world :=
  if fails (CallFindUserById (sess_user s)) then
    emit (EvCallback [storage_error]) w
  else
    match find_user_by_id (db w) (sess_user s) with
    | None => emit (EvCallback [js_error "User not found"]) w
    | Some user =>
        if negb (quota user =? 0)
           && (quota user <? storageUsed user + Z.of_nat (String.length raw)) then
          emit (EvCallback [JBool false; JStr "OVERQUOTA"]) w
        else
          let '(w1, result) :=
            messageHandler_add
              {| req_user := sess_user s; req_path := path;
                 req_meta_to := sess_username s; req_meta_time := now;
                 req_date := date; req_flags := flags_; req_raw := raw |} w in
          match result with
          | HandlerError err => emit (EvCallback (relay_error err)) w1
          | HandlerDone status data => emit (EvCallback [JNull; status; data]) w1
          end
    end.

(** MOVE / UID MOVE sequence mailbox *)
Definition onMove (path : string) (u : update) (s : session) (w : world)
  : world :=
  let '(w1, result) :=
    messageHandler_move (sess_user s) path (destination u) s (upd_messages u) w in
  match result with
  | HandlerError err => emit (EvCallback (relay_error err)) w1
  | HandlerDone status data => emit (EvCallback [JNull; status; data]) w1
  end.

(** The answer of both quota handlers. *)
Definition quota_answer (user : user) : jsval :=
  JObj [("root", JStr "");
        ("quota", JNum (first_nonzero (quota user) maxStorage));
        ("storageUsed", JNum (Z.max (storageUsed user) 0))].

Definition quota_lookup (s : session) (w : world) : world :=
  if fails (CallFindUserById (sess_user s)) then
    emit (EvCallback [storage_error]) w
  else
    match find_user_by_id (db w) (sess_user s) with
    | None => emit (EvCallback [js_error "User data not found"]) w
    | Some user => emit (EvCallback [JNull; quota_answer user]) w
    end.

Definition onGetQuotaRoot (path : string) (s : session) (w : world) : world :=
  if fails (Basic (OpFindMailbox (sess_user s) path)) then
    emit (EvCallback [storage_error]) w
  else
    match find_mailbox (db w) (sess_user s) path with
    | None => emit (EvCallback [JNull; JStr "NONEXISTENT"]) w
    | Some _ => quota_lookup s w
    end.

Definition onGetQuota (quotaRoot : string) (s : session) (w : world) : world :=
  if negb (String.eqb quotaRoot "") then
    emit (EvCallback [JNull; JStr "NONEXISTENT"]) w
  else quota_lookup s w.

End Accounts.

(** ** Start-up: [module.exports] *)

(** One entry of [indexes.json]. *)
Record index_spec : Type := {
  index_collection : string;
  index_indexes : jsval
}.

(** What the server does after [server.listen] was called: it fails with an
    error or it reports that it listens. *)
Inductive server_event : Type :=
| ServerError (err : jsval)
| ServerListening.

Inductive boot_effect : Type :=
| CreateIndexes (collection : string) (indexes : jsval)
| LogIndexes (count : nat)
| Listen
| Done (args : list jsval)
| LogError (err : jsval)
| Close.

(** [ensureIndexes]: one [createIndexes] after the other; its outcome is not
    looked at. *)
Fixpoint ensureIndexes (todo : list index_spec) (total : nat) : list boot_effect :=
  match todo with
  | [] => [LogIndexes total]
  | index :: rest =>
      CreateIndexes (index_collection index) (index_indexes index)
      :: ensureIndexes rest total
  end.

(** The handlers [start] installs with [server.on('error')] and
    [server.listen], run over the events of the server; [started] is the
    flag both share. *)
Fixpoint serve (started : bool) (events : list server_event) : list boot_effect :=
  match events with
  | [] => []
  | ServerError err :: rest =>
      if negb started then Done [err] :: serve true rest
      else LogError err :: serve started rest
  | ServerListening :: rest =>
      if started then Close :: serve started rest
      else Done [JNull; JStr "server"] :: serve true rest
  end.

Definition boot (setupIndexes : list index_spec) (events : list server_event)
  : list boot_effect :=
  ensureIndexes setupIndexes (List.length setupIndexes)
  ++ Listen :: serve false events.

Definition done_calls (l : list boot_effect) : list (list jsval) :=
  flat_map (fun e => match e with Done a => [a] | _ => [] end) l.

(** No two mailboxes of a user share a path. *)
Definition unique_paths (d : DB) : Prop :=
  NoDup (map (fun m => (mb_user m, mb_path m)) (mailboxes d)).

(** The paths of the mailbox documents in an array. *)
Definition paths_of (v : jsval) : list string :=
  match v with
  | JArr l =>
      flat_map (fun x => match x with
                         | JObj o => match obj_get "path" o with
                                     | Some (JStr p) => [p]
                                     | _ => []
                                     end
                         | _ => []
                         end) l
  | _ => []
  end.

(** The paths a LIST or LSUB answered with. *)
Definition listed_paths (t : list event) : list string :=
  flat_map (fun args => match args with
                        | [JNull; v] => paths_of v
                        | _ => []
                        end) (callbacks t).

(** No storage call of the mailbox handlers fails. *)
Definition dependable (fails : call -> bool) : Prop := forall c, fails c = false.

(** No two mailboxes share an [_id]. *)
Definition unique_mailbox_ids (d : DB) : Prop :=
  NoDup (map mb_id (mailboxes d)).

(** The mailbox CREATE inserts. *)
Definition created_mailbox (now : Z) (path : string) (s : session) (d : DB)
  : mailbox :=
  {| mb_id := next_oid d; mb_user := sess_user s; mb_path := path;
     uidValidity := now / 1000; uidNext := 1; modifyIndex := 0;
     subscribed := true; mb_flags := []; specialUse := None |}.

(** The messages of a mailbox. *)
Definition in_mailbox (id : Z) (m : message) : bool := msg_mailbox m =? id.

(** The operations of every [bulkWrite] call, call by call. *)
Definition bulk_batches (t : list event) : list (list (Z * jsobj)) :=
  flat_map (fun e => match e with EvBulkWrite l => [l] | _ => [] end) t.

(** What one [bulkWrite] may be handed. *)
Definition batch_ok (ops : list (Z * jsobj)) : Prop :=
  (1 <= List.length ops <= BULK_BATCH_SIZE)%nat.

(** A message without its flags and the three booleans kept with them. *)
Definition message_frame (m : message) : message :=
  with_flags [] (with_seen false (with_flagged false (with_deleted false m))).

(** A mailbox without its flags. *)
Definition mailbox_frame (m : mailbox) : mailbox :=
  {| mb_id := mb_id m; mb_user := mb_user m; mb_path := mb_path m;
     uidValidity := uidValidity m; uidNext := uidNext m;
     modifyIndex := modifyIndex m; subscribed := subscribed m;
     mb_flags := []; specialUse := specialUse m |}.

(** An event that changes nothing: a response, a raw write to the socket,
    its destruction, the completion of the command. *)
Definition answers_only (e : event) : bool :=
  match e with
  | EvWrite _ | EvSocketWrite _ | EvSocketDestroy | EvCallback _ => true
  | _ => false
  end.

(** A message after [seen_update]: [\Seen] among its flags, [seen] set. *)
Definition marked_seen (m : message) : message :=
  with_flags (add_to_set (flags m) ["\Seen"]) (with_seen true m).

(** What FETCH may do to a message. *)
Definition unchanged_or_seen (a b : message) : Prop := b = a \/ b = marked_seen a.

Definition with_mb_flags (f : list string) (m : mailbox) : mailbox :=
  {| mb_id := mb_id m; mb_user := mb_user m; mb_path := mb_path m;
     uidValidity := uidValidity m; uidNext := uidNext m;
     modifyIndex := modifyIndex m; subscribed := subscribed m;
     mb_flags := f; specialUse := specialUse m |}.

(** The mailboxes [after] are the mailboxes [before], but for the flags of
    the mailbox [id], which are [f]. *)
Definition flags_replaced (id : Z) (f : list string) (before after : list mailbox)
  : Prop :=
  Forall2 (fun b a => a = if mb_id b =? id then with_mb_flags f b else b)
          before after.

(** Every message has a uid below the [uidNext] of its mailbox. *)
Definition uids_below_next (d : DB) : Prop :=
  forall m b, In m (messages d) ->
              find_mailbox_by_id d (msg_mailbox m) = Some b ->
              uid m < uidNext b.

(** No two messages of a mailbox share a uid. *)
Definition unique_uids (d : DB) : Prop :=
  NoDup (map (fun m => (msg_mailbox m, uid m)) (messages d)).


(** The untagged response EXPUNGE writes for a message. *)
Definition expunged_response (m : message) : response :=
  {| resp_command := "EXPUNGE"; resp_uid := uid m; resp_data := [] |}.

(** An attachment without its links to the messages [ids]. *)
Definition without_links (ids : list Z) (a : attachment) : attachment :=
  {| att_id := att_id a;
     att_messages := filter (fun x => negb (uid_in ids x)) (att_messages a) |}.

(** The greatest modseq of the messages, 0 when there is none above it. *)
Definition highest_modseq (l : list message) : Z :=
  fold_left Z.max (map modseq l) 0.

(** The result SEARCH hands to its callback for the messages found. *)
Definition search_result (found : list message) : jsval :=
  JObj [("uidList", num_array (map uid found));
        ("highestModseq", JNum (highest_modseq found))].

(** An invocation of the completion callback. *)
Definition is_callback (e : event) : bool :=
  match e with
  | EvCallback _ => true
  | _ => false
  end.

(** What a walk over search criteria may do to the state it threads:
    [hasAll] and [nothing] are never reset, the database is not written,
    and nothing is done but calling back. *)
Definition walked (st st' : walk_state) : Prop :=
  (hasAll st = true -> hasAll st' = true)
  /\ (nothing st = true -> nothing st' = true)
  /\ db (walk_world st') = db (walk_world st)
  /\ (forallb is_callback (trace (walk_world st)) = true ->
      forallb is_callback (trace (walk_world st')) = true).

(** A criterion that cannot be searched for: a text or body search that is
    empty or that the walk reaches negated once. *)
Definition unsearchable (t : term) : bool :=
  match t with
  | TText v | TBody v => negb (truthy v)
  | TNot [TText _] | TNot [TBody _] => true
  | _ => false
  end.

(** The message FETCH shows: with [\Seen] put first when it marks it. *)
Definition fetch_shown (o : fetch_options) (m : message) : message :=
  if markAsSeen o && negb (includes (flags m) "\Seen")
  then with_flags ("\Seen" :: flags m) m else m.

(** The response FETCH writes for a message. *)
Definition fetch_response (getQueryResponse : jsval -> message -> jsval)
           (o : fetch_options) (m : message) : response :=
  {| resp_command := "FETCH";
     resp_uid := uid (fetch_shown o m);
     resp_data := [("query", opt_query o);
                   ("values", getQueryResponse (opt_query o) (fetch_shown o m))] |}.

(** The message as FETCH leaves it in the database. *)
Definition fetch_stored (o : fetch_options) (m : message) : message :=
  if markAsSeen o && negb (includes (flags m) "\Seen") then marked_seen m else m.

(** ** Traces and worlds *)

Lemma trace_emit (e : event) (w : world) : trace (emit e w) = trace w ++ [e].
Proof. reflexivity. Qed.

Lemma trace_with_db (f : DB -> DB) (w : world) : trace (with_db f w) = trace w.
Proof. reflexivity. Qed.

Lemma db_emit (e : event) (w : world) : db (emit e w) = db w.
Proof. reflexivity. Qed.

Lemma db_with_db (f : DB -> DB) (w : world) : db (with_db f w) = f (db w).
Proof. reflexivity. Qed.

Lemma callbacks_app (a b : list event) :
  callbacks (a ++ b) = callbacks a ++ callbacks b.
Proof. apply flat_map_app. Qed.

Lemma written_app (a b : list event) : written (a ++ b) = written a ++ written b.
Proof. apply flat_map_app. Qed.

Lemma added_entries_app (a b : list event) :
  added_entries (a ++ b) = added_entries a ++ added_entries b.
Proof. apply flat_map_app. Qed.

Lemma bulk_written_app (a b : list event) :
  bulk_written (a ++ b) = bulk_written a ++ bulk_written b.
Proof. apply flat_map_app. Qed.

Lemma storage_adjustments_app (a b : list event) :
  storage_adjustments (a ++ b) = storage_adjustments a ++ storage_adjustments b.
Proof. apply flat_map_app. Qed.

Lemma entries_all_app P (a b : list event) :
  entries_all P (a ++ b) <-> entries_all P a /\ entries_all P b.
Proof. apply Forall_app. Qed.

Lemma entries_all_one P (e : event) :
  match e with EvAddEntries us p l => Forall (P us p) l | _ => True end ->
  entries_all P [e].
Proof. intro H. constructor; [exact H | constructor]. Qed.

Lemma number_or_zero_id (z : Z) : number_or_zero z = z.
Proof. unfold number_or_zero. destruct (Z.eqb_spec z 0); congruence. Qed.

(** ** JavaScript strings at work *)

Example normalize_trims_and_lowers : normalize "  \SeEn " = "\seen".
Proof. reflexivity. Qed.

Example trim_keeps_inner_space : trim " a b  " = "a b".
Proof. reflexivity. Qed.

Example escape_regex_dot : escape_regex "a.b" = "a\.b".
Proof. reflexivity. Qed.

(** ** AUTH *)

(** C9. An attempt that the rate limiter lets through and that fails ends
    the same way whether the user is missing or the password is wrong: the
    callback is called once, without arguments, and nothing else happens. *)
Theorem auth_failures_indistinguishable :
  forall (fault : op -> bool) (limiter : string -> Z)
         (compare : string -> string -> bool)
         (lg1 lg2 : login) (s1 s2 : session) (d1 d2 : DB) (u2 : user),
    let name1 := trim (login_username lg1) in
    let name2 := trim (login_username lg2) in
    let key1 := String.append name1 (String.append ":" (remoteAddress s1)) in
    let key2 := String.append name2 (String.append ":" (remoteAddress s2)) in
    fault (OpLoginLimiter key1) = false -> limiter key1 = 0 ->
    fault (OpLoginLimiter key2) = false -> limiter key2 = 0 ->
    fault (OpFindUser name1) = false -> fault (OpFindUser name2) = false ->
    find_user d1 name1 = None ->
    find_user d2 name2 = Some u2 ->
    compare (login_password lg2) (password u2) = false ->
    trace (onAuth fault limiter compare lg1 s1 (start d1)) = [EvCallback []]
    /\ trace (onAuth fault limiter compare lg2 s2 (start d2)) = [EvCallback []]
    /\ db (onAuth fault limiter compare lg1 s1 (start d1)) = d1
    /\ db (onAuth fault limiter compare lg2 s2 (start d2)) = d2.
Proof.
  intros fault limiter compare lg1 lg2 s1 s2 d1 d2 u2 name1 name2 key1 key2
         Hl1 Ht1 Hl2 Ht2 Hf1 Hf2 Hmiss Hfound Hcmp.
  unfold onAuth.
  fold name1 name2. fold key1 key2.
  rewrite Hl1, Hl2, Ht1, Ht2, Hf1, Hf2. cbn [Z.eqb negb db start].
  rewrite Hmiss, Hfound, Hcmp. cbn. repeat split.
Qed.

Lemma auth_failures_indistinguishable_witness :
  trace (onAuth Sample.no_fault Sample.limiter Sample.compareSync
                {| login_username := "bob"; login_password := "x" |}
                Sample.s1 (start Sample.db0)) = [EvCallback []]
  /\ trace (onAuth Sample.no_fault Sample.limiter Sample.compareSync
                   {| login_username := " alice "; login_password := "wrong" |}
                   Sample.s1 (start Sample.db0)) = [EvCallback []].
Proof.
  pose proof (@auth_failures_indistinguishable
                Sample.no_fault Sample.limiter Sample.compareSync
                {| login_username := "bob"; login_password := "x" |}
                {| login_username := " alice "; login_password := "wrong" |}
                Sample.s1 Sample.s1 Sample.db0 Sample.db0 Sample.alice
                eq_refl eq_refl eq_refl eq_refl eq_refl eq_refl
                eq_refl eq_refl eq_refl) as H.
  split; [exact (proj1 H) | exact (proj1 (proj2 H))].
Defined.

(** ** STORE: invariants of the loop *)

Section StoreInvariant.

Variable fault : op -> bool.
Variable systemFlags : list string.
Variable path : string.
Variable u : update.
Variable s : session.
Variable mailbox : mailbox.

(** A property of worlds, kept by every step of the loop as long as the
    queued operations satisfy [Pop] and the queued entries [Pent]. *)
Variable I : world -> Prop.
Variable Pop : Z * jsobj -> Prop.
Variable Pent : jsobj -> Prop.

Hypothesis I_write : forall r w, I w -> I (emit (EvWrite r) w).
Hypothesis I_fire : forall us p w, I w -> I (emit (EvFire us p) w).
Hypothesis I_callback : forall a w, I w -> I (emit (EvCallback a) w).
Hypothesis I_bulk_event :
  forall ops w, Forall Pop ops -> I w -> I (emit (EvBulkWrite ops) w).
Hypothesis I_bulk :
  forall ops w, Forall Pop ops -> I w -> I (with_db (bulk_write ops) w).
Hypothesis I_entries :
  forall es w, Forall Pent es -> I w ->
               I (emit (EvAddEntries (sess_user s) path es) w).
Hypothesis I_learn :
  forall w, I w -> I (updateMailboxFlags fault systemFlags mailbox u w).

Lemma write_updates_inv ops w :
  Forall Pop ops -> I w -> I (write_updates fault ops w).
Proof.
  intros Hops Hw. unfold write_updates.
  destruct (fault (OpBulkWrite ops)); auto.
Qed.

Lemma store_finish_inv args w :
  I w -> I (store_finish fault systemFlags u mailbox args w).
Proof.
  intros Hw. unfold store_finish.
  destruct args as [|a args']; [auto |].
  destruct (js_truthy a); auto.
Qed.

Lemma store_done_inv args ue ne w :
  Forall Pop ue -> Forall Pent ne -> I w ->
  I (store_done fault systemFlags path u s mailbox args ue ne w).
Proof.
  intros Hue Hne Hw. unfold store_done.
  destruct ue as [|o ue'].
  - apply store_finish_inv. auto.
  - apply store_finish_inv. apply I_fire. apply I_entries; [exact Hne |].
    apply write_updates_inv; assumption.
Qed.

Lemma store_processNext_inv cursor :
  Forall (fun m => Pop (msg_id m, store_flagsupdate u m)
                   /\ Pent (store_entry s m (store_new_flags u m)))
         cursor ->
  forall n ue ne w,
    Forall Pop ue -> Forall Pent ne -> I w ->
    I (store_processNext fault systemFlags path u s mailbox cursor n ue ne w).
Proof.
  induction 1 as [|m rest [Hop Hent] _ IH]; intros n ue ne w Hue Hne Hw;
    cbn [store_processNext].
  - destruct (fault (OpCursorNext n)); apply store_done_inv; assumption.
  - destruct (fault (OpCursorNext n)); [apply store_done_inv; assumption |].
    unfold store_flagsupdate, store_new_flags in Hop, Hent.
    destruct (store_flags u m) as [[fl upd] fu]. cbn [fst snd] in Hop, Hent.
    assert (Hw1 : I (if silent u then w
                     else emit (EvWrite (store_response u m fl)) w))
      by (destruct (silent u); auto).
    destruct upd; [| apply IH; assumption].
    assert (Hue' : Forall Pop (ue ++ [(msg_id m, fu)]))
      by (apply Forall_app; split; [assumption | constructor; [assumption | constructor]]).
    assert (Hne' : Forall Pent (ne ++ [store_entry s m fl]))
      by (apply Forall_app; split; [assumption | constructor; [assumption | constructor]]).
    destruct (BULK_BATCH_SIZE <=? List.length (ue ++ [(msg_id m, fu)]))%nat;
      [| apply IH; assumption].
    destruct (fault (OpBulkWrite (ue ++ [(msg_id m, fu)]))) eqn:Hf.
    + apply store_done_inv; auto.
    + apply IH; auto. apply I_fire. apply I_entries; [assumption |].
      apply write_updates_inv; assumption.
Qed.

End StoreInvariant.

(** ** STORE: what the steps leave alone *)

Lemma trace_updateMailboxFlags fault systemFlags mailbox u w :
  trace (updateMailboxFlags fault systemFlags mailbox u w) = trace w.
Proof.
  unfold updateMailboxFlags.
  destruct (String.eqb (action u) "remove"); [reflexivity |].
  destruct (learn_flags _ _); [reflexivity |].
  destruct (fault _); reflexivity.
Qed.

Lemma trace_write_updates fault ops w :
  trace (write_updates fault ops w) = trace w ++ [EvBulkWrite ops].
Proof. unfold write_updates. destruct (fault _); reflexivity. Qed.

Lemma trace_store_finish fault systemFlags u mailbox args w :
  trace (store_finish fault systemFlags u mailbox args w)
  = trace w ++ [EvCallback args].
Proof.
  unfold store_finish. destruct args as [|a l].
  - rewrite trace_emit, trace_updateMailboxFlags. reflexivity.
  - destruct (js_truthy a); rewrite trace_emit;
      [| rewrite trace_updateMailboxFlags]; reflexivity.
Qed.

Lemma trace_store_done fault systemFlags path u s mailbox args ue ne w :
  trace (store_done fault systemFlags path u s mailbox args ue ne w)
  = trace w
    ++ match ue with
       | [] => []
       | _ => [EvBulkWrite ue; EvAddEntries (sess_user s) path ne]
       end
    ++ [EvFire (sess_user s) path; EvCallback args].
Proof.
  unfold store_done. destruct ue as [|o ue']; rewrite trace_store_finish.
  - rewrite trace_emit, <- app_assoc. reflexivity.
  - rewrite !trace_emit, trace_write_updates, <- !app_assoc. reflexivity.
Qed.

Lemma modifyIndex_add_mailbox_flags id news l :
  map modifyIndex (add_mailbox_flags id news l) = map modifyIndex l.
Proof.
  induction l as [|m r IH]; [reflexivity |]. cbn [add_mailbox_flags].
  destruct (mb_id m =? id); cbn [map]; [| rewrite IH]; reflexivity.
Qed.

Lemma uidNext_add_mailbox_flags id news l :
  map uidNext (add_mailbox_flags id news l) = map uidNext l.
Proof.
  induction l as [|m r IH]; [reflexivity |]. cbn [add_mailbox_flags].
  destruct (mb_id m =? id); cbn [map]; [| rewrite IH]; reflexivity.
Qed.

Lemma messages_updateMailboxFlags fault systemFlags mailbox u w :
  messages (db (updateMailboxFlags fault systemFlags mailbox u w))
  = messages (db w).
Proof.
  unfold updateMailboxFlags.
  destruct (String.eqb (action u) "remove"); [reflexivity |].
  destruct (learn_flags _ _); [reflexivity |].
  destruct (fault _); reflexivity.
Qed.

Lemma modifyIndex_updateMailboxFlags fault systemFlags mailbox u w :
  map modifyIndex (mailboxes (db (updateMailboxFlags fault systemFlags mailbox u w)))
  = map modifyIndex (mailboxes (db w)).
Proof.
  unfold updateMailboxFlags.
  destruct (String.eqb (action u) "remove"); [reflexivity |].
  destruct (learn_flags _ _); [reflexivity |].
  destruct (fault _); [reflexivity |].
  cbn. apply modifyIndex_add_mailbox_flags.
Qed.

(** An update whose [$set] has no [modseq] leaves the stored modseq. *)
Lemma modseq_fold_set_field fs :
  obj_get "modseq" fs = None ->
  forall m, modseq (fold_left set_field fs m) = modseq m.
Proof.
  induction fs as [|[k v] r IH]; intros Hget m; [reflexivity |].
  cbn [obj_get] in Hget. cbn [fold_left].
  destruct (String.eqb_spec "modseq" k) as [|Hk]; [discriminate |].
  rewrite (IH Hget).
  unfold set_field.
  destruct v; try reflexivity.
  - repeat match goal with |- context [if ?c then _ else _] => destruct c end;
      reflexivity.
  - destruct (String.eqb_spec k "modseq"); [congruence | reflexivity].
  - destruct (String.eqb k "flags"); reflexivity.
Qed.

Lemma modseq_apply_update u m :
  (forall fs, obj_get "$set" u = Some (JObj fs) -> obj_get "modseq" fs = None) ->
  modseq (apply_update u m) = modseq m.
Proof.
  intro Hset. unfold apply_update.
  assert (H1 : modseq match obj_get "$set" u with
                      | Some (JObj fs) => fold_left set_field fs m
                      | _ => m
                      end = modseq m).
  { destruct (obj_get "$set" u) as [[| | | | | |fs]|]; try reflexivity.
    apply modseq_fold_set_field. apply Hset. reflexivity. }
  set (m1 := match obj_get "$set" u with
             | Some (JObj fs) => fold_left set_field fs m
             | _ => m
             end) in *.
  assert (H2 : modseq match obj_get "$addToSet" u with
                      | Some (JObj o) =>
                          match obj_get "flags" o with
                          | Some v => with_flags (add_to_set (flags m1) (add_to_set_operand v)) m1
                          | None => m1
                          end
                      | _ => m1
                      end = modseq m).
  { destruct (obj_get "$addToSet" u) as [[| | | | | |o]|]; try exact H1.
    destruct (obj_get "flags" o); exact H1. }
  set (m2 := match obj_get "$addToSet" u with
             | Some (JObj o) => _
             | _ => m1
             end) in *.
  destruct (obj_get "$pull" u) as [[| | | | | |o]|]; try exact H2.
  destruct (obj_get "flags" o); exact H2.
Qed.

Lemma store_flagsupdate_set u m fs :
  obj_get "$set" (store_flagsupdate u m) = Some (JObj fs) ->
  obj_get "modseq" fs = None.
Proof.
  unfold store_flagsupdate, store_flags.
  destruct (String.eqb (action u) "set").
  { cbn. intro H. injection H as <-. reflexivity. }
  destruct (String.eqb (action u) "add").
  { cbn [snd]. unfold set_system_flags.
    destruct (includes _ "\Seen"), (includes _ "\Flagged"), (includes _ "\Deleted");
      cbn; intro H; try discriminate H; injection H as <-; reflexivity. }
  destruct (String.eqb (action u) "remove").
  { cbn [snd]. unfold set_system_flags.
    destruct (includes _ "\Seen"), (includes _ "\Flagged"), (includes _ "\Deleted");
      cbn; intro H; try discriminate H; injection H as <-; reflexivity. }
  cbn. discriminate.
Qed.

Lemma modseq_update_one id u l :
  (forall m, modseq (apply_update u m) = modseq m) ->
  map modseq (update_one id u l) = map modseq l.
Proof.
  intro H. induction l as [|m r IH]; [reflexivity |]. cbn [update_one].
  destruct (msg_id m =? id); cbn [map]; [rewrite H | rewrite IH]; reflexivity.
Qed.

Lemma modseq_bulk_write ops d :
  Forall (fun o => forall m, modseq (apply_update (snd o) m) = modseq m) ops ->
  map modseq (messages (bulk_write ops d)) = map modseq (messages d).
Proof.
  unfold bulk_write. cbn [messages with_messages].
  generalize (messages d) as l.
  induction ops as [|o r IH]; intros l H; [reflexivity |].
  inversion H as [|? ? Ho Hr]; subst. cbn [fold_left].
  rewrite (IH _ Hr). apply modseq_update_one. exact Ho.
Qed.

Lemma In_update_one id u l msg :
  In msg l -> msg_id msg <> id -> In msg (update_one id u l).
Proof.
  intros Hin Hid. induction l as [|m r IH]; [contradiction |].
  cbn [update_one]. destruct (Z.eqb_spec (msg_id m) id) as [He|Hne].
  - destruct Hin as [->|Hin]; [contradiction | right; exact Hin].
  - destruct Hin as [->|Hin]; [left; reflexivity | right; auto].
Qed.

Lemma In_bulk_write ops d msg :
  Forall (fun o => fst o <> msg_id msg) ops ->
  In msg (messages d) -> In msg (messages (bulk_write ops d)).
Proof.
  unfold bulk_write. cbn [messages with_messages].
  generalize (messages d) as l.
  induction ops as [|o r IH]; intros l H Hin; [exact Hin |].
  inversion H as [|? ? Ho Hr]; subst. cbn [fold_left].
  apply (IH _ Hr). apply In_update_one; [exact Hin | congruence].
Qed.

(** ** The cursor: filtered and sorted by uid *)

Lemma In_insert_by_uid x m l : In x (insert_by_uid m l) <-> x = m \/ In x l.
Proof.
  induction l as [|y r IH]; cbn [insert_by_uid].
  - cbn. intuition congruence.
  - destruct (uid m <=? uid y); cbn [In]; [intuition congruence |].
    rewrite IH. intuition congruence.
Qed.

Lemma In_sort_by_uid x l : In x (sort_by_uid l) <-> In x l.
Proof.
  induction l as [|y r IH]; [reflexivity |].
  cbn [sort_by_uid fold_right]. fold (sort_by_uid r).
  rewrite In_insert_by_uid, IH. cbn. intuition congruence.
Qed.

Lemma In_find_messages q d m :
  In m (find_messages q d) <-> In m (messages d) /\ q m = true.
Proof. unfold find_messages. rewrite In_sort_by_uid. apply filter_In. Qed.

Lemma HdRel_insert_by_uid a m l :
  HdRel uid_le a l -> uid_le a m -> HdRel uid_le a (insert_by_uid m l).
Proof.
  intros Hl Hm. destruct l as [|y r]; cbn [insert_by_uid].
  - constructor. exact Hm.
  - destruct (uid m <=? uid y); constructor; [exact Hm |].
    inversion Hl; assumption.
Qed.

Lemma Sorted_insert_by_uid m l :
  Sorted uid_le l -> Sorted uid_le (insert_by_uid m l).
Proof.
  induction 1 as [|y r Hr IH Hhd]; cbn [insert_by_uid].
  - repeat constructor.
  - destruct (Z.leb_spec (uid m) (uid y)).
    + constructor; [constructor; assumption |]. constructor. assumption.
    + constructor; [exact IH |]. apply HdRel_insert_by_uid; [exact Hhd |].
      unfold uid_le. lia.
Qed.

Lemma Sorted_sort_by_uid l : Sorted uid_le (sort_by_uid l).
Proof.
  induction l as [|y r IH]; [constructor |].
  cbn [sort_by_uid fold_right]. apply Sorted_insert_by_uid. exact IH.
Qed.

Lemma Sorted_map_uid l : Sorted uid_le l -> Sorted Z.le (map uid l).
Proof.
  induction 1 as [|y r Hr IH Hhd]; cbn [map]; constructor; [exact IH |].
  destruct Hhd; cbn [map]; constructor. assumption.
Qed.

(** ** STORE: the journal entries *)

Lemma store_entry_own s path m fl :
  own_entry "FETCH" s path (sess_user s) path (store_entry s m fl)
  /\ flags_entry_shape (sess_user s) path (store_entry s m fl).
Proof.
  split; [| split; reflexivity].
  repeat split. intros l Hl. unfold delivered_to. cbn [obj_get store_entry String.eqb Ascii.eqb Bool.eqb].
  cbn. rewrite Hl, String.eqb_refl. cbn. apply andb_false_r.
Qed.

Lemma store_entries fault systemFlags path u s d :
  entries_all (fun us p e => own_entry "FETCH" s path us p e
                             /\ flags_entry_shape us p e)
              (trace (onStore fault systemFlags path u s (start d))).
Proof.
  unfold onStore.
  destruct (fault _); [repeat constructor |].
  destruct (find_mailbox _ _ _) as [mailbox|]; [| repeat constructor].
  apply store_processNext_inv
    with (I := fun w => entries_all (fun us p e => own_entry "FETCH" s path us p e
                                                   /\ flags_entry_shape us p e)
                                    (trace w))
         (Pop := fun _ => True)
         (Pent := fun e => own_entry "FETCH" s path (sess_user s) path e
                           /\ flags_entry_shape (sess_user s) path e);
    try (intros; rewrite trace_emit; apply entries_all_app; split;
         [assumption | apply entries_all_one; auto]).
  - intros ops w _ Hw. exact Hw.
  - intros w Hw. rewrite trace_updateMailboxFlags. exact Hw.
  - apply Forall_forall. intros m _. split; [exact Logic.I | apply store_entry_own].
  - constructor.
  - constructor.
  - constructor.
Qed.

(** ** STORE: modifyIndex and modseq are never written *)

Lemma store_keeps_modseq fault systemFlags path u s d :
  let r := onStore fault systemFlags path u s (start d) in
  map modifyIndex (mailboxes (db r)) = map modifyIndex (mailboxes d)
  /\ map modseq (messages (db r)) = map modseq (messages d).
Proof.
  unfold onStore.
  destruct (fault _); [split; reflexivity |].
  destruct (find_mailbox _ _ _) as [mailbox|]; [| split; reflexivity].
  apply store_processNext_inv
    with (I := fun w => map modifyIndex (mailboxes (db w)) = map modifyIndex (mailboxes d)
                        /\ map modseq (messages (db w)) = map modseq (messages d))
         (Pop := fun o => forall m, modseq (apply_update (snd o) m) = modseq m)
         (Pent := fun _ => True);
    try (intros; rewrite db_emit; assumption).
  - intros ops w Hops [Hb Hm]. rewrite db_with_db. split; [exact Hb |].
    rewrite modseq_bulk_write; assumption.
  - intros w [Hb Hm]. rewrite modifyIndex_updateMailboxFlags, messages_updateMailboxFlags.
    split; assumption.
  - apply Forall_forall. intros m _. split; [| exact Logic.I].
    intro x. cbn [snd]. apply modseq_apply_update. apply store_flagsupdate_set.
  - constructor.
  - constructor.
  - split; reflexivity.
Qed.

(** ** STORE: a run without storage failures *)

Lemma store_updated_eq u m fl upd fu :
  store_flags u m = (fl, upd, fu) ->
  store_new_flags u m = fl /\ store_updated u m = upd /\ store_flagsupdate u m = fu.
Proof.
  intro E. unfold store_new_flags, store_updated, store_flagsupdate.
  rewrite E. repeat split.
Qed.

Section StoreReliable.

Variable fault : op -> bool.
Variable systemFlags : list string.
Variable path : string.
Variable u : update.
Variable s : session.
Variable mailbox : mailbox.

Hypothesis next_ok : forall n, fault (OpCursorNext n) = false.
Hypothesis bulk_ok : forall ops, fault (OpBulkWrite ops) = false.

Let response_of (m : message) := store_response u m (store_new_flags u m).
Let entry_of (m : message) := store_entry s m (store_new_flags u m).
Let op_of (m : message) := (msg_id m, store_flagsupdate u m).

Lemma store_processNext_reliable cursor :
  forall n ue ne w,
    List.length ue = List.length ne ->
    let r := store_processNext fault systemFlags path u s mailbox cursor n ue ne w in
    written (trace r)
    = written (trace w) ++ (if silent u then [] else map response_of cursor)
    /\ bulk_written (trace r)
       = bulk_written (trace w) ++ ue ++ map op_of (filter (store_updated u) cursor)
    /\ added_entries (trace r)
       = added_entries (trace w) ++ ne ++ map entry_of (filter (store_updated u) cursor)
    /\ callbacks (trace r) = callbacks (trace w) ++ [[JNull; JBool true]].
Proof.
  induction cursor as [|m rest IH]; intros n ue ne w Hlen; cbn zeta;
    cbn [store_processNext]; rewrite next_ok.
  - rewrite trace_store_done.
    rewrite !written_app, !bulk_written_app, !added_entries_app, !callbacks_app.
    destruct ue as [|o ue']; destruct ne as [|e ne']; try discriminate Hlen;
      cbn; rewrite ?app_nil_r; destruct (silent u); rewrite ?app_nil_r; auto.
  - destruct (store_flags u m) as [[fl upd] fu] eqn:E.
    destruct (store_updated_eq _ _ E) as (Efl & Eupd & Efu).
    cbn [filter]. rewrite Eupd.
    set (w1 := if silent u then w else emit (EvWrite (store_response u m fl)) w).
    assert (Hw1 : written (trace w1)
                  = written (trace w) ++ (if silent u then [] else [response_of m])
                  /\ bulk_written (trace w1) = bulk_written (trace w)
                  /\ added_entries (trace w1) = added_entries (trace w)
                  /\ callbacks (trace w1) = callbacks (trace w)).
    { subst w1. unfold response_of. rewrite Efl. destruct (silent u).
      - rewrite app_nil_r. auto.
      - rewrite trace_emit, written_app, bulk_written_app, added_entries_app,
          callbacks_app. cbn. rewrite !app_nil_r. auto. }
    destruct Hw1 as (Hwr & Hbw & Hae & Hcb).
    assert (Hstep : forall l : list response,
               (written (trace w) ++ (if silent u then [] else [response_of m]))
                 ++ (if silent u then [] else l)
               = written (trace w)
                   ++ (if silent u then [] else response_of m :: l)).
    { intro l. destruct (silent u); rewrite <- app_assoc; reflexivity. }
    destruct upd.
    + destruct (BULK_BATCH_SIZE <=? List.length (ue ++ [(msg_id m, fu)]))%nat.
      * rewrite bulk_ok.
        match goal with
        | |- context [store_processNext _ _ _ _ _ _ rest (S n) [] [] ?w4] =>
            destruct (IH (S n) [] [] w4 eq_refl) as (H1 & H2 & H3 & H4)
        end.
        rewrite H1, H2, H3, H4.
        rewrite !trace_emit, !trace_write_updates.
        rewrite !written_app, !bulk_written_app, !added_entries_app, !callbacks_app.
        rewrite Hwr, Hbw, Hae, Hcb. cbn [written bulk_written added_entries callbacks flat_map app map].
        rewrite !app_nil_r. rewrite Hstep.
        unfold op_of, entry_of. rewrite Efl, Efu.
        rewrite <- !app_assoc. cbn [app]. auto.
      * destruct (IH (S n) (ue ++ [(msg_id m, fu)]) (ne ++ [store_entry s m fl]) w1)
          as (H1 & H2 & H3 & H4).
        { rewrite !length_app. cbn. lia. }
        rewrite H1, H2, H3, H4, Hwr, Hbw, Hae, Hcb, Hstep. cbn [map].
        unfold op_of, entry_of. rewrite Efl, Efu.
        rewrite <- !app_assoc. cbn [app]. auto.
    + destruct (IH (S n) ue ne w1 Hlen) as (H1 & H2 & H3 & H4).
      rewrite H1, H2, H3, H4, Hwr, Hbw, Hae, Hcb, Hstep. auto.
Qed.

End StoreReliable.

(** C1, as stated, fails: STORE +FLAGS (\Flagged) on uid 7 changes the
    message, yet [modifyIndex] stays 5, the stored modseq stays 2 and the
    journal entry has no modseq. *)
Lemma store_modseq_counterexample :
  ~ store_assigns_modseq Sample.no_fault Sample.systemFlags "Drafts"
      (Sample.store "add" ["\Flagged"] [7] None) Sample.s1 Sample.db0.
Proof.
  intro H.
  destruct (H (Sample.box 1 "Drafts" 100 10 5) (Sample.msg 10 1 7 2 ["\Seen"] 30)
              eq_refl (or_introl eq_refl) eq_refl)
    as (ms & mailbox' & m' & e & Hbox & Hms & _).
  vm_compute in Hbox. injection Hbox as <-.
  cbn in Hms. lia.
Qed.

(** C1 (amended). STORE never writes a modseq: the [modifyIndex] of every
    mailbox and the modseq of every message are after the command what they
    were before, and every journal entry it appends is a FETCH entry with the
    keys command, ignore (the session id), uid, flags and message, without
    modseq.  In a run without storage failures there is one update and one
    such entry for every matched message whose flags changed, with its uid,
    its new flags and its id. *)
Theorem store_leaves_modseq_to_notifier :
  forall (fault : op -> bool) (systemFlags : list string) (path : string)
         (u : update) (s : session) (d : DB),
    let r := onStore fault systemFlags path u s (start d) in
    map modifyIndex (mailboxes (db r)) = map modifyIndex (mailboxes d)
    /\ map modseq (messages (db r)) = map modseq (messages d)
    /\ entries_all (fun us p e => own_entry "FETCH" s path us p e
                                  /\ flags_entry_shape us p e) (trace r)
    /\ (reliable fault ->
        forall mailbox,
          find_mailbox d (sess_user s) path = Some mailbox ->
          let changed := filter (store_updated u)
                                (find_messages (store_query mailbox u) d) in
          added_entries (trace r)
          = map (fun m => store_entry s m (store_new_flags u m)) changed
          /\ bulk_written (trace r)
             = map (fun m => (msg_id m, store_flagsupdate u m)) changed).
Proof.
  intros fault systemFlags path u s d r.
  destruct (store_keeps_modseq fault systemFlags path u s d) as [Hb Hm].
  split; [exact Hb |]. split; [exact Hm |].
  split; [apply store_entries |].
  intros Hrel mailbox Hfind changed. subst r changed. unfold onStore.
  rewrite Hrel. cbn [db start]. rewrite Hfind.
  destruct (@store_processNext_reliable fault systemFlags path u s mailbox
              (fun n => Hrel _) (fun ops => Hrel _)
              (find_messages (store_query mailbox u) d) 0%nat [] [] (start d) eq_refl)
    as (_ & Hbw & Hae & _).
  split; [exact Hae | exact Hbw].
Qed.

Lemma store_leaves_modseq_to_notifier_witness :
  reliable Sample.no_fault
  /\ added_entries
       (trace (onStore Sample.no_fault Sample.systemFlags "Drafts"
                       (Sample.store "add" ["\Flagged"] [7; 9] None)
                       Sample.s1 (start Sample.db0)))
     = [[("command", JStr "FETCH"); ("ignore", JStr "s1"); ("uid", JNum 7);
         ("flags", JArr [JStr "\Seen"; JStr "\Flagged"]); ("message", JId 10)];
        [("command", JStr "FETCH"); ("ignore", JStr "s1"); ("uid", JNum 9);
         ("flags", JArr [JStr "\Flagged"]); ("message", JId 11)]].
Proof.
  split; [intro o; reflexivity |].
  exact (proj1 (proj2 (proj2 (proj2
           (store_leaves_modseq_to_notifier
              Sample.no_fault Sample.systemFlags "Drafts"
              (Sample.store "add" ["\Flagged"] [7; 9] None) Sample.s1 Sample.db0)))
           (fun o => eq_refl) (Sample.box 1 "Drafts" 100 10 5) eq_refl)).
Defined.

(** C5, as stated, fails: STORE +FLAGS (\Seen) on uid 7, which has \Seen,
    changes nothing and still writes the FETCH response of uid 7. *)
Lemma store_fetch_counterexample :
  written (trace (onStore Sample.no_fault Sample.systemFlags "Drafts"
                    (Sample.store "add" ["\Seen"] [7] None)
                    Sample.s1 (start Sample.db0))) =
    [{| resp_command := "FETCH"; resp_uid := 7;
        resp_data := [("uid", JNum 7); ("flags", JArr [JStr "\Seen"])] |}]
  /\ ~ fetch_only_when_changed Sample.no_fault Sample.systemFlags "Drafts"
         (Sample.store "add" ["\Seen"] [7] None) Sample.s1 Sample.db0.
Proof.
  split; [reflexivity |].
  intro H.
  apply (H (Sample.box 1 "Drafts" 100 10 5) (Sample.msg 10 1 7 2 ["\Seen"] 30)
           {| resp_command := "FETCH"; resp_uid := 7;
              resp_data := [("uid", JNum 7); ("flags", JArr [JStr "\Seen"])] |}
           eq_refl (or_introl eq_refl) eq_refl (or_introl eq_refl)).
  reflexivity.
Qed.

(** C5 (amended). In a run without storage failures a STORE that is not
    silent writes one FETCH response, with the resulting flags, for every
    matched message, changed or not; a silent STORE writes none. *)
Theorem store_writes_fetch_for_every_match :
  forall (fault : op -> bool) (systemFlags : list string) (path : string)
         (u : update) (s : session) (d : DB) (mailbox : mailbox),
    reliable fault ->
    find_mailbox d (sess_user s) path = Some mailbox ->
    written (trace (onStore fault systemFlags path u s (start d)))
    = if silent u then []
      else map (fun m => store_response u m (store_new_flags u m))
               (find_messages (store_query mailbox u) d).
Proof.
  intros fault systemFlags path u s d mailbox Hrel Hfind. unfold onStore.
  rewrite Hrel. cbn [db start]. rewrite Hfind.
  destruct (@store_processNext_reliable fault systemFlags path u s mailbox
              (fun n => Hrel _) (fun ops => Hrel _)
              (find_messages (store_query mailbox u) d) 0%nat [] [] (start d) eq_refl)
    as (Hwr & _).
  exact Hwr.
Qed.

Lemma store_writes_fetch_for_every_match_witness :
  written (trace (onStore Sample.no_fault Sample.systemFlags "Drafts"
                          (Sample.store "add" ["\Seen"] [7; 9] None)
                          Sample.s1 (start Sample.db0)))
  = [{| resp_command := "FETCH"; resp_uid := 7;
        resp_data := [("uid", JNum 7); ("flags", JArr [JStr "\Seen"])] |};
     {| resp_command := "FETCH"; resp_uid := 9;
        resp_data := [("uid", JNum 9); ("flags", JArr [JStr "\Seen"])] |}].
Proof.
  exact (store_writes_fetch_for_every_match
           Sample.systemFlags "Drafts" (Sample.store "add" ["\Seen"] [7; 9] None)
           Sample.s1 Sample.db0 (mailbox := Sample.box 1 "Drafts" 100 10 5)
           (fun o => eq_refl) eq_refl).
Defined.

(** ** STORE: the conditional store *)

Lemma uid_in_In l x : uid_in l x = true <-> In x l.
Proof.
  unfold uid_in. rewrite existsb_exists. split.
  - intros (y & Hy & He). apply Z.eqb_eq in He. subst. exact Hy.
  - intro H. exists x. split; [exact H | apply Z.eqb_refl].
Qed.

Lemma unique_ids_eq l a b :
  NoDup (map msg_id l) -> In a l -> In b l -> msg_id a = msg_id b -> a = b.
Proof.
  induction l as [|x r IH]; intros Hnd Ha Hb He; [contradiction |].
  cbn [map] in Hnd. inversion Hnd as [|? ? Hx Hr]; subst.
  destruct Ha as [->|Ha], Hb as [->|Hb]; auto.
  - exfalso. apply Hx. rewrite He. apply in_map. exact Hb.
  - exfalso. apply Hx. rewrite <- He. apply in_map. exact Ha.
Qed.

Lemma store_processNext_callbacks fault systemFlags path u s mailbox cursor :
  forall n ue ne w,
  exists args,
    (args = [storage_error] \/ args = [JNull; JBool true])
    /\ callbacks (trace (store_processNext fault systemFlags path u s mailbox
                                           cursor n ue ne w))
       = callbacks (trace w) ++ [args].
Proof.
  assert (Hdone : forall args ue ne w,
             callbacks (trace (store_done fault systemFlags path u s mailbox
                                          args ue ne w))
             = callbacks (trace w) ++ [args]).
  { intros. rewrite trace_store_done, !callbacks_app.
    destruct ue; cbn; rewrite ?app_nil_r; reflexivity. }
  induction cursor as [|m rest IH]; intros n ue ne w; cbn [store_processNext].
  - destruct (fault (OpCursorNext n)); eexists; (split; [| apply Hdone]); auto.
  - destruct (fault (OpCursorNext n)); [eexists; (split; [| apply Hdone]); auto |].
    destruct (store_flags u m) as [[fl upd] fu].
    set (w1 := if silent u then w else emit (EvWrite (store_response u m fl)) w).
    assert (Hw1 : callbacks (trace w1) = callbacks (trace w)).
    { subst w1. destruct (silent u); [reflexivity |].
      rewrite trace_emit, callbacks_app. cbn. apply app_nil_r. }
    destruct upd.
    + destruct (BULK_BATCH_SIZE <=? _)%nat.
      * destruct (fault (OpBulkWrite _)).
        -- eexists. split; [left; reflexivity |].
           rewrite Hdone, trace_emit, callbacks_app, Hw1. cbn.
           rewrite app_nil_r. reflexivity.
        -- match goal with
           | |- context [store_processNext _ _ _ _ _ _ rest (S n) [] [] ?w4] =>
               destruct (IH (S n) [] [] w4) as (args & Hargs & Hcb)
           end.
           exists args. split; [exact Hargs |]. rewrite Hcb.
           rewrite !trace_emit, trace_write_updates, !callbacks_app, Hw1. cbn.
           rewrite !app_nil_r. reflexivity.
      * destruct (IH (S n) (ue ++ [(msg_id m, fu)]) (ne ++ [store_entry s m fl]) w1)
          as (args & Hargs & Hcb).
        exists args. split; [exact Hargs |]. rewrite Hcb, Hw1. reflexivity.
    + destruct (IH (S n) ue ne w1) as (args & Hargs & Hcb).
      exists args. split; [exact Hargs |]. rewrite Hcb, Hw1. reflexivity.
Qed.

(** C4, as stated, fails: STORE (UNCHANGEDSINCE 3) on the uids 7,9 skips
    uid 9 (modseq 5) and completes with [(null, true)]: nothing reports
    uid 9. *)
Lemma conditional_store_counterexample :
  callbacks (trace (onStore Sample.no_fault Sample.systemFlags "Drafts"
                      (Sample.store "add" ["\Flagged"] [7; 9] (Some 3))
                      Sample.s1 (start Sample.db0))) = [[JNull; JBool true]]
  /\ ~ conditional_store_reports Sample.no_fault Sample.systemFlags "Drafts"
         (Sample.store "add" ["\Flagged"] [7; 9] (Some 3)) Sample.s1 Sample.db0.
Proof.
  split; [reflexivity |].
  intro H.
  destruct (H 3 (Sample.box 1 "Drafts" 100 10 5) (Sample.msg 11 1 9 5 [] 50)
              eq_refl eq_refl (or_introl eq_refl) eq_refl eq_refl eq_refl)
    as [_ Hrep].
  vm_compute in Hrep. discriminate Hrep.
Qed.

(** C4 (amended). With [unchangedSince = m], [m] not zero, the candidates
    of a STORE are exactly the messages of the mailbox with a uid of the
    requested set and a modseq at most [m]; every other message, so every
    message with a modseq above [m], is after the command what it was
    before, and only candidates are written.  The completion of the command
    reports no uid: there is no MODIFIED. *)
Theorem conditional_store_candidates :
  forall (fault : op -> bool) (systemFlags : list string) (path : string)
         (u : update) (s : session) (d : DB) (m : Z) (mailbox : mailbox),
    unchangedSince u = Some m ->
    m <> 0 ->
    find_mailbox d (sess_user s) path = Some mailbox ->
    unique_ids d ->
    let r := onStore fault systemFlags path u s (start d) in
    let candidates := find_messages (store_query mailbox u) d in
    (forall msg,
        In msg candidates <->
        In msg (messages d) /\ msg_mailbox msg = mb_id mailbox
        /\ modseq msg <= m /\ In (uid msg) (upd_messages u))
    /\ (forall msg, In msg (messages d) -> ~ In msg candidates ->
                    In msg (messages (db r)))
    /\ (forall msg, In msg (messages d) -> m < modseq msg ->
                    In msg (messages (db r)))
    /\ (forall o, In o (bulk_written (trace r)) ->
                  exists c, In c candidates /\ fst o = msg_id c)
    /\ (forall z, reported (trace r) z = false).
Proof.
  intros fault systemFlags path u s d m mailbox Hus Hm Hfind Huniq r candidates.
  assert (Hcand : forall msg,
             In msg candidates <->
             In msg (messages d) /\ msg_mailbox msg = mb_id mailbox
             /\ modseq msg <= m /\ In (uid msg) (upd_messages u)).
  { intro msg. subst candidates. rewrite In_find_messages.
    unfold store_query, has_unchangedSince. rewrite Hus.
    destruct (Z.eqb_spec m 0) as [|_]; [contradiction |]. cbn [negb].
    rewrite !andb_true_iff, Z.eqb_eq, Z.leb_le, uid_in_In. tauto. }
  assert (Hkeep : forall msg, In msg (messages d) -> ~ In msg candidates ->
                              In msg (messages (db r))).
  { intros msg Hin Hnot. subst r. unfold onStore.
    destruct (fault _); [exact Hin |]. cbn [db start]. rewrite Hfind.
    apply store_processNext_inv
      with (I := fun w => In msg (messages (db w)))
           (Pop := fun o => fst o <> msg_id msg)
           (Pent := fun _ => True);
      try (intros; rewrite db_emit; assumption).
    - intros ops w Hops Hw. rewrite db_with_db. apply In_bulk_write; assumption.
    - intros w Hw. rewrite messages_updateMailboxFlags. exact Hw.
    - apply Forall_forall. intros c Hc. split; [| exact Logic.I].
      cbn [fst]. intro He. apply Hnot.
      assert (c = msg) as <-; [| exact Hc].
      apply (unique_ids_eq _ _ _ Huniq); [| exact Hin | exact He].
      apply In_find_messages in Hc. tauto.
    - constructor.
    - constructor.
    - exact Hin. }
  split; [exact Hcand |]. split; [exact Hkeep |].
  split.
  { intros msg Hin Hlt. apply Hkeep; [exact Hin |].
    intro Hc. apply Hcand in Hc. lia. }
  split.
  { subst r. unfold onStore.
    destruct (fault _); [intros o []|]. cbn [db start]. rewrite Hfind.
    apply store_processNext_inv
      with (I := fun w => forall o, In o (bulk_written (trace w)) ->
                                    exists c, In c candidates /\ fst o = msg_id c)
           (Pop := fun o => exists c, In c candidates /\ fst o = msg_id c)
           (Pent := fun _ => True);
      try (intros until w; intros Hw o; rewrite trace_emit, bulk_written_app;
           cbn; rewrite app_nil_r; apply Hw).
    - intros ops w Hops Hw o. rewrite trace_emit, bulk_written_app. cbn.
      rewrite app_nil_r. intro Hin. apply in_app_or in Hin.
      destruct Hin as [Hin|Hin]; [apply Hw; exact Hin |].
      rewrite Forall_forall in Hops. apply Hops. exact Hin.
    - intros ops w _ Hw. exact Hw.
    - intros es w _ Hw o. rewrite trace_emit, bulk_written_app. cbn.
      rewrite app_nil_r. apply Hw.
    - intros w Hw. rewrite trace_updateMailboxFlags. exact Hw.
    - apply Forall_forall. intros c Hc. split; [| exact Logic.I].
      exists c. split; [exact Hc | reflexivity].
    - constructor.
    - constructor.
    - intros o []. }
  intro z. subst r. unfold reported, onStore.
  destruct (fault _); [reflexivity |]. cbn [db start]. rewrite Hfind.
  destruct (store_processNext_callbacks fault systemFlags path u s mailbox
              (find_messages (store_query mailbox u) d) 0%nat [] [] (start d))
    as (args & [-> | ->] & ->); reflexivity.
Qed.

Lemma conditional_store_candidates_witness :
  In (Sample.msg 11 1 9 5 [] 50)
     (messages (db (onStore Sample.no_fault Sample.systemFlags "Drafts"
                            (Sample.store "add" ["\Flagged"] [7; 9] (Some 3))
                            Sample.s1 (start Sample.db0)))).
Proof.
  refine (proj1 (proj2 (proj2
            (@conditional_store_candidates
               Sample.no_fault Sample.systemFlags "Drafts"
               (Sample.store "add" ["\Flagged"] [7; 9] (Some 3))
               Sample.s1 Sample.db0 3 (Sample.box 1 "Drafts" 100 10 5)
               eq_refl _ eq_refl _)))
            (Sample.msg 11 1 9 5 [] 50) (or_introl eq_refl) eq_refl).
  - discriminate.
  - unfold unique_ids. cbn. repeat constructor; cbn; intuition discriminate.
Defined.

(** ** The journal entries of EXPUNGE, COPY and FETCH *)

Lemma entries_all_impl (P Q : Z -> string -> jsobj -> Prop) t :
  (forall us p e, P us p e -> Q us p e) -> entries_all P t -> entries_all Q t.
Proof.
  intros HPQ. unfold entries_all. apply Forall_impl. intros [] H; auto.
  revert H. apply Forall_impl. apply HPQ.
Qed.

Lemma trace_adjust_storage fault id delta w :
  trace (adjust_storage fault id delta w) = trace w ++ [EvStorageUsed id delta].
Proof. unfold adjust_storage. destruct (fault _); reflexivity. Qed.

Lemma trace_expunge_updateQuota fault mailbox dm ds w :
  trace (expunge_updateQuota fault mailbox dm ds w)
  = trace w ++ match dm with
               | O => []
               | S _ => [EvStorageUsed (mb_user mailbox) (- ds)]
               end.
Proof.
  destruct dm; cbn [expunge_updateQuota];
    [symmetry; apply app_nil_r | apply trace_adjust_storage].
Qed.

Lemma trace_copy_updateQuota fault mailbox cm cs w :
  trace (copy_updateQuota fault mailbox cm cs w)
  = trace w ++ match cm with
               | O => []
               | S _ => [EvStorageUsed (mb_user mailbox) cs]
               end.
Proof.
  destruct cm; cbn [copy_updateQuota];
    [symmetry; apply app_nil_r | apply trace_adjust_storage].
Qed.

Lemma trace_fetch_done fault path s args isUpdated ue ne w :
  trace (fetch_done fault path s args isUpdated ue ne w)
  = trace w
    ++ match ue with
       | [] => if isUpdated then [EvFire (sess_user s) path] else []
       | _ => [EvBulkWrite ue; EvAddEntries (sess_user s) path ne;
               EvFire (sess_user s) path]
       end
    ++ [EvCallback args].
Proof.
  unfold fetch_done. destruct ue as [|o ue'].
  - destruct isUpdated; rewrite !trace_emit, <- ?app_assoc; reflexivity.
  - rewrite !trace_emit, trace_write_updates, <- !app_assoc. reflexivity.
Qed.

(** Splits [entries_all] over a trace that was extended step by step. *)
Ltac entries_split :=
  repeat first
    [ assumption
    | rewrite trace_emit
    | rewrite trace_with_db
    | rewrite trace_write_updates
    | rewrite trace_adjust_storage
    | rewrite trace_expunge_updateQuota
    | rewrite trace_copy_updateQuota
    | rewrite trace_fetch_done
    | apply entries_all_app; split
    | apply entries_all_one; cbn beta iota ].

Lemma expunge_entry_own s path m :
  own_entry "EXPUNGE" s path (sess_user s) path (expunge_entry s m).
Proof.
  repeat split. intros l Hl. unfold delivered_to. cbn.
  rewrite Hl, String.eqb_refl. apply andb_false_r.
Qed.

Lemma fetch_entry_own s path m :
  own_entry "FETCH" s path (sess_user s) path (fetch_entry s m).
Proof.
  repeat split. intros l Hl. unfold delivered_to. cbn.
  rewrite Hl, String.eqb_refl. apply andb_false_r.
Qed.

Lemma copy_entry_shared s path c :
  shared_entry "EXISTS" s path (sess_user s) path (copy_entry c).
Proof.
  repeat split. intros l Hu Hp. unfold delivered_to. cbn.
  rewrite Hu, Hp, Z.eqb_refl, String.eqb_refl. reflexivity.
Qed.

Lemma expunge_processNext_entries fault path u s mailbox cursor :
  forall n dm ds w,
    entries_all (own_entry "EXPUNGE" s path) (trace w) ->
    entries_all (own_entry "EXPUNGE" s path)
                (trace (expunge_processNext fault path u s mailbox cursor n dm ds w)).
Proof.
  induction cursor as [|m rest IH]; intros n dm ds w Hw; cbn [expunge_processNext].
  - destruct (fault (OpCursorNext n)); [| destruct (fault OpSweepAttachments)];
      entries_split; try exact Logic.I; destruct dm; constructor; exact Logic.I || constructor.
  - destruct (fault (OpCursorNext n)).
    { entries_split; try exact Logic.I; destruct dm; repeat constructor. }
    assert (Hw1 : entries_all (own_entry "EXPUNGE" s path)
                    (trace (if silent u then w
                            else emit (EvWrite {| resp_command := "EXPUNGE";
                                                  resp_uid := uid m;
                                                  resp_data := [] |}) w))).
    { destruct (silent u); entries_split. exact Logic.I. }
    destruct (fault (OpDeleteMessage (msg_id m))).
    { entries_split; try exact Logic.I; destruct dm; repeat constructor. }
    apply IH. destruct (fault (OpUnlinkAttachments (msg_id m))); entries_split;
      (constructor; [apply expunge_entry_own | constructor]).
Qed.

Lemma copy_processNext_entries fault s target mailbox path cursor :
  mb_path target = path ->
  forall n cm cs src dst w,
    entries_all (shared_entry "EXISTS" s path) (trace w) ->
    entries_all (shared_entry "EXISTS" s path)
                (trace (copy_processNext fault s target mailbox cursor n cm cs src dst w)).
Proof.
  intro Hpath.
  induction cursor as [|m rest IH]; intros n cm cs src dst w Hw; cbn [copy_processNext].
  - destruct (fault (OpCursorNext n));
      entries_split; try exact Logic.I; destruct cm; repeat constructor.
  - destruct (fault (OpCursorNext n)).
    { entries_split; try exact Logic.I; destruct cm; repeat constructor. }
    destruct (fault (OpIncUidNext (mb_id target) n)).
    { entries_split; try exact Logic.I; destruct cm; repeat constructor. }
    destruct (find_mailbox_by_id (db w) (mb_id target)) as [item|].
    2:{ entries_split; try exact Logic.I; destruct cm; repeat constructor. }
    destruct (fault (OpInsertMessage _)).
    { entries_split; try exact Logic.I; destruct cm; repeat constructor. }
    apply IH. rewrite Hpath.
    destruct (fault (OpLinkAttachments _ _)); entries_split;
      (constructor; [apply copy_entry_shared | constructor]).
Qed.

Lemma fetch_processNext_entries fault getQueryResponse path o s cursor :
  forall n isUpdated ue ne w,
    Forall (own_entry "FETCH" s path (sess_user s) path) ne ->
    entries_all (own_entry "FETCH" s path) (trace w) ->
    entries_all (own_entry "FETCH" s path)
                (trace (fetch_processNext fault getQueryResponse path o s
                                          cursor n isUpdated ue ne w)).
Proof.
  assert (Hdone : forall args isUpdated ue ne w,
             Forall (own_entry "FETCH" s path (sess_user s) path) ne ->
             entries_all (own_entry "FETCH" s path) (trace w) ->
             entries_all (own_entry "FETCH" s path)
                         (trace (fetch_done fault path s args isUpdated ue ne w))).
  { intros args isUpdated ue ne w Hne Hw. entries_split.
    - destruct ue; [destruct isUpdated |]; repeat constructor. exact Hne.
    - exact Logic.I. }
  induction cursor as [|m rest IH]; intros n isUpdated ue ne w Hne Hw;
    cbn [fetch_processNext].
  - destruct (fault (OpCursorNext n)); apply Hdone; assumption.
  - destruct (fault (OpCursorNext n)); [apply Hdone; assumption |].
    set (mark := markAsSeen o && negb (includes (flags m) "\Seen")).
    set (message := if mark then with_flags ("\Seen" :: flags m) m else m).
    destruct (fault (OpStream (msg_id message))).
    { apply Hdone; [exact Hne |]. entries_split; exact Logic.I. }
    destruct (negb mark).
    { apply IH; [exact Hne |]. entries_split. exact Logic.I. }
    assert (Hne' : Forall (own_entry "FETCH" s path (sess_user s) path)
                          (ne ++ [fetch_entry s message])).
    { apply Forall_app. split; [exact Hne |].
      constructor; [apply fetch_entry_own | constructor]. }
    destruct (BULK_BATCH_SIZE <=? _)%nat.
    + destruct (fault (OpBulkWrite _)).
      * apply Hdone; [exact Hne' |]. entries_split; exact Logic.I.
      * apply IH; [constructor |]. entries_split; exact Logic.I.
    + apply IH; [exact Hne' |]. entries_split. exact Logic.I.
Qed.

(** The entries at work: UID COPY 7,9 appends two EXISTS entries, EXPUNGE
    one EXPUNGE entry for each message it deletes, and a FETCH that marks
    uid 9 as seen one FETCH entry. *)
Example copy_appends_exists_entries :
  added_entries (trace (onCopy Sample.no_fault "Drafts" (Sample.copy [7; 9] "Archive")
                               Sample.s1 (start Sample.db0)))
  = [[("command", JStr "EXISTS"); ("uid", JNum 40); ("message", JId 1000)];
     [("command", JStr "EXISTS"); ("uid", JNum 41); ("message", JId 1001)]].
Proof. reflexivity. Qed.

Example expunge_appends_own_entries :
  added_entries (trace (onExpunge Sample.no_fault "Drafts" Sample.expunge
                                  Sample.s1 (start Sample.db1)))
  = [[("command", JStr "EXPUNGE"); ("ignore", JStr "s1"); ("uid", JNum 7);
      ("message", JId 10)];
     [("command", JStr "EXPUNGE"); ("ignore", JStr "s1"); ("uid", JNum 9);
      ("message", JId 11)]].
Proof. reflexivity. Qed.

Example fetch_appends_own_entries :
  added_entries (trace (onFetch Sample.no_fault Sample.getQueryResponse "Drafts"
                                (Sample.fetch [7; 9]) Sample.s1 (start Sample.db0)))
  = [[("command", JStr "FETCH"); ("ignore", JStr "s1"); ("uid", JNum 9);
      ("flags", JArr [JStr "\Seen"]); ("message", JId 11)]].
Proof. reflexivity. Qed.

(** ** EXPUNGE: the quota *)

Lemma storage_of_inc id delta l :
  option_map storageUsed (find (fun x => user_id x =? id) (inc_storageUsed id delta l))
  = option_map (fun z => z + delta)
               (option_map storageUsed (find (fun x => user_id x =? id) l)).
Proof.
  induction l as [|x r IH]; [reflexivity |]. cbn [inc_storageUsed].
  destruct (user_id x =? id) eqn:E.
  - cbn [find user_id]. rewrite E. reflexivity.
  - cbn [find]. rewrite E. exact IH.
Qed.

Lemma no_other_fault fault o :
  only_attachment_faults fault ->
  match o with
  | OpSweepAttachments | OpUnlinkAttachments _ => False
  | _ => True
  end ->
  fault o = false.
Proof.
  intros Hf Ho. destruct (fault o) eqn:E; [| reflexivity].
  destruct (Hf o E) as [-> | [id ->]]; contradiction.
Qed.

Section ExpungeQuota.

Variable fault : op -> bool.
Variable path : string.
Variable u : update.
Variable s : session.
Variable mailbox : mailbox.

Hypothesis faults : only_attachment_faults fault.

Lemma expunge_processNext_quota cursor :
  forall n dm ds w,
    let r := expunge_processNext fault path u s mailbox cursor n dm ds w in
    callbacks (trace r) = callbacks (trace w) ++ [[JNull; JBool true]]
    /\ storage_adjustments (trace r)
       = storage_adjustments (trace w)
         ++ match (dm + List.length cursor)%nat with
            | O => []
            | S _ => [(mb_user mailbox, - (ds + sum_sizes cursor))]
            end
    /\ users (db r)
       = match (dm + List.length cursor)%nat with
         | O => users (db w)
         | S _ => inc_storageUsed (mb_user mailbox) (- (ds + sum_sizes cursor))
                                  (users (db w))
         end
    /\ mailboxes (db r) = mailboxes (db w)
    /\ messages (db r)
       = fold_left (fun l m => delete_one (msg_id m) l) cursor (messages (db w)).
Proof.
  induction cursor as [|m rest IH]; intros n dm ds w; cbn zeta;
    cbn [expunge_processNext];
    rewrite (no_other_fault (OpCursorNext n) faults Logic.I).
  - cbn [List.length sum_sizes fold_right fold_left]. rewrite Nat.add_0_r, Z.add_0_r.
    assert (Hq : trace (expunge_updateQuota fault mailbox dm ds w)
                 = trace w ++ match dm with
                              | O => []
                              | S _ => [EvStorageUsed (mb_user mailbox) (- ds)]
                              end) by apply trace_expunge_updateQuota.
    assert (Hd : db (expunge_updateQuota fault mailbox dm ds w)
                 = match dm with
                   | O => db w
                   | S _ => with_users (inc_storageUsed (mb_user mailbox) (- ds)
                                                        (users (db w))) (db w)
                   end).
    { destruct dm; [reflexivity |]. cbn [expunge_updateQuota].
      unfold adjust_storage.
      rewrite (no_other_fault (OpIncStorageUsed _ _) faults Logic.I).
      reflexivity. }
    destruct (fault OpSweepAttachments);
      rewrite ?trace_emit, ?trace_with_db, ?db_emit, ?db_with_db, ?trace_emit, ?db_emit,
        Hq, ?Hd;
      rewrite !callbacks_app, !storage_adjustments_app;
      destruct dm; cbn; rewrite ?app_nil_r; auto.
  - set (w1 := if silent u then w
               else emit (EvWrite {| resp_command := "EXPUNGE"; resp_uid := uid m;
                                     resp_data := [] |}) w).
    assert (Hw1 : callbacks (trace w1) = callbacks (trace w)
                  /\ storage_adjustments (trace w1) = storage_adjustments (trace w)
                  /\ db w1 = db w).
    { subst w1. destruct (silent u); [auto |].
      rewrite trace_emit, callbacks_app, storage_adjustments_app. cbn.
      rewrite !app_nil_r. auto. }
    destruct Hw1 as (Hcb & Hsa & Hdb).
    rewrite (no_other_fault (OpDeleteMessage (msg_id m)) faults Logic.I).
    match goal with
    | |- context [expunge_processNext _ _ _ _ _ rest (S n) (S dm) ?ds' ?w4] =>
        destruct (IH (S n) (S dm) ds' w4) as (H1 & H2 & H3 & H4 & H5);
        assert (Hw4 : callbacks (trace w4) = callbacks (trace w)
                      /\ storage_adjustments (trace w4) = storage_adjustments (trace w)
                      /\ users (db w4) = users (db w)
                      /\ mailboxes (db w4) = mailboxes (db w)
                      /\ messages (db w4) = delete_one (msg_id m) (messages (db w)))
    end.
    { destruct (fault (OpUnlinkAttachments (msg_id m)));
        rewrite ?trace_emit, ?trace_with_db, ?db_emit, ?db_with_db, ?trace_with_db,
          ?db_with_db, ?callbacks_app, ?storage_adjustments_app, ?Hcb, ?Hsa, ?Hdb;
        cbn; rewrite ?app_nil_r; auto. }
    destruct Hw4 as (G1 & G2 & G3 & G4 & G5).
    rewrite H1, H2, H3, H4, H5, G1, G2, G3, G4, G5.
    cbn [List.length sum_sizes fold_right fold_left].
    rewrite number_or_zero_id.
    replace (dm + S (List.length rest))%nat with (S dm + List.length rest)%nat by lia.
    cbn [Nat.add].
    replace (ds + size m + sum_sizes rest) with (ds + (size m + sum_sizes rest)) by lia.
    auto.
Qed.

End ExpungeQuota.

(** In every run of EXPUNGE, whichever storage calls fail, [storageUsed] is
    adjusted at most once: not at all when no message was deleted, and else
    by minus the summed sizes of the messages deleted before the command
    ended. *)
Lemma expunge_adjusts_storage_once fault path u s mailbox cursor :
  forall n dm ds w,
  exists k args,
    (k <= List.length cursor)%nat
    /\ storage_adjustments
         (trace (expunge_processNext fault path u s mailbox cursor n dm ds w))
       = storage_adjustments (trace w)
         ++ match (dm + k)%nat with
            | O => []
            | S _ => [(mb_user mailbox, - (ds + sum_sizes (firstn k cursor)))]
            end
    /\ messages (db (expunge_processNext fault path u s mailbox cursor n dm ds w))
       = fold_left (fun l m => delete_one (msg_id m) l) (firstn k cursor)
                   (messages (db w))
    /\ callbacks (trace (expunge_processNext fault path u s mailbox cursor n dm ds w))
       = callbacks (trace w) ++ [args]
    /\ (args = [JNull; JBool true] -> k = List.length cursor).
Proof.
  assert (Hquota : forall dm ds w,
             storage_adjustments (trace (expunge_updateQuota fault mailbox dm ds w))
             = storage_adjustments (trace w)
               ++ match dm with
                  | O => []
                  | S _ => [(mb_user mailbox, - ds)]
                  end
             /\ messages (db (expunge_updateQuota fault mailbox dm ds w))
                = messages (db w)
             /\ callbacks (trace (expunge_updateQuota fault mailbox dm ds w))
                = callbacks (trace w)).
  { intros dm ds w. rewrite trace_expunge_updateQuota, storage_adjustments_app,
      callbacks_app.
    destruct dm; cbn [expunge_updateQuota]; [rewrite !app_nil_r; auto |].
    unfold adjust_storage. destruct (fault _); cbn; rewrite app_nil_r; auto. }
  induction cursor as [|m rest IH]; intros n dm ds w; cbn [expunge_processNext].
  - exists 0%nat.
    destruct (Hquota dm ds w) as (Q1 & Q2 & Q3).
    destruct (fault (OpCursorNext n)); [| destruct (fault OpSweepAttachments)];
      eexists;
      rewrite ?trace_emit, ?trace_with_db, ?db_emit, ?db_with_db, ?trace_emit, ?db_emit,
        !storage_adjustments_app, !callbacks_app, Q1, ?Q3;
      cbn [firstn sum_sizes fold_right fold_left List.length storage_adjustments
                  callbacks flat_map app messages with_attachments];
      rewrite ?Q2, ?app_nil_r, Nat.add_0_r, Z.add_0_r;
      (split; [lia |]); repeat split.
  - destruct (fault (OpCursorNext n)).
    { exists 0%nat. destruct (Hquota dm ds w) as (Q1 & Q2 & Q3). eexists.
      rewrite trace_emit, db_emit, storage_adjustments_app, callbacks_app, Q1, Q2, Q3.
      cbn [firstn sum_sizes fold_right fold_left storage_adjustments callbacks
                  flat_map app].
      rewrite app_nil_r, Nat.add_0_r, Z.add_0_r.
      split; [lia |]. repeat split. discriminate. }
    set (w1 := if silent u then w
               else emit (EvWrite {| resp_command := "EXPUNGE"; resp_uid := uid m;
                                     resp_data := [] |}) w).
    assert (Hw1 : callbacks (trace w1) = callbacks (trace w)
                  /\ storage_adjustments (trace w1) = storage_adjustments (trace w)
                  /\ db w1 = db w).
    { subst w1. destruct (silent u); [auto |].
      rewrite trace_emit, callbacks_app, storage_adjustments_app. cbn.
      rewrite !app_nil_r. auto. }
    destruct Hw1 as (Hcb & Hsa & Hdb).
    destruct (fault (OpDeleteMessage (msg_id m))).
    { exists 0%nat. destruct (Hquota dm ds w1) as (Q1 & Q2 & Q3). eexists.
      rewrite trace_emit, db_emit, storage_adjustments_app, callbacks_app, Q1, Q2, Q3,
        Hcb, Hsa, Hdb.
      cbn [firstn sum_sizes fold_right fold_left storage_adjustments callbacks
                  flat_map app].
      rewrite app_nil_r, Nat.add_0_r, Z.add_0_r.
      split; [lia |]. repeat split. discriminate. }
    match goal with
    | |- context [expunge_processNext _ _ _ _ _ rest (S n) (S dm) ?ds' ?w4] =>
        destruct (IH (S n) (S dm) ds' w4) as (k & args & Hk & H2 & H5 & H1 & Hall);
        assert (Hw4 : callbacks (trace w4) = callbacks (trace w)
                      /\ storage_adjustments (trace w4) = storage_adjustments (trace w)
                      /\ messages (db w4) = delete_one (msg_id m) (messages (db w)))
    end.
    { destruct (fault (OpUnlinkAttachments (msg_id m)));
        rewrite ?trace_emit, ?trace_with_db, ?db_emit, ?db_with_db, ?trace_with_db,
          ?db_with_db, ?callbacks_app, ?storage_adjustments_app, ?Hcb, ?Hsa, ?Hdb;
        cbn; rewrite ?app_nil_r; auto. }
    destruct Hw4 as (G1 & G2 & G5).
    exists (S k), args. rewrite H1, H2, H5, G1, G2, G5.
    cbn [firstn sum_sizes fold_right fold_left List.length].
    rewrite number_or_zero_id.
    replace (dm + S k)%nat with (S dm + k)%nat by lia.
    replace (ds + size m + sum_sizes (firstn k rest))
      with (ds + (size m + sum_sizes (firstn k rest))) by lia.
    split; [lia |]. repeat split. intro Ha. rewrite (Hall Ha). reflexivity.
Qed.

(** ** COPY: the allocation of the uids *)

Lemma find_inc_uidNext id l item :
  find (fun m => mb_id m =? id) l = Some item ->
  exists item',
    find (fun m => mb_id m =? id) (inc_uidNext id l) = Some item'
    /\ uidNext item' = uidNext item + 1.
Proof.
  induction l as [|x r IH]; intro H; [discriminate |].
  cbn [find] in H. cbn [inc_uidNext].
  destruct (mb_id x =? id) eqn:E.
  - injection H as <-. eexists. cbn [find mb_id]. rewrite E.
    split; reflexivity.
  - cbn [find]. rewrite E. apply IH. exact H.
Qed.

Lemma uid_copies target cursor :
  forall oid un, map uid (copies target cursor oid un) = zseq un (List.length cursor).
Proof.
  induction cursor as [|m r IH]; intros oid un; [reflexivity |].
  cbn [copies map List.length zseq uid copy_of]. rewrite IH. reflexivity.
Qed.

Lemma num_array_step x (l acc : list Z) :
  num_array (rev (x :: l) ++ acc) = num_array (rev l ++ x :: acc).
Proof. cbn [rev]. rewrite <- app_assoc. reflexivity. Qed.

Section CopyReliable.

Variable fault : op -> bool.
Variable s : session.
Variable target : mailbox.
Variable mailbox : mailbox.

Hypothesis ok : reliable fault.

Lemma copy_processNext_reliable cursor :
  forall n cm cs src dst w item,
    find_mailbox_by_id (db w) (mb_id target) = Some item ->
    let r := copy_processNext fault s target mailbox cursor n cm cs src dst w in
    callbacks (trace r)
    = callbacks (trace w)
      ++ [[JNull; JBool true;
           JObj [("uidValidity", JNum (uidValidity target));
                 ("sourceUid", num_array (rev (map uid cursor) ++ src));
                 ("destinationUid",
                  num_array (rev (zseq (uidNext item) (List.length cursor)) ++ dst))]]]
    /\ messages (db r)
       = messages (db w) ++ copies target cursor (next_oid (db w)) (uidNext item)
    /\ option_map uidNext (find_mailbox_by_id (db r) (mb_id target))
       = Some (uidNext item + Z.of_nat (List.length cursor))
    /\ added_entries (trace r)
       = added_entries (trace w)
         ++ map copy_entry (copies target cursor (next_oid (db w)) (uidNext item)).
Proof.
  induction cursor as [|m rest IH]; intros n cm cs src dst w item Hitem; cbn zeta;
    cbn [copy_processNext]; rewrite ok.
  - assert (Hd : mailboxes (db (copy_updateQuota fault mailbox cm cs w)) = mailboxes (db w)
                 /\ messages (db (copy_updateQuota fault mailbox cm cs w)) = messages (db w)).
    { destruct cm; [auto |]. cbn [copy_updateQuota]. unfold adjust_storage.
      rewrite ok. auto. }
    destruct Hd as [Hmb Hms].
    rewrite !trace_emit, !db_emit, trace_copy_updateQuota, !callbacks_app,
      !added_entries_app.
    unfold find_mailbox_by_id in *. rewrite Hmb, Hms, Hitem.
    cbn [List.length zseq map rev app copies option_map Z.of_nat].
    rewrite Z.add_0_r, !app_nil_r.
    destruct cm; cbn; rewrite ?app_nil_r; auto.
  - rewrite ok, Hitem, ok, ok.
    destruct (find_inc_uidNext _ _ Hitem) as (item' & Hitem' & Hnext).
    match goal with
    | |- context [copy_processNext _ _ _ _ rest (S n) ?cm' ?cs' ?src' ?dst' ?w5] =>
        destruct (IH (S n) cm' cs' src' dst' w5 item' Hitem')
          as (H1 & H2 & H3 & H4)
    end.
    rewrite H1, H2, H3, H4.
    rewrite !trace_emit, !trace_with_db, !db_emit, !db_with_db.
    rewrite !callbacks_app, !added_entries_app. cbn [callbacks added_entries flat_map app].
    rewrite !app_nil_r, Hnext.
    cbn [messages with_messages with_attachments fresh_oid with_mailboxes next_oid
                  List.length zseq map copies].
    rewrite !num_array_step, <- !app_assoc. cbn [app].
    repeat split; try reflexivity.
    f_equal. lia.
Qed.

End CopyReliable.

(** C3, as stated, fails: UID COPY 7,9 into a mailbox with [uidNext = 40]
    answers with the source uids 9,7 and the destination uids 41,40. *)
Lemma copyuid_order_counterexample :
  callbacks (trace (onCopy Sample.no_fault "Drafts" (Sample.copy [7; 9] "Archive")
                           Sample.s1 (start Sample.db0))) =
    [[JNull; JBool true;
      JObj [("uidValidity", JNum 200);
            ("sourceUid", JArr [JNum 9; JNum 7]);
            ("destinationUid", JArr [JNum 41; JNum 40])]]]
  /\ ~ copyuid_in_order Sample.no_fault "Drafts" (Sample.copy [7; 9] "Archive")
                        Sample.s1 Sample.db0.
Proof.
  split; [reflexivity |].
  intro H.
  specialize (H (Sample.box 1 "Drafts" 100 10 5) (Sample.box 2 "Archive" 200 40 0)
                eq_refl eq_refl).
  vm_compute in H. discriminate H.
Qed.

(** C3 (amended). In a run without storage failures COPY reads the source
    messages by ascending uid and allocates one destination uid for each,
    counting up from the destination's [uidNext]; the k-th message read is
    inserted under the k-th allocated uid.  The data of the completion hold
    both lists in reverse: the source uids descending, and at every position
    the destination uid of that source message (copying the uids 7,9 into a
    mailbox with [uidNext = 40] gives 9,7 and 41,40). *)
Theorem copyuid_pairs_in_reverse :
  forall (fault : op -> bool) (path : string) (u : update) (s : session)
         (d : DB) (mailbox target : mailbox),
    reliable fault ->
    find_mailbox d (sess_user s) path = Some mailbox ->
    find_mailbox d (sess_user s) (destination u) = Some target ->
    find_mailbox_by_id d (mb_id target) = Some target ->
    let cursor := find_messages (copy_query mailbox u) d in
    let n := List.length cursor in
    let inserted := copies target cursor (next_oid d) (uidNext target) in
    let r := onCopy fault path u s (start d) in
    callbacks (trace r)
    = [[JNull; JBool true;
        JObj [("uidValidity", JNum (uidValidity target));
              ("sourceUid", num_array (rev (map uid cursor)));
              ("destinationUid", num_array (rev (zseq (uidNext target) n)))]]]
    /\ Sorted Z.le (map uid cursor)
    /\ messages (db r) = messages d ++ inserted
    /\ map uid inserted = zseq (uidNext target) n
    /\ option_map uidNext (find_mailbox_by_id (db r) (mb_id target))
       = Some (uidNext target + Z.of_nat n).
Proof.
  intros fault path u s d mailbox target Hok Hsrc Hdst Hid cursor n inserted r.
  subst r. unfold onCopy. rewrite Hok. cbn [db start]. rewrite Hsrc, Hok, Hdst.
  destruct (@copy_processNext_reliable fault s target mailbox Hok cursor
              0%nat 0%nat 0 [] [] (start d) target Hid)
    as (H1 & H2 & H3 & _).
  fold cursor. rewrite H1, H2, H3. cbn [start db trace callbacks flat_map app].
  rewrite !app_nil_r.
  split; [reflexivity |].
  split; [apply Sorted_map_uid; apply Sorted_sort_by_uid |].
  split; [reflexivity |].
  split; [apply uid_copies | reflexivity].
Qed.

Lemma copyuid_pairs_in_reverse_witness :
  callbacks (trace (onCopy Sample.no_fault "Drafts" (Sample.copy [7; 9] "Archive")
                           Sample.s1 (start Sample.db0)))
  = [[JNull; JBool true;
      JObj [("uidValidity", JNum 200);
            ("sourceUid", JArr [JNum 9; JNum 7]);
            ("destinationUid", JArr [JNum 41; JNum 40])]]].
Proof.
  exact (proj1 (@copyuid_pairs_in_reverse
                  Sample.no_fault "Drafts" (Sample.copy [7; 9] "Archive") Sample.s1
                  Sample.db0 (Sample.box 1 "Drafts" 100 10 5)
                  (Sample.box 2 "Archive" 200 40 0)
                  (fun o => eq_refl) eq_refl eq_refl eq_refl)).
Defined.

(** ** FETCH: a body stream that fails *)

Lemma existsb_app_false {A} (f : A -> bool) (a b : list A) :
  existsb f a = false -> existsb f b = false -> existsb f (a ++ b) = false.
Proof. intros Ha Hb. rewrite existsb_app, Ha, Hb. reflexivity. Qed.

Section FetchTorn.

Variable fault : op -> bool.
Variable getQueryResponse : jsval -> message -> jsval.
Variable path : string.
Variable o : fetch_options.
Variable s : session.

Lemma fetch_processNext_torn pre m post :
  stream_fails_at fault pre m ->
  forall n isUpdated ue ne w,
  exists before after,
    trace (fetch_processNext fault getQueryResponse path o s
                             (pre ++ m :: post) n isUpdated ue ne w)
    = trace w ++ before
      ++ [EvSocketWrite (String.append "INTERNAL ERROR" LF); EvSocketDestroy]
      ++ after
    /\ existsb is_output after = false
    /\ callbacks after = [[stream_error]]
    /\ existsb is_destroy before = false
    /\ existsb is_bye before = false
    /\ List.length (written before) = S (List.length pre).
Proof.
  intros (Hnext & Hbulk & Hpre & Hm).
  induction pre as [|x pre' IH]; intros n isUpdated ue ne w;
    cbn [app fetch_processNext]; rewrite Hnext.
  - set (mark := markAsSeen o && negb (includes (flags m) "\Seen")).
    assert (Hid : msg_id (if mark then with_flags ("\Seen" :: flags m) m else m)
                  = msg_id m) by (destruct mark; reflexivity).
    rewrite Hid, Hm, trace_fetch_done, !trace_emit.
    eexists [_]. eexists.
    split; [rewrite <- !app_assoc; cbn [app]; reflexivity |].
    destruct ue; [destruct isUpdated |]; repeat split; reflexivity.
  - assert (Hpre' : forall y, In y pre' -> fault (OpStream (msg_id y)) = false)
      by (intros y Hy; apply Hpre; right; exact Hy).
    specialize (IH Hpre').
    pose proof (Hpre x (or_introl eq_refl)) as Hx.
    destruct (markAsSeen o && negb (includes (flags x) "\Seen")); cbn [negb].
    + cbn [msg_id with_flags]. rewrite Hx.
      destruct (BULK_BATCH_SIZE <=? _)%nat.
      * rewrite Hbulk.
        match goal with
        | |- context [fetch_processNext _ _ _ _ _ _ (S n) ?b ?ue' ?ne' ?w'] =>
            destruct (IH (S n) b ue' ne' w')
              as (before & after & Ht & Ha & Hc & Hd & Hb & Hl)
        end.
        rewrite Ht, !trace_emit, trace_write_updates, trace_emit.
        eexists (_ :: _ :: _ :: _ :: before), after.
        split; [rewrite <- !app_assoc; cbn [app]; reflexivity |].
        cbn [existsb is_destroy is_bye resp_command written flat_map app List.length orb].
        fold (written before).
        repeat split; try assumption.
        rewrite Hl. reflexivity.
      * match goal with
        | |- context [fetch_processNext _ _ _ _ _ _ (S n) ?b ?ue' ?ne' ?w'] =>
            destruct (IH (S n) b ue' ne' w')
              as (before & after & Ht & Ha & Hc & Hd & Hb & Hl)
        end.
        rewrite Ht, trace_emit.
        eexists (_ :: before), after.
        split; [rewrite <- !app_assoc; cbn [app]; reflexivity |].
        cbn [existsb is_destroy is_bye resp_command written flat_map app List.length orb].
        fold (written before).
        repeat split; try assumption.
        rewrite Hl. reflexivity.
    + rewrite Hx.
      match goal with
      | |- context [fetch_processNext _ _ _ _ _ _ (S n) ?b ?ue' ?ne' ?w'] =>
          destruct (IH (S n) b ue' ne' w')
            as (before & after & Ht & Ha & Hc & Hd & Hb & Hl)
      end.
      rewrite Ht, trace_emit.
      eexists (_ :: before), after.
      split; [rewrite <- !app_assoc; cbn [app]; reflexivity |].
      cbn [existsb is_destroy is_bye resp_command written flat_map app List.length orb].
      fold (written before).
      repeat split; try assumption.
      rewrite Hl. reflexivity.
Qed.

End FetchTorn.

(** C7, as stated, fails: when the body stream of uid 7 fails the socket is
    destroyed, and what was written before is INTERNAL ERROR, not a BYE. *)
Lemma fetch_bye_counterexample :
  let t := trace (onFetch (Sample.torn_stream 10) Sample.getQueryResponse
                          "Drafts" (Sample.fetch [7; 9]) Sample.s1
                          (start Sample.db0)) in
  existsb is_destroy t = true
  /\ bye_then_destroy t = false
  /\ In (EvSocketWrite (String.append "INTERNAL ERROR" LF)) t.
Proof.
  split; [reflexivity |]. split; [reflexivity |].
  cbn. right. left. reflexivity.
Qed.

(** C7 (amended). When the body stream of a FETCH response fails, the
    server writes the line INTERNAL ERROR, raw, to the socket and then
    destroys the socket; no BYE is written.  The responses of the messages
    before and the response under way are all that was written; after the
    socket is destroyed nothing more goes to the client and the command
    completes once, with the error of the stream. *)
Theorem fetch_stream_error_destroys_socket :
  forall (fault : op -> bool) (getQueryResponse : jsval -> message -> jsval)
         (path : string) (o : fetch_options) (s : session) (d : DB)
         (mailbox : mailbox) (pre post : list message) (m : message),
    fault (OpFindMailbox (sess_user s) path) = false ->
    find_mailbox d (sess_user s) path = Some mailbox ->
    find_messages (fetch_query mailbox o) d = pre ++ m :: post ->
    stream_fails_at fault pre m ->
    exists before after,
      trace (onFetch fault getQueryResponse path o s (start d))
      = before
        ++ [EvSocketWrite (String.append "INTERNAL ERROR" LF); EvSocketDestroy]
        ++ after
      /\ existsb is_output after = false
      /\ callbacks after = [[stream_error]]
      /\ existsb is_destroy before = false
      /\ List.length (written before) = S (List.length pre)
      /\ bye_then_destroy
           (trace (onFetch fault getQueryResponse path o s (start d))) = false.
Proof.
  intros fault getQueryResponse path o s d mailbox pre post m Hf Hfind Hcur Hfail.
  unfold onFetch. rewrite Hf. cbn [db start]. rewrite Hfind, Hcur.
  destruct (@fetch_processNext_torn fault getQueryResponse path o s pre m post Hfail
              0%nat false [] [] (start d))
    as (before & after & Ht & Ha & Hc & Hd & Hb & Hl).
  exists before, after. rewrite Ht. cbn [start trace app].
  repeat split; try assumption.
  assert (Hbye : forall t, existsb is_bye t = false -> bye_then_destroy t = false).
  { induction t as [|e t IH]; [reflexivity |]. cbn [existsb bye_then_destroy].
    intro H. apply orb_false_iff in H. destruct H as [He Ht'].
    rewrite He, (IH Ht'). reflexivity. }
  apply Hbye. apply existsb_app_false; [exact Hb |].
  cbn [app existsb is_bye starts_with]. cbn.
  clear - Ha. induction after as [|e t IH]; [reflexivity |].
  cbn [existsb] in *. apply orb_false_iff in Ha. destruct Ha as [He Ht].
  rewrite (IH Ht). destruct e; try discriminate He; reflexivity.
Qed.

Lemma fetch_stream_error_destroys_socket_witness :
  stream_fails_at (Sample.torn_stream 11) [Sample.msg 10 1 7 2 ["\Seen"] 30]
                  (Sample.msg 11 1 9 5 [] 50)
  /\ exists before after,
      trace (onFetch (Sample.torn_stream 11) Sample.getQueryResponse "Drafts"
                     (Sample.fetch [7; 9]) Sample.s1 (start Sample.db0))
      = before
        ++ [EvSocketWrite (String.append "INTERNAL ERROR" LF); EvSocketDestroy]
        ++ after
      /\ callbacks after = [[stream_error]].
Proof.
  assert (H : stream_fails_at (Sample.torn_stream 11)
                              [Sample.msg 10 1 7 2 ["\Seen"] 30]
                              (Sample.msg 11 1 9 5 [] 50)).
  { repeat split. intros x [<- | []]. reflexivity. }
  split; [exact H |].
  destruct (@fetch_stream_error_destroys_socket
              (Sample.torn_stream 11) Sample.getQueryResponse "Drafts"
              (Sample.fetch [7; 9]) Sample.s1 Sample.db0
              (Sample.box 1 "Drafts" 100 10 5)
              [Sample.msg 10 1 7 2 ["\Seen"] 30] [] (Sample.msg 11 1 9 5 [] 50)
              eq_refl eq_refl eq_refl H)
    as (before & after & Ht & _ & Hc & _).
  exists before, after. split; [exact Ht | exact Hc].
Defined.

(** ** SEARCH: the empty uid set *)

Lemma search_processNext_callbacks fault cursor :
  forall n h l w,
  exists args,
    callbacks (trace (search_processNext fault cursor n h l w))
    = callbacks (trace w) ++ [args].
Proof.
  induction cursor as [|m rest IH]; intros n h l w; cbn [search_processNext].
  - destruct (fault _); eexists; rewrite trace_emit, callbacks_app; reflexivity.
  - destruct (fault _); [eexists; rewrite trace_emit, callbacks_app; reflexivity |].
    apply IH.
Qed.

(** ** STORE with the action set *)

Lemma strings_of_str_array l : strings_of (str_array l) = l.
Proof.
  unfold strings_of, str_array.
  induction l as [|x r IH]; [reflexivity |]. cbn [map flat_map app]. rewrite IH.
  reflexivity.
Qed.

(** The update of the action [set] writes the three booleans as the
    membership of the new flags. *)
Lemma store_set_denormalized u m x :
  action u = "set" ->
  denormalized (apply_update (store_flagsupdate u m) x).
Proof.
  intro Ha. unfold store_flagsupdate, store_flags. rewrite Ha.
  cbn [String.eqb Ascii.eqb Bool.eqb andb snd].
  unfold apply_update.
  cbn [obj_get String.eqb Ascii.eqb Bool.eqb andb fold_left set_field].
  unfold str_array. cbn iota.
  change (JArr (map JStr (value u))) with (str_array (value u)).
  rewrite strings_of_str_array. repeat split.
Qed.

(** ** SEARCH: the walk over the criteria *)

Lemma walk_term_not pd bts ne value st :
  walk_term pd bts ne (TNot value) st = walkQuery pd bts (negb ne) value st.
Proof. reflexivity. Qed.

Lemma walk_term_or pd bts ne value st :
  walk_term pd bts ne (TOr value) st
  = let '(inner, st') := walk_entries pd bts value st in
    ([JObj [("$or", JArr inner)]], st').
Proof. reflexivity. Qed.

Lemma extends_refl st : extends st st.
Proof. exists []. rewrite app_nil_r. auto. Qed.

Lemma extends_same st st' : walk_world st' = walk_world st -> extends st st'.
Proof. intro H. exists []. rewrite H, app_nil_r. auto. Qed.

Lemma extends_trans a b c : extends a b -> extends b c -> extends a c.
Proof.
  intros (e1 & H1 & D1) (e2 & H2 & D2). exists (e1 ++ e2).
  rewrite H2, H1, D2, D1, app_assoc. auto.
Qed.

Lemma walk_each_extends pd bts ne node :
  (forall t, In t node -> forall ne st, extends st (snd (walk_term pd bts ne t st))) ->
  forall st, extends st (snd (walk_each pd bts ne node st)).
Proof.
  induction node as [|t r IHr]; intros Hall st; [apply extends_refl |].
  cbn [walk_each].
  pose proof (Hall t (or_introl eq_refl) ne st) as H1.
  destruct (walk_term pd bts ne t st) as [p1 st1]. cbn [snd] in H1.
  assert (H2 : extends st1 (snd (walk_each pd bts ne r st1)))
    by (apply IHr; intros t' Ht'; apply Hall; right; exact Ht').
  destruct (walk_each pd bts ne r st1) as [p2 st2]. cbn [snd] in *.
  eapply extends_trans; eassumption.
Qed.

Lemma walk_term_extends pd bts :
  forall t ne st, extends st (snd (walk_term pd bts ne t st)).
Proof.
  fix IH 1. intros t ne st.
  destruct t as [|ts|es|v|v|v|l|v|v e|h v|op v|op v|op v|k];
    try apply extends_refl.
  - cbn [walk_term]. destruct (negb ne); apply extends_same; reflexivity.
  - rewrite walk_term_not. unfold walkQuery.
    destruct (hasAll st || nothing st); [apply extends_refl |].
    apply walk_each_extends.
    induction ts as [|t' r IHr]; intros t Ht; [destruct Ht |].
    destruct Ht as [<- | Ht]; [apply IH | apply IHr; exact Ht].
  - rewrite walk_term_or.
    assert (H : extends st (snd (walk_entries pd bts es st))).
    { revert st. induction es as [|entry r IHr]; intro st; [apply extends_refl |].
      cbn [walk_entries].
      assert (H1 : extends st (snd (walkQuery pd bts false entry st))).
      { unfold walkQuery. destruct (hasAll st || nothing st); [apply extends_refl |].
        apply walk_each_extends.
        induction entry as [|t' e IHe]; intros t Ht; [destruct Ht |].
        destruct Ht as [<- | Ht]; [apply IH | apply IHe; exact Ht]. }
      destruct (walkQuery pd bts false entry st) as [p1 st1]. cbn [snd] in H1.
      specialize (IHr st1).
      destruct (walk_entries pd bts r st1) as [p2 st2]. cbn [snd] in *.
      eapply extends_trans; eassumption. }
    destruct (walk_entries pd bts es st) as [inner st']. exact H.
  - cbn [walk_term]. destruct (truthy v && negb ne); apply extends_same; reflexivity.
  - cbn [walk_term]. destruct (truthy v && negb ne); apply extends_same; reflexivity.
  - cbn [walk_term]. destruct l; [| apply extends_refl].
    exists [EvCallback [JNull; empty_result]]. cbn [snd walk_world].
    rewrite trace_emit. auto.
Qed.

(** C8 fails on the code.  Whatever follows an empty uid set in the
    criteria, whatever the database answers and whichever storage call
    fails after the mailbox was found: the callback receives the empty
    result first and is called again afterwards, at least once. *)
Theorem search_empty_uid_set_answers_twice :
  forall (fault : op -> bool) (parse_date : string -> Z)
         (binary_to_string : string -> string)
         (run_query : jsval -> DB -> list message)
         (path : string) (rest : list term) (s : session) (d : DB)
         (mailbox : mailbox),
    fault (OpFindMailbox (sess_user s) path) = false ->
    find_mailbox d (sess_user s) path = Some mailbox ->
    exists more last,
      callbacks (trace (onSearch fault parse_date binary_to_string run_query
                                 path (TUidSet [] :: rest) s (start d)))
      = [JNull; empty_result] :: more ++ [last].
Proof.
  intros fault pd bts run_query path rest s d mailbox Hf Hfind.
  unfold onSearch. rewrite Hf. cbn [db start]. rewrite Hfind.
  unfold walkQuery. cbn [hasAll nothing orb walk_each walk_term walk_world].
  set (st1 := {| hasAll := false; nothing := false;
                 walk_world := emit (EvCallback [JNull; empty_result])
                                    (start d) |}).
  assert (Hext : extends st1 (snd (walk_each pd bts false rest st1))).
  { apply walk_each_extends. intros t _ ne st. apply walk_term_extends. }
  destruct (walk_each pd bts false rest st1) as [p2 st2]. cbn [snd] in Hext.
  destruct Hext as (evs & Ht & _).
  cbn [st1 walk_world trace emit app start] in Ht.
  destruct (nothing st2).
  - exists (callbacks evs), [JNull; empty_result].
    rewrite trace_emit, Ht, !callbacks_app. reflexivity.
  - match goal with
    | |- context [search_processNext _ ?c ?n ?h ?l ?w] =>
        destruct (search_processNext_callbacks fault c n h l w) as (args & ->)
    end.
    exists (callbacks evs), args. rewrite Ht. reflexivity.
Qed.

Lemma search_empty_uid_set_answers_twice_witness :
  (exists more last,
      callbacks (trace (onSearch Sample.no_fault Sample.parse_date
                                 Sample.binary_to_string Sample.run_query
                                 "Drafts" [TUidSet []; TModseq 1] Sample.s1
                                 (start Sample.db0)))
      = [JNull; empty_result] :: more ++ [last])
  /\ callbacks (trace (onSearch Sample.no_fault Sample.parse_date
                                Sample.binary_to_string Sample.run_query
                                "Drafts" [TUidSet []; TModseq 1] Sample.s1
                                (start Sample.db0)))
     = [[JNull; JObj [("uidList", JArr []); ("highestModseq", JNum 0)]];
        [JNull; JObj [("uidList", JArr [JNum 9; JNum 7]);
                      ("highestModseq", JNum 5)]]].
Proof.
  split; [| reflexivity].
  exact (@search_empty_uid_set_answers_twice
           Sample.no_fault Sample.parse_date Sample.binary_to_string
           Sample.run_query "Drafts" [TModseq 1] Sample.s1 Sample.db0
           (Sample.box 1 "Drafts" 100 10 5) eq_refl eq_refl).
Defined.

(** ** STORE: two system flags in one command *)

Lemma includes_In l x : includes l x = true <-> In x l.
Proof.
  unfold includes. rewrite existsb_exists. split.
  - intros (y & Hy & He). apply String.eqb_eq in He. subst. exact Hy.
  - intro H. exists x. split; [exact H | apply String.eqb_refl].
Qed.

Lemma add_to_set_keeps news : forall l x, In x l -> In x (add_to_set l news).
Proof.
  unfold add_to_set.
  induction news as [|f r IH]; intros l x Hx; [exact Hx |].
  cbn [fold_left]. apply IH. destruct (includes l f); [exact Hx |].
  apply in_or_app. left. exact Hx.
Qed.

Lemma add_to_set_adds news : forall l x, In x news -> In x (add_to_set l news).
Proof.
  unfold add_to_set.
  induction news as [|f r IH]; intros l x Hx; [contradiction |].
  cbn [fold_left]. destruct Hx as [<- | Hx]; [| apply IH; exact Hx].
  apply add_to_set_keeps. destruct (includes l f) eqn:E.
  - apply includes_In. exact E.
  - apply in_or_app. right. left. reflexivity.
Qed.

(** C2 fails on the code.  When STORE +FLAGS adds \Seen and \Deleted to a
    message in one command, the update it writes sets [deleted] only: a
    stored message whose [seen] was false then holds \Seen in its flags
    with [seen] still false. *)
Theorem store_add_two_system_flags :
  forall (u : update) (m x : message),
    action u = "add" ->
    let newFlags :=
      filter (fun flag => negb (includes (map normalize (flags m)) (normalize flag)))
             (value u) in
    In "\Seen" newFlags ->
    In "\Deleted" newFlags ->
    seen x = false ->
    obj_get "$set" (store_flagsupdate u m) = Some (JObj [("deleted", JBool true)])
    /\ seen (apply_update (store_flagsupdate u m) x) = false
    /\ In "\Seen" (flags (apply_update (store_flagsupdate u m) x))
    /\ ~ denormalized (apply_update (store_flagsupdate u m) x).
Proof.
  intros u m x Ha newFlags Hseen Hdel Hx.
  assert (Hdoc : store_flagsupdate u m
                 = [("$addToSet", JObj [("flags", JObj [("$each", str_array newFlags)])]);
                    ("$set", JObj [("deleted", JBool true)])]).
  { unfold store_flagsupdate, store_flags. rewrite Ha.
    cbn [String.eqb Ascii.eqb Bool.eqb andb snd]. fold newFlags.
    unfold set_system_flags.
    apply includes_In in Hseen. apply includes_In in Hdel.
    rewrite Hseen, Hdel. cbn [orb].
    destruct (includes newFlags "\Flagged"); reflexivity. }
  rewrite Hdoc.
  assert (Happ : apply_update
                   [("$addToSet", JObj [("flags", JObj [("$each", str_array newFlags)])]);
                    ("$set", JObj [("deleted", JBool true)])] x
                 = with_flags (add_to_set (flags x) newFlags) (with_deleted true x)).
  { unfold apply_update. cbn [obj_get String.eqb Ascii.eqb Bool.eqb andb].
    cbn [fold_left set_field String.eqb Ascii.eqb Bool.eqb andb].
    unfold add_to_set_operand. cbn [obj_get String.eqb Ascii.eqb Bool.eqb andb].
    rewrite strings_of_str_array. reflexivity. }
  rewrite Happ. cbn [seen flags with_flags with_deleted].
  assert (Hin : In "\Seen" (add_to_set (flags x) newFlags))
    by (apply add_to_set_adds; exact Hseen).
  repeat split; try assumption.
  intros (Hs & _). cbn [seen flags with_flags with_deleted] in Hs.
  apply includes_In in Hin. congruence.
Qed.

Lemma store_add_two_system_flags_witness :
  let r := onStore Sample.no_fault Sample.systemFlags "Drafts"
             (Sample.store "add" ["\Seen"; "\Deleted"] [9] None)
             Sample.s1 (start Sample.db0) in
  ~ denormalized
      (apply_update (store_flagsupdate (Sample.store "add" ["\Seen"; "\Deleted"] [9] None)
                                       (Sample.msg 11 1 9 5 [] 50))
                    (Sample.msg 11 1 9 5 [] 50))
  /\ bulk_written (trace r)
     = [(11, [("$addToSet", JObj [("flags", JObj [("$each",
                                   JArr [JStr "\Seen"; JStr "\Deleted"])])]);
              ("$set", JObj [("deleted", JBool true)])])]
  /\ messages (db r)
     = [{| msg_id := 11; msg_mailbox := 1; uid := 9; modseq := 5;
           flags := ["\Seen"; "\Deleted"]; seen := false; flagged := false;
           deleted := true; size := 50; meta_source := None; content := "" |};
        Sample.msg 10 1 7 2 ["\Seen"] 30].
Proof.
  split; [| split; reflexivity].
  exact (proj2 (proj2 (proj2
           (@store_add_two_system_flags
              (Sample.store "add" ["\Seen"; "\Deleted"] [9] None)
              (Sample.msg 11 1 9 5 [] 50) (Sample.msg 11 1 9 5 [] 50)
              eq_refl (or_introl eq_refl) (or_intror (or_introl eq_refl)) eq_refl)))).
Defined.

(** ** LIST, LSUB, SUBSCRIBE and UNSUBSCRIBE *)

Lemma paths_of_mailboxes l :
  paths_of (JArr (map (fun m => JObj (mailbox_value m)) l)) = map mb_path l.
Proof.
  unfold paths_of. induction l as [|m r IH]; [reflexivity |].
  cbn [map flat_map]. rewrite IH. reflexivity.
Qed.

Lemma update_mailbox_split u p f l m :
  find (at_path u p) l = Some m ->
  exists pre post,
    l = pre ++ m :: post
    /\ Forall (fun x => at_path u p x = false) pre
    /\ update_mailbox u p f l = pre ++ f m :: post.
Proof.
  induction l as [|x r IH]; intro H; [discriminate |].
  cbn [find] in H. cbn [update_mailbox].
  destruct (at_path u p x) eqn:E.
  - injection H as <-. exists [], r. repeat split. constructor.
  - destruct (IH H) as (pre & post & -> & Hpre & Hup).
    exists (x :: pre), post. rewrite Hup. repeat split.
    constructor; assumption.
Qed.

Lemma update_mailbox_none u p f l :
  find (at_path u p) l = None -> update_mailbox u p f l = l.
Proof.
  induction l as [|x r IH]; intro H; [reflexivity |].
  cbn [find] in H. cbn [update_mailbox].
  destruct (at_path u p x); [discriminate |]. rewrite (IH H). reflexivity.
Qed.

Lemma at_path_key u p x :
  at_path u p x = true <-> (mb_user x, mb_path x) = (u, p).
Proof.
  unfold at_path. rewrite andb_true_iff, Z.eqb_eq, String.eqb_eq.
  split; [intros [-> ->]; reflexivity | intro H; injection H; auto].
Qed.

(** With unique paths, nothing behind the first mailbox at a path is at
    that path. *)
Lemma unique_after u p pre m post :
  NoDup (map (fun x => (mb_user x, mb_path x)) (pre ++ m :: post)) ->
  at_path u p m = true ->
  Forall (fun x => at_path u p x = false) post.
Proof.
  intros Hnd Hm. rewrite map_app in Hnd. apply NoDup_remove_2 in Hnd.
  apply Forall_forall. intros x Hx.
  destruct (at_path u p x) eqn:E; [| reflexivity].
  exfalso. apply Hnd. apply in_or_app. right.
  apply at_path_key in Hm. apply at_path_key in E. rewrite Hm, <- E.
  apply (in_map (fun x => (mb_user x, mb_path x))). exact Hx.
Qed.

Lemma find_at_path_true u p l m :
  find (at_path u p) l = Some m -> at_path u p m = true.
Proof. intro H. apply find_some in H. tauto. Qed.

(** X1. SUBSCRIBE, then LSUB: the path is listed.  UNSUBSCRIBE, then LSUB: it is
    not.  LIST lists it either way. *)
Theorem subscribe_unsubscribe_lsub :
  forall (fails : call -> bool) (path : string) (s : session) (d : DB)
         (m : mailbox),
    dependable fails ->
    unique_paths d ->
    find_mailbox d (sess_user s) path = Some m ->
    let subscribed_db := db (onSubscribe fails path s (start d)) in
    let unsubscribed_db := db (onUnsubscribe fails path s (start d)) in
    In path (listed_paths (trace (onLsub fails s (start subscribed_db))))
    /\ ~ In path (listed_paths (trace (onLsub fails s (start unsubscribed_db))))
    /\ In path (listed_paths (trace (onList fails s (start subscribed_db))))
    /\ In path (listed_paths (trace (onList fails s (start unsubscribed_db)))).
Proof.
  intros fails path s d m Hok Huniq Hfind sub unsub.
  assert (Hdb : forall b,
             mailboxes (db (set_subscription fails b path s (start d)))
             = update_mailbox (sess_user s) path (with_subscribed b) (mailboxes d)).
  { intro b. unfold set_subscription. rewrite Hok. cbn [db start]. rewrite Hfind.
    reflexivity. }
  unfold find_mailbox in Hfind. fold (at_path (sess_user s) path) in Hfind.
  pose proof (@find_at_path_true _ _ _ _ Hfind) as Hm.
  destruct (@update_mailbox_split _ _ (with_subscribed true) _ _ Hfind)
    as (pre & post & Hl & Hpre & Hup).
  assert (Hpost : Forall (fun x => at_path (sess_user s) path x = false) post).
  { unfold unique_paths in Huniq. rewrite Hl in Huniq.
    eapply unique_after; eassumption. }
  assert (Hlist : forall dd, listed_paths (trace (onList fails s (start dd)))
                             = map mb_path (filter (fun x => mb_user x =? sess_user s)
                                                   (mailboxes dd))).
  { intro dd. unfold onList. rewrite Hok. unfold listed_paths. cbn.
    rewrite app_nil_r. apply paths_of_mailboxes. }
  assert (Hlsub : forall dd, listed_paths (trace (onLsub fails s (start dd)))
                             = map mb_path
                                   (filter (fun x => (mb_user x =? sess_user s)
                                                     && Bool.eqb (subscribed x) true)
                                           (mailboxes dd))).
  { intro dd. unfold onLsub. rewrite Hok. unfold listed_paths. cbn.
    rewrite app_nil_r. apply paths_of_mailboxes. }
  pose proof Hm as Hkey. apply andb_true_iff in Hkey. destruct Hkey as [Hu Hp].
  apply String.eqb_eq in Hp.
  assert (Hin : forall b, In (with_subscribed b m)
                             (update_mailbox (sess_user s) path (with_subscribed b)
                                             (mailboxes d))).
  { intro b.
    destruct (@update_mailbox_split _ _ (with_subscribed b) _ _ Hfind)
      as (pre' & post' & _ & _ & ->).
    apply in_or_app. right. left. reflexivity. }
  subst sub unsub. unfold onSubscribe, onUnsubscribe.
  rewrite !Hlsub, !Hlist, !Hdb.
  split; [| split; [| split]].
  - rewrite <- Hp at 1. apply (in_map mb_path _ (with_subscribed true m)).
    apply filter_In. split; [apply Hin |]. cbn. rewrite Hu. reflexivity.
  - intro H. apply in_map_iff in H. destruct H as (x & Hx & Hf).
    apply filter_In in Hf. destruct Hf as [Hf Hc].
    apply andb_true_iff in Hc. destruct Hc as [Hxu Hxs].
    destruct (@update_mailbox_split _ _ (with_subscribed false) _ _ Hfind)
      as (pre' & post' & Hl' & Hpre' & Hup').
    rewrite Hup' in Hf.
    assert (pre' = pre /\ post' = post) as [-> ->].
    { rewrite Hl in Hl'.
      clear - Hl' Hpre Hpre' Hm. revert pre' Hl' Hpre'.
      induction pre as [|a pre IH]; intros [|a' pre'] He Hp'; cbn in He.
      - injection He as ->. auto.
      - injection He as <- _. inversion Hp'; congruence.
      - injection He as -> _. inversion Hpre; congruence.
      - injection He as <- He. inversion Hpre; inversion Hp'; subst.
        destruct (IH ltac:(assumption) pre' He ltac:(assumption)) as [-> ->]. auto. }
    assert (Hat : at_path (sess_user s) path x = true)
      by (unfold at_path; rewrite Hxu, Hx, String.eqb_refl; reflexivity).
    apply in_app_or in Hf. destruct Hf as [Hf | [<- | Hf]].
    + rewrite Forall_forall in Hpre. rewrite (Hpre _ Hf) in Hat. discriminate.
    + discriminate Hxs.
    + rewrite Forall_forall in Hpost. rewrite (Hpost _ Hf) in Hat. discriminate.
  - rewrite <- Hp at 1. apply (in_map mb_path _ (with_subscribed true m)).
    apply filter_In. split; [apply Hin | exact Hu].
  - rewrite <- Hp at 1. apply (in_map mb_path _ (with_subscribed false m)).
    apply filter_In. split; [apply Hin | exact Hu].
Qed.

(** X2. SUBSCRIBE and UNSUBSCRIBE, whichever storage call fails, change at most
    the [subscribed] bit of mailboxes at the path: messages, users and
    attachments stay, every mailbox elsewhere stays, and the mailboxes are
    the same up to that bit.  At a path without mailbox nothing changes. *)
Theorem subscription_changes_one_bit :
  forall (fails : call -> bool) (b : bool) (path : string) (s : session) (d : DB),
    let r := (if b then onSubscribe fails path s (start d)
              else onUnsubscribe fails path s (start d)) in
    messages (db r) = messages d
    /\ users (db r) = users d
    /\ attachments (db r) = attachments d
    /\ map (with_subscribed false) (mailboxes (db r))
       = map (with_subscribed false) (mailboxes d)
    /\ (forall x, In x (mailboxes d) -> at_path (sess_user s) path x = false ->
                  In x (mailboxes (db r)))
    /\ (find_mailbox d (sess_user s) path = None -> db r = d).
Proof.
  intros fails b path s d r.
  assert (Hr : r = set_subscription fails b path s (start d))
    by (subst r; destruct b; reflexivity).
  rewrite Hr. clear Hr r. unfold set_subscription.
  destruct (fails _); [cbn; tauto |]. cbn [db start].
  destruct (find_mailbox d (sess_user s) path) as [m|] eqn:Hfind; [| cbn; tauto].
  unfold with_mailboxes, with_db, emit, start.
  cbn [db messages users attachments mailboxes].
  unfold find_mailbox in Hfind. fold (at_path (sess_user s) path) in Hfind.
  destruct (@update_mailbox_split _ _ (with_subscribed b) _ _ Hfind)
    as (pre & post & Hl & Hpre & Hup).
  rewrite Hup, Hl. repeat split.
  - rewrite !map_app. reflexivity.
  - intros x Hx Hat. apply in_app_or in Hx. apply in_or_app.
    destruct Hx as [Hx | [<- | Hx]]; [left; exact Hx | | right; right; exact Hx].
    rewrite (@find_at_path_true _ _ _ _ Hfind) in Hat. discriminate.
  - discriminate.
Qed.

(** ** CREATE and RENAME *)

Lemma find_none_key u p l :
  find (at_path u p) l = None ->
  ~ In (u, p) (map (fun x => (mb_user x, mb_path x)) l).
Proof.
  intros H Hin. apply in_map_iff in Hin. destruct Hin as (x & Hk & Hx).
  apply (find_none _ _ H) in Hx. apply at_path_key in Hk. congruence.
Qed.

Lemma NoDup_insert {A} (x : A) a b :
  NoDup (a ++ b) -> ~ In x (a ++ b) -> NoDup (a ++ x :: b).
Proof.
  induction a as [|y a IH]; cbn [app]; intros Hnd Hin.
  - constructor; assumption.
  - inversion Hnd as [|? ? Hy Hr]; subst. constructor.
    + intro H. apply in_app_or in H. destruct H as [H | [-> | H]].
      * apply Hy. apply in_or_app. left. exact H.
      * apply Hin. left. reflexivity.
      * apply Hy. apply in_or_app. right. exact H.
    + apply IH; [exact Hr |]. intro H. apply Hin. right. exact H.
Qed.

Lemma find_app_none {A} (f : A -> bool) a b :
  Forall (fun x => f x = false) a -> find f (a ++ b) = find f b.
Proof.
  induction 1 as [|x a Hx _ IH]; [reflexivity |]. cbn [app find].
  rewrite Hx. exact IH.
Qed.

Lemma find_Forall_none {A} (f : A -> bool) l :
  Forall (fun x => f x = false) l -> find f l = None.
Proof.
  induction 1 as [|x a Hx _ IH]; [reflexivity |]. cbn [find]. rewrite Hx. exact IH.
Qed.

Lemma find_none_Forall {A} (f : A -> bool) l :
  find f l = None -> Forall (fun x => f x = false) l.
Proof.
  intro H. apply Forall_forall. intros x Hx. exact (find_none _ _ H _ Hx).
Qed.

(** X3. CREATE, then look the mailbox up: it is there, with [uidNext = 1],
    [modifyIndex = 0], subscribed, without flags, and LIST and LSUB list
    its path; every mailbox found before is found as before. *)
Theorem create_then_lookup :
  forall (fails : call -> bool) (now : Z) (path : string) (s : session) (d : DB),
    dependable fails ->
    find_mailbox d (sess_user s) path = None ->
    let r := onCreate fails now path s (start d) in
    callbacks (trace r) = [[JNull; JBool true]]
    /\ find_mailbox (db r) (sess_user s) path = Some (created_mailbox now path s d)
    /\ In path (listed_paths (trace (onList fails s (start (db r)))))
    /\ In path (listed_paths (trace (onLsub fails s (start (db r)))))
    /\ (forall u p m, find_mailbox d u p = Some m ->
                      find_mailbox (db r) u p = Some m)
    /\ messages (db r) = messages d.
Proof.
  intros fails now path s d Hok Hnone r. subst r. unfold onCreate.
  rewrite Hok. cbn [db start]. rewrite Hnone, Hok.
  unfold fresh_oid, with_mailboxes, with_db, emit, start.
  cbn [db trace callbacks flat_map app mailboxes messages].
  fold (created_mailbox now path s d).
  assert (Hnew : at_path (sess_user s) path (created_mailbox now path s d) = true).
  { unfold at_path. cbn. rewrite Z.eqb_refl, String.eqb_refl. reflexivity. }
  split; [reflexivity |]. split.
  { unfold find_mailbox in *. fold (at_path (sess_user s) path) in *.
    cbn [mailboxes]. rewrite find_app_none by (apply find_none_Forall; exact Hnone).
    cbn [find]. rewrite Hnew. reflexivity. }
  split.
  { unfold onList. rewrite Hok. unfold listed_paths. cbn [start db trace emit app
      callbacks flat_map mailboxes]. rewrite app_nil_r, paths_of_mailboxes.
    apply (in_map mb_path _ (created_mailbox now path s d)).
    apply filter_In. split; [apply in_or_app; right; left; reflexivity |].
    cbn. apply Z.eqb_refl. }
  split.
  { unfold onLsub. rewrite Hok. unfold listed_paths. cbn [start db trace emit app
      callbacks flat_map mailboxes]. rewrite app_nil_r, paths_of_mailboxes.
    apply (in_map mb_path _ (created_mailbox now path s d)).
    apply filter_In. split; [apply in_or_app; right; left; reflexivity |].
    cbn. rewrite Z.eqb_refl. reflexivity. }
  split; [| reflexivity].
  intros u p m Hm. unfold find_mailbox in *. cbn [mailboxes].
  clear - Hm. induction (mailboxes d) as [|x l IH]; [discriminate |].
  cbn [app find] in *. destruct (_ && _); [exact Hm | apply IH; exact Hm].
Qed.

Lemma create_then_lookup_witness :
  find_mailbox (db (onCreate (fun _ => false) 1700000000123 "Sent" Sample.s1
                             (start Sample.db0))) 1 "Sent"
  = Some {| mb_id := 1000; mb_user := 1; mb_path := "Sent";
            uidValidity := 1700000000; uidNext := 1; modifyIndex := 0;
            subscribed := true; mb_flags := []; specialUse := None |}.
Proof.
  exact (proj1 (proj2 (@create_then_lookup (fun _ => false) 1700000000123 "Sent"
                         Sample.s1 Sample.db0 (fun c => eq_refl) eq_refl))).
Defined.

(** X4. CREATE and RENAME keep the paths of every user distinct, whichever
    storage call fails; at a path that is taken they answer ALREADYEXISTS
    and change nothing. *)
Theorem create_rename_keep_paths_unique :
  forall (fails : call -> bool) (now : Z) (path newname : string)
         (s : session) (d : DB),
    unique_paths d ->
    unique_paths (db (onCreate fails now path s (start d)))
    /\ unique_paths (db (onRename fails path newname s (start d)))
    /\ (forall m, find_mailbox d (sess_user s) path = Some m ->
                  fails (Basic (OpFindMailbox (sess_user s) path)) = false ->
                  onCreate fails now path s (start d)
                  = emit (EvCallback [JNull; JStr "ALREADYEXISTS"]) (start d))
    /\ (forall m, find_mailbox d (sess_user s) newname = Some m ->
                  fails (Basic (OpFindMailbox (sess_user s) newname)) = false ->
                  onRename fails path newname s (start d)
                  = emit (EvCallback [JNull; JStr "ALREADYEXISTS"]) (start d)).
Proof.
  intros fails now path newname s d Huniq.
  split; [| split; [| split]].
  - unfold onCreate. destruct (fails _); [exact Huniq |]. cbn [db start].
    destruct (find_mailbox d (sess_user s) path) eqn:Hfind; [exact Huniq |].
    destruct (fails _); [exact Huniq |].
    unfold unique_paths in *. unfold fresh_oid, with_mailboxes, with_db, emit, start.
    cbn [db mailboxes]. rewrite map_app. cbn [map mb_user mb_path].
    apply NoDup_insert; rewrite app_nil_r; [exact Huniq |].
    apply find_none_key. exact Hfind.
  - unfold onRename. destruct (fails _); [exact Huniq |]. cbn [db start].
    destruct (find_mailbox d (sess_user s) newname) eqn:Hnew; [exact Huniq |].
    destruct (fails _); [exact Huniq |].
    destruct (find_mailbox d (sess_user s) path) as [m|] eqn:Hfind; [| exact Huniq].
    unfold unique_paths in *. unfold with_mailboxes, with_db, emit, start.
    cbn [db mailboxes]. unfold find_mailbox in Hfind, Hnew.
    fold (at_path (sess_user s) path) in Hfind.
    fold (at_path (sess_user s) newname) in Hnew.
    destruct (@update_mailbox_split _ _ (with_path newname) _ _ Hfind)
      as (pre & post & Hl & _ & Hup).
    rewrite Hup. rewrite Hl in Huniq, Hnew.
    pose proof (@find_none_key _ _ _ Hnew) as Hkey.
    rewrite map_app in *. cbn [map mb_user mb_path with_path] in *.
    pose proof (@find_at_path_true _ _ _ _ Hfind) as Hm. apply at_path_key in Hm.
    injection Hm as Hmu _. rewrite Hmu.
    apply NoDup_insert.
    + apply NoDup_remove_1 in Huniq. exact Huniq.
    + intro H. apply Hkey. apply in_app_or in H. apply in_or_app.
      destruct H as [H | H]; [left; exact H | right; right; exact H].
  - intros m Hm Hf. unfold onCreate. rewrite Hf. cbn [db start]. rewrite Hm.
    reflexivity.
  - intros m Hm Hf. unfold onRename. rewrite Hf. cbn [db start]. rewrite Hm.
    reflexivity.
Qed.

(** X5. RENAME, then look the mailbox up: it is found under the new name with
    its id and counters, no longer under the old one; the messages stay, and
    so does every other mailbox, the descendants of the old path among
    them. *)
Theorem rename_then_lookup :
  forall (fails : call -> bool) (path newname : string) (s : session) (d : DB)
         (m : mailbox),
    dependable fails ->
    unique_paths d ->
    find_mailbox d (sess_user s) path = Some m ->
    find_mailbox d (sess_user s) newname = None ->
    let r := onRename fails path newname s (start d) in
    callbacks (trace r) = [[JNull; JBool true]]
    /\ find_mailbox (db r) (sess_user s) newname = Some (with_path newname m)
    /\ find_mailbox (db r) (sess_user s) path = None
    /\ messages (db r) = messages d
    /\ (forall x, In x (mailboxes d) -> at_path (sess_user s) path x = false ->
                  In x (mailboxes (db r))).
Proof.
  intros fails path newname s d m Hok Huniq Hfind Hnew r. subst r.
  unfold onRename. rewrite Hok. cbn [db start]. rewrite Hnew, Hok, Hfind.
  unfold with_mailboxes, with_db, emit, start.
  cbn [db trace callbacks flat_map app mailboxes messages].
  unfold find_mailbox in *.
  fold (at_path (sess_user s) path) in *. fold (at_path (sess_user s) newname) in *.
  destruct (@update_mailbox_split _ _ (with_path newname) _ _ Hfind)
    as (pre & post & Hl & Hpre & Hup).
  rewrite Hup. cbn [mailboxes].
  pose proof (@find_at_path_true _ _ _ _ Hfind) as Hm.
  assert (Hpost : Forall (fun x => at_path (sess_user s) path x = false) post).
  { unfold unique_paths in Huniq. rewrite Hl in Huniq.
    eapply unique_after; eassumption. }
  pose proof (@find_none_Forall _ _ _ Hnew) as Hall. rewrite Hl in Hall.
  apply Forall_app in Hall. destruct Hall as [Hpre_new Hrest].
  inversion Hrest as [|? ? Hm_new Hpost_new]; subst.
  pose proof Hm as Hkey. apply andb_true_iff in Hkey. destruct Hkey as [Hu Hp].
  assert (Hne : String.eqb newname path = false).
  { destruct (String.eqb_spec newname path) as [-> |]; [| reflexivity].
    congruence. }
  split; [reflexivity |]. split.
  { rewrite find_app_none by exact Hpre_new. cbn [find]. unfold at_path at 1.
    cbn [mb_user mb_path with_path]. rewrite Hu, String.eqb_refl. reflexivity. }
  split.
  { rewrite find_app_none by exact Hpre. cbn [find]. unfold at_path at 1.
    cbn [mb_user mb_path with_path]. rewrite Hu, Hne. cbn [andb].
    apply find_Forall_none. exact Hpost. }
  split; [reflexivity |].
  intros x Hx Hat. rewrite Hl in Hx. apply in_app_or in Hx. apply in_or_app.
  destruct Hx as [Hx | [<- | Hx]]; [left; exact Hx | | right; right; exact Hx].
  congruence.
Qed.

Lemma rename_then_lookup_witness :
  find_mailbox (db (onRename (fun _ => false) "Drafts" "Old" Sample.s1
                             (start Sample.db0))) 1 "Old"
  = Some (Sample.box 1 "Old" 100 10 5)
  /\ find_mailbox (db (onRename (fun _ => false) "Drafts" "Old" Sample.s1
                                (start Sample.db0))) 1 "Drafts" = None.
Proof.
  assert (Hu : unique_paths Sample.db0).
  { unfold unique_paths. cbn. repeat constructor; cbn; intuition discriminate. }
  pose proof (@rename_then_lookup (fun _ => false) "Drafts" "Old" Sample.s1
                Sample.db0 (Sample.box 1 "Drafts" 100 10 5)
                (fun c => eq_refl) Hu eq_refl eq_refl) as (_ & H1 & H2 & _).
  split; [exact H1 | exact H2].
Defined.

Lemma subscribe_unsubscribe_lsub_witness :
  In "Drafts"
     (listed_paths
        (trace (onLsub (fun _ => false) Sample.s1
                       (start (db (onSubscribe (fun _ => false) "Drafts" Sample.s1
                                               (start Sample.db0)))))))
  /\ ~ In "Drafts"
       (listed_paths
          (trace (onLsub (fun _ => false) Sample.s1
                         (start (db (onUnsubscribe (fun _ => false) "Drafts"
                                                   Sample.s1 (start Sample.db0))))))).
Proof.
  assert (Hu : unique_paths Sample.db0).
  { unfold unique_paths. cbn. repeat constructor; cbn; intuition discriminate. }
  pose proof (@subscribe_unsubscribe_lsub (fun _ => false) "Drafts" Sample.s1
                Sample.db0 (Sample.box 1 "Drafts" 100 10 5)
                (fun c => eq_refl) Hu eq_refl) as (H1 & H2 & _).
  split; [exact H1 | exact H2].
Defined.

Lemma create_rename_keep_paths_unique_witness :
  unique_paths Sample.db0
  /\ unique_paths (db (onCreate (fun _ => false) 0 "Sent" Sample.s1 (start Sample.db0)))
  /\ unique_paths (db (onRename (fun _ => false) "Drafts" "Old" Sample.s1
                                (start Sample.db0))).
Proof.
  assert (Hu : unique_paths Sample.db0).
  { unfold unique_paths. cbn. repeat constructor; cbn; intuition discriminate. }
  pose proof (@create_rename_keep_paths_unique (fun _ => false) 0 "Sent" "Old"
                Sample.s1 Sample.db0 Hu) as (H1 & _).
  pose proof (@create_rename_keep_paths_unique (fun _ => false) 0 "Drafts" "Old"
                Sample.s1 Sample.db0 Hu) as (_ & H2 & _).
  split; [exact Hu |]. split; [exact H1 | exact H2].
Defined.

(** ** DELETE *)

Lemma In_delete_mailbox id l x :
  NoDup (map mb_id l) ->
  (In x (delete_mailbox id l) <-> In x l /\ mb_id x <> id).
Proof.
  induction l as [|y r IH]; intro Hnd; [cbn; tauto |].
  cbn [map] in Hnd. inversion Hnd as [|? ? Hy Hr]; subst.
  cbn [delete_mailbox]. destruct (Z.eqb_spec (mb_id y) id) as [He | Hne].
  - cbn [In]. split.
    + intro Hx. split; [right; exact Hx |]. intro Hid. apply Hy.
      rewrite He, <- Hid. apply in_map. exact Hx.
    + intros [[-> | Hx] Hid]; [contradiction | exact Hx].
  - cbn [In]. rewrite (IH Hr). split.
    + intros [-> | [Hx Hid]]; [split; [left; reflexivity | exact Hne] |].
      split; [right; exact Hx | exact Hid].
    + intros [[-> | Hx] Hid]; [left; reflexivity | right; split; assumption].
Qed.

Lemma unique_mailbox_by_id l a b :
  NoDup (map mb_id l) -> In a l -> In b l -> mb_id a = mb_id b -> a = b.
Proof.
  induction l as [|x r IH]; intros Hnd Ha Hb Hid; [contradiction |].
  cbn [map] in Hnd. inversion Hnd as [|? ? Hx Hr]; subst.
  destruct Ha as [-> | Ha], Hb as [-> | Hb]; auto.
  - exfalso. apply Hx. rewrite Hid. apply in_map. exact Hb.
  - exfalso. apply Hx. rewrite <- Hid. apply in_map. exact Ha.
Qed.

(** X6. DELETE never removes a mailbox with a special use, nor a message of
    one, whichever path it is given and whichever storage calls fail, as long
    as the mailbox ids are unique; asked to delete such a mailbox it answers
    CANNOT and changes nothing, the journal included. *)
Theorem delete_spares_special_use :
  forall (fails : call -> bool) (path : string) (s : session) (d : DB)
         (j : journal) (x : mailbox),
    unique_mailbox_ids d ->
    In x (mailboxes d) ->
    has_specialUse x = true ->
    let r := onDelete fails path s (start d) j in
    In x (mailboxes (db (fst r)))
    /\ (forall msg, In msg (messages d) -> msg_mailbox msg = mb_id x ->
                    In msg (messages (db (fst r))))
    /\ (find_mailbox d (sess_user s) path = Some x ->
        fails (Basic (OpFindMailbox (sess_user s) path)) = false ->
        r = (emit (EvCallback [JNull; JStr "CANNOT"]) (start d), j)).
Proof.
  intros fails path s d j x Hids Hx Hsp. cbn zeta.
  split; [| split].
  3:{ intros Hfind Hf. unfold onDelete. rewrite Hf. cbn [db start].
      rewrite Hfind, Hsp. reflexivity. }
  all: unfold onDelete; destruct (fails _); [cbn; auto |];
    change (db (start d)) with d;
    destruct (find_mailbox d (sess_user s) path) as [m|] eqn:Hfind; [| cbn; auto];
    destruct (has_specialUse m) eqn:Hm; [cbn; auto |];
    destruct (fails (CallDeleteMailbox _)); [cbn; auto |].
  all: assert (Hne : mb_id x <> mb_id m)
    by (intro He; unfold find_mailbox in Hfind; apply find_some in Hfind;
        destruct Hfind as [Hin _];
        pose proof (@unique_mailbox_by_id _ _ _ Hids Hx Hin He) as E;
        rewrite E in Hsp; congruence).
  - assert (Hkept : In x (delete_mailbox (mb_id m) (mailboxes d)))
      by (apply In_delete_mailbox; [exact Hids | split; assumption]).
    destruct (fails (CallAggregateSize _)); [exact Hkept |].
    destruct (fails (CallDeleteMessages _)); [exact Hkept |].
    destruct (_ =? 0); unfold delete_done, adjust_storage;
      repeat match goal with |- context [if ?c then _ else _] => destruct c end;
      exact Hkept.
  - intros msg Hmsg Hbox.
    assert (Hkept : In msg (filter (fun m0 => negb (msg_mailbox m0 =? mb_id m))
                                   (messages d))).
    { apply filter_In. split; [exact Hmsg |]. apply negb_true_iff.
      apply Z.eqb_neq. congruence. }
    destruct (fails (CallAggregateSize _)); [exact Hmsg |].
    destruct (fails (CallDeleteMessages _)); [exact Hmsg |].
    destruct (_ =? 0); unfold delete_done, adjust_storage;
      repeat match goal with |- context [if ?c then _ else _] => destruct c end;
      exact Hkept.
Qed.

(** X7. DELETE of a mailbox without special use, when no storage call fails:
    the mailbox is gone and every other mailbox stays; no message of the
    mailbox is left and every other message stays; no journal entry of the
    mailbox is left; [storageUsed] of the owner goes down by the summed
    sizes of the deleted messages, in one adjustment, or stays untouched when
    that sum is zero.  The attachments are not touched. *)
Theorem delete_removes_mailbox_and_messages :
  forall (fails : call -> bool) (path : string) (s : session) (d : DB)
         (j : journal) (m : mailbox),
    dependable fails ->
    unique_mailbox_ids d ->
    find_mailbox d (sess_user s) path = Some m ->
    has_specialUse m = false ->
    let r := fst (onDelete fails path s (start d) j) in
    let j' := snd (onDelete fails path s (start d) j) in
    let freed := aggregate_size (mb_id m) (messages d) in
    callbacks (trace r) = [[JNull; JBool true]]
    /\ (forall x, In x (mailboxes (db r)) <-> In x (mailboxes d) /\ mb_id x <> mb_id m)
    /\ (forall x, In x (messages (db r)) <->
                  In x (messages d) /\ msg_mailbox x <> mb_id m)
    /\ (forall e, In e j' <-> In e j /\ fst e <> mb_id m)
    /\ storage_adjustments (trace r)
       = (if freed =? 0 then [] else [(mb_user m, - freed)])
    /\ storage_of (db r) (mb_user m)
       = option_map (fun z => z - freed) (storage_of d (mb_user m))
    /\ attachments (db r) = attachments d.
Proof.
  intros fails path s d j m Hok Hids Hfind Hsp r j' freed.
  assert (Hmem : forall x, In x (filter (fun x => negb (msg_mailbox x =? mb_id m))
                                        (messages d))
                           <-> In x (messages d) /\ msg_mailbox x <> mb_id m).
  { intro x. rewrite filter_In, negb_true_iff, Z.eqb_neq. tauto. }
  assert (Hj : forall e, In e (filter (fun e => negb (fst e =? mb_id m)) j)
                         <-> In e j /\ fst e <> mb_id m).
  { intro e. rewrite filter_In, negb_true_iff, Z.eqb_neq. tauto. }
  subst r j'. unfold onDelete. rewrite Hok.
  change (db (start d)) with d. rewrite Hfind, Hsp, !Hok. cbn zeta.
  set (w1 := with_db (fun d0 => with_mailboxes _ d0) (start d)).
  change (messages (db w1)) with (messages d). fold freed.
  set (w2 := with_db (fun d0 => with_messages _ d0) w1).
  assert (Hw2 : trace w2 = []
                /\ mailboxes (db w2) = delete_mailbox (mb_id m) (mailboxes d)
                /\ messages (db w2)
                   = filter (fun x => negb (msg_mailbox x =? mb_id m)) (messages d)
                /\ users (db w2) = users d
                /\ attachments (db w2) = attachments d)
    by (repeat split).
  destruct Hw2 as (Ht & Hmb & Hms & Hus & Hat).
  unfold delete_done. rewrite Hok. cbn [fst snd].
  destruct (Z.eqb_spec freed 0) as [Hz | Hnz]; cbn [fst snd].
  - rewrite trace_emit, db_emit, callbacks_app, storage_adjustments_app, Ht.
    unfold storage_of. rewrite Hmb, Hms, Hus, Hat.
    cbn [callbacks storage_adjustments flat_map app].
    split; [reflexivity |].
    split; [intro x; apply In_delete_mailbox; exact Hids |].
    split; [exact Hmem |]. split; [exact Hj |]. split; [reflexivity |].
    split; [| reflexivity].
    unfold freed in *. destruct (find _ _); cbn [option_map]; [f_equal; lia | reflexivity].
  - rewrite trace_emit, db_emit, callbacks_app, storage_adjustments_app.
    rewrite number_or_zero_id, trace_adjust_storage, callbacks_app,
      storage_adjustments_app, Ht.
    unfold adjust_storage. rewrite Hok. rewrite db_with_db, db_emit.
    unfold storage_of. cbn [with_users mailboxes messages users attachments].
    rewrite Hmb, Hms, Hus, Hat.
    cbn [callbacks storage_adjustments flat_map app].
    split; [reflexivity |].
    split; [intro x; apply In_delete_mailbox; exact Hids |].
    split; [exact Hmem |]. split; [exact Hj |]. split; [reflexivity |].
    split; [| reflexivity].
    rewrite storage_of_inc. destruct (find _ _); cbn [option_map]; [f_equal; lia | reflexivity].
Qed.

Lemma delete_removes_mailbox_and_messages_witness :
  find_mailbox (db (fst (onDelete (fun _ => false) "Drafts" Sample.s1
                                  (start Sample.db0) [(1, []); (2, [])])))
               1 "Drafts" = None
  /\ storage_of (db (fst (onDelete (fun _ => false) "Drafts" Sample.s1
                                   (start Sample.db0) [(1, []); (2, [])]))) 1
     = Some 0.
Proof.
  assert (Hu : unique_mailbox_ids Sample.db0).
  { unfold unique_mailbox_ids. cbn. repeat constructor; cbn; intuition discriminate. }
  pose proof (@delete_removes_mailbox_and_messages
                (fun _ => false) "Drafts" Sample.s1 Sample.db0 [(1, []); (2, [])]
                (Sample.box 1 "Drafts" 100 10 5) (fun c => eq_refl) Hu eq_refl eq_refl)
    as (_ & _ & _ & _ & _ & H & _).
  split; [reflexivity | exact H].
Defined.

Lemma delete_spares_special_use_witness :
  let trash := {| mb_id := 3; mb_user := 1; mb_path := "Trash"; uidValidity := 1;
                  uidNext := 1; modifyIndex := 0; subscribed := true;
                  mb_flags := []; specialUse := Some "\Trash" |} in
  let d := with_mailboxes (trash :: mailboxes Sample.db0) Sample.db0 in
  In trash (mailboxes (db (fst (onDelete (fun _ => false) "Drafts" Sample.s1
                                         (start d) []))))
  /\ onDelete (fun _ => false) "Trash" Sample.s1 (start d) []
     = (emit (EvCallback [JNull; JStr "CANNOT"]) (start d), []).
Proof.
  intros trash d.
  assert (Hids : unique_mailbox_ids d).
  { unfold unique_mailbox_ids. cbn. repeat constructor; cbn; intuition discriminate. }
  assert (Hin : In trash (mailboxes d)) by (left; reflexivity).
  split.
  - exact (proj1 (@delete_spares_special_use (fun _ => false) "Drafts" Sample.s1 d []
                    trash Hids Hin eq_refl)).
  - exact (proj2 (proj2 (@delete_spares_special_use (fun _ => false) "Trash"
                           Sample.s1 d [] trash Hids Hin eq_refl))
                 eq_refl eq_refl).
Defined.

(** ** SELECT and STATUS *)

Lemma length_insert_by_uid m l :
  List.length (insert_by_uid m l) = S (List.length l).
Proof.
  induction l as [|x r IH]; [reflexivity |]. cbn [insert_by_uid].
  destruct (uid m <=? uid x); cbn [List.length]; [| rewrite IH]; reflexivity.
Qed.

Lemma length_sort_by_uid l : List.length (sort_by_uid l) = List.length l.
Proof.
  induction l as [|x r IH]; [reflexivity |].
  cbn [sort_by_uid fold_right]. fold (sort_by_uid r).
  rewrite length_insert_by_uid, IH. reflexivity.
Qed.

Lemma filter_length_le {A} (f g : A -> bool) l :
  (List.length (filter (fun x => f x && g x) l) <= List.length (filter f l))%nat.
Proof.
  induction l as [|x r IH]; [apply le_n |]. cbn [filter].
  destruct (f x), (g x); cbn [andb List.length]; lia.
Qed.

(** X8. SELECT answers with the uids of the mailbox's messages, each of them and
    no other, in ascending order; STATUS on the same mailbox reports as
    [messages] the length of that list and an [unseen] count that is not
    above it. *)
Theorem open_and_status_agree :
  forall (fails : call -> bool) (path : string) (s : session) (d : DB)
         (m : mailbox),
    dependable fails ->
    find_mailbox d (sess_user s) path = Some m ->
    exists (uidList : list Z) (unseen : nat),
      callbacks (trace (onOpen fails path s (start d)))
      = [[JNull; JObj (mailbox_value m ++ [("uidList", num_array uidList)])]]
      /\ callbacks (trace (onStatus fails path s (start d)))
         = [[JNull; JObj [("messages", JNum (Z.of_nat (List.length uidList)));
                          ("uidNext", JNum (uidNext m));
                          ("uidValidity", JNum (uidValidity m));
                          ("unseen", JNum (Z.of_nat unseen))]]]
      /\ Sorted Z.le uidList
      /\ (forall u, In u uidList <->
                    exists x, In x (messages d) /\ msg_mailbox x = mb_id m
                              /\ uid x = u)
      /\ (unseen <= List.length uidList)%nat.
Proof.
  intros fails path s d m Hok Hfind.
  exists (map uid (find_messages (fun x => msg_mailbox x =? mb_id m) d)).
  exists (List.length (filter (fun x => (msg_mailbox x =? mb_id m)
                                        && Bool.eqb (seen x) false) (messages d))).
  unfold onOpen, onStatus. rewrite !Hok.
  change (db (start d)) with d. rewrite Hfind, !Hok.
  rewrite !trace_emit. cbn [start trace app callbacks flat_map].
  split; [reflexivity |]. split.
  { rewrite length_map. unfold find_messages. rewrite length_sort_by_uid.
    reflexivity. }
  split; [apply Sorted_map_uid; apply Sorted_sort_by_uid |].
  split.
  { intro u. rewrite in_map_iff. split.
    - intros (x & Hu & Hx). apply In_find_messages in Hx. destruct Hx as [Hx Hq].
      apply Z.eqb_eq in Hq. exists x. auto.
    - intros (x & Hx & Hq & Hu). exists x. split; [exact Hu |].
      apply In_find_messages. split; [exact Hx | apply Z.eqb_eq; exact Hq]. }
  rewrite length_map. unfold find_messages. rewrite length_sort_by_uid.
  apply filter_length_le.
Qed.

Lemma open_and_status_agree_witness :
  callbacks (trace (onOpen (fun _ => false) "Drafts" Sample.s1 (start Sample.db0)))
  = [[JNull; JObj (mailbox_value (Sample.box 1 "Drafts" 100 10 5)
                   ++ [("uidList", JArr [JNum 7; JNum 9])])]]
  /\ exists (uidList : list Z) (unseen : nat),
      callbacks (trace (onStatus (fun _ => false) "Drafts" Sample.s1
                                 (start Sample.db0)))
      = [[JNull; JObj [("messages", JNum (Z.of_nat (List.length uidList)));
                       ("uidNext", JNum 10); ("uidValidity", JNum 100);
                       ("unseen", JNum (Z.of_nat unseen))]]]
      /\ (unseen <= List.length uidList)%nat.
Proof.
  split; [reflexivity |].
  destruct (@open_and_status_agree (fun _ => false) "Drafts" Sample.s1 Sample.db0
              (Sample.box 1 "Drafts" 100 10 5) (fun c => eq_refl) eq_refl)
    as (uidList & unseen & _ & H & _ & _ & Hle).
  exists uidList, unseen. split; [exact H | exact Hle].
Defined.

(** ** APPEND *)

(** X9. APPEND is refused with OVERQUOTA exactly when the user has a quota and
    the stored size plus the size of the message is above it; a message that
    fills the quota to the last octet is accepted.  A refused message never
    reaches the message handler: nothing happens but the answer. *)
Theorem append_quota_gate :
  forall (fails : call -> bool) (now : Z)
         (add : append_request -> world -> world * handler_result)
         (path : string) (flags_ : list string) (date : jsval) (raw : string)
         (s : session) (d : DB) (user : user),
    fails (CallFindUserById (sess_user s)) = false ->
    find_user_by_id d (sess_user s) = Some user ->
    let r := onAppend fails now add path flags_ date raw s (start d) in
    let total := storageUsed user + Z.of_nat (String.length raw) in
    (quota user <> 0 /\ quota user < total ->
     r = emit (EvCallback [JBool false; JStr "OVERQUOTA"]) (start d))
    /\ (quota user = 0 \/ total <= quota user ->
        exists request,
          req_user request = sess_user s /\ req_path request = path
          /\ req_raw request = raw /\ req_flags request = flags_
          /\ trace r
             = trace (fst (add request (start d)))
               ++ [EvCallback match snd (add request (start d)) with
                              | HandlerError err => relay_error err
                              | HandlerDone status data => [JNull; status; data]
                              end]
          /\ db r = db (fst (add request (start d)))).
Proof.
  intros fails now add path flags_ date raw s d user Hf Hu r total. subst r.
  unfold onAppend. rewrite Hf. change (db (start d)) with d. rewrite Hu.
  fold total. split.
  - intros [Hq Hlt].
    destruct (Z.eqb_spec (quota user) 0); [contradiction |].
    destruct (Z.ltb_spec (quota user) total); [reflexivity | lia].
  - intro Hfit.
    assert (Hgate : negb (quota user =? 0) && (quota user <? total) = false).
    { destruct (Z.eqb_spec (quota user) 0); [reflexivity |].
      destruct (Z.ltb_spec (quota user) total); [lia | reflexivity]. }
    rewrite Hgate.
    exists {| req_user := sess_user s; req_path := path;
              req_meta_to := sess_username s; req_meta_time := now;
              req_date := date; req_flags := flags_; req_raw := raw |}.
    cbn [req_user req_path req_raw req_flags].
    do 4 (split; [reflexivity |]).
    destruct (add _ (start d)) as [w1 [err | status data]]; cbn [fst snd];
      split; reflexivity.
Qed.

Lemma append_quota_gate_witness :
  let limited := with_users [{| user_id := 1; username := "alice"; password := "h";
                                quota := 100; storageUsed := 80 |}] Sample.db0 in
  let add := fun (_ : append_request) (w : world) =>
               (w, HandlerDone (JBool true) JNull) in
  onAppend (fun _ => false) 0 add "Drafts" [] JNull "twenty-one characters"
           Sample.s1 (start limited)
  = emit (EvCallback [JBool false; JStr "OVERQUOTA"]) (start limited).
Proof.
  intros limited add.
  refine (proj1 (@append_quota_gate (fun _ => false) 0 add "Drafts" [] JNull
                   "twenty-one characters" Sample.s1 limited
                   {| user_id := 1; username := "alice"; password := "h";
                      quota := 100; storageUsed := 80 |} eq_refl eq_refl) _).
  split; [discriminate | reflexivity].
Defined.

(** ** GETQUOTA *)

(** X10. GETQUOTA after an EXPUNGE (in which at most the maintenance of the
    attachments failed) reports the stored size less the sizes of the
    expunged messages, and zero when that would be negative. *)
Theorem quota_after_expunge :
  forall (fault : op -> bool) (fails : call -> bool) (maxStorage : Z)
         (path : string) (u : update) (s : session) (d : DB)
         (mailbox : mailbox) (user : user),
    only_attachment_faults fault ->
    fails (CallFindUserById (sess_user s)) = false ->
    find_mailbox d (sess_user s) path = Some mailbox ->
    find_user_by_id d (sess_user s) = Some user ->
    let gone := find_messages (expunge_query mailbox) d in
    let after := db (onExpunge fault path u s (start d)) in
    callbacks (trace (onGetQuota fails maxStorage "" s (start after)))
    = [[JNull;
        JObj [("root", JStr "");
              ("quota", JNum (first_nonzero (quota user) maxStorage));
              ("storageUsed",
               JNum (Z.max (storageUsed user - sum_sizes gone) 0))]]].
Proof.
  intros fault fails maxStorage path u s d mailbox user Hf Hfu Hfind Hu gone after.
  assert (Hown : mb_user mailbox = sess_user s).
  { unfold find_mailbox in Hfind. apply find_some in Hfind.
    destruct Hfind as [_ H]. apply andb_true_iff in H. destruct H as [H _].
    apply Z.eqb_eq in H. exact H. }
  assert (Husers : users after
                   = match gone with
                     | [] => users d
                     | _ => inc_storageUsed (sess_user s) (- sum_sizes gone) (users d)
                     end).
  { subst after. unfold onExpunge.
    rewrite (no_other_fault (OpFindMailbox _ _) Hf Logic.I).
    change (db (start d)) with d. rewrite Hfind. fold gone.
    destruct (@expunge_processNext_quota fault path u s mailbox Hf gone
                0%nat 0%nat 0 (start d)) as (_ & _ & H & _).
    rewrite H, Hown. destruct gone; reflexivity. }
  assert (Hfound : exists user',
             find_user_by_id after (sess_user s) = Some user'
             /\ quota user' = quota user
             /\ storageUsed user' = storageUsed user - sum_sizes gone).
  { unfold find_user_by_id in *. rewrite Husers. destruct gone as [|g gone'].
    - exists user. cbn [sum_sizes fold_right]. repeat split; [exact Hu | lia].
    - generalize (sum_sizes (g :: gone')) as total. intro total.
      clear - Hu. induction (users d) as [|x l IH]; [discriminate |].
      cbn [find] in Hu. cbn [inc_storageUsed].
      destruct (user_id x =? sess_user s) eqn:E.
      + injection Hu as <-. eexists. cbn [find user_id]. rewrite E.
        split; [reflexivity |]. cbn. split; [reflexivity | lia].
      + cbn [find]. rewrite E. apply IH. exact Hu. }
  destruct Hfound as (user' & Hfind' & Hq & Hs).
  unfold onGetQuota, quota_lookup. cbn [String.eqb negb]. rewrite Hfu.
  change (db (start after)) with after. rewrite Hfind'.
  unfold quota_answer. rewrite Hq, Hs. reflexivity.
Qed.

Lemma quota_after_expunge_witness :
  callbacks (trace (onGetQuota (fun _ => false) 1000 "" Sample.s1
                               (start (db (onExpunge Sample.failing_sweep "Drafts"
                                                     Sample.expunge Sample.s1
                                                     (start Sample.db1))))))
  = [[JNull; JObj [("root", JStr ""); ("quota", JNum 1000);
                   ("storageUsed", JNum 0)]]].
Proof.
  assert (Hf : only_attachment_faults Sample.failing_sweep).
  { intros o H. destruct o; try discriminate H. left. reflexivity. }
  exact (@quota_after_expunge Sample.failing_sweep (fun _ => false) 1000 "Drafts"
           Sample.expunge Sample.s1 Sample.db1 (Sample.box 1 "Drafts" 100 10 5)
           Sample.alice Hf eq_refl eq_refl eq_refl).
Defined.

(** ** Start-up *)

Lemma serve_started events : done_calls (serve true events) = [].
Proof.
  induction events as [|[err |] r IH]; cbn [serve negb]; [reflexivity | |];
    cbn [done_calls flat_map app]; exact IH.
Qed.

(** X11. At start-up every index of the manifest is created, in order, before the
    server is told to listen; whatever the server then does, the completion
    of the start-up is called once, on the first event, with the error if
    that event is one; later errors are logged, and a server that starts to
    listen after an error is closed. *)
Theorem boot_completes_once :
  forall (setupIndexes : list index_spec) (first : server_event)
         (later : list server_event),
    exists effects,
      boot setupIndexes (first :: later)
      = map (fun i => CreateIndexes (index_collection i) (index_indexes i))
            setupIndexes
        ++ [LogIndexes (List.length setupIndexes); Listen] ++ effects
      /\ done_calls (boot setupIndexes (first :: later))
         = [match first with
            | ServerError err => [err]
            | ServerListening => [JNull; JStr "server"]
            end]
      /\ (forall err, first = ServerError err -> In ServerListening later ->
                      In Close effects).
Proof.
  intros setupIndexes first later. exists (serve false (first :: later)).
  assert (Hidx : forall l n,
             ensureIndexes l n
             = map (fun i => CreateIndexes (index_collection i) (index_indexes i)) l
               ++ [LogIndexes n]).
  { induction l as [|i l IH]; intro n; [reflexivity |].
    cbn [ensureIndexes map app]. rewrite IH. reflexivity. }
  assert (Hnone : forall l n, done_calls (ensureIndexes l n) = []).
  { induction l as [|i l IH]; intro n; [reflexivity |]. cbn. apply IH. }
  split; [unfold boot; rewrite Hidx, <- app_assoc; reflexivity |].
  split.
  - unfold boot, done_calls. rewrite flat_map_app.
    fold (done_calls (ensureIndexes setupIndexes (List.length setupIndexes))).
    rewrite Hnone. cbn [app flat_map].
    destruct first; cbn [serve negb flat_map app];
      fold (done_calls (serve true later)); rewrite serve_started; reflexivity.
  - intros err -> Hin. cbn [serve negb]. right.
    induction later as [|e r IH]; [contradiction |].
    destruct Hin as [-> | Hin]; [left; reflexivity |].
    destruct e; cbn [serve negb]; right; apply IH; exact Hin.
Qed.

(** ** Every command is answered once *)

Ltac callbacks_split :=
  repeat first
    [ rewrite trace_emit
    | rewrite trace_with_db
    | rewrite trace_write_updates
    | rewrite trace_adjust_storage
    | rewrite trace_expunge_updateQuota
    | rewrite trace_copy_updateQuota
    | rewrite trace_fetch_done
    | rewrite callbacks_app ].

Lemma callbacks_quota_event (dm : nat) (id delta : Z) :
  callbacks match dm with
            | O => []
            | S _ => [EvStorageUsed id delta]
            end = [].
Proof. destruct dm; reflexivity. Qed.

Lemma expunge_processNext_callbacks fault path u s mailbox cursor :
  forall n dm ds w,
  exists args,
    callbacks (trace (expunge_processNext fault path u s mailbox cursor n dm ds w))
    = callbacks (trace w) ++ [args].
Proof.
  induction cursor as [|m rest IH]; intros n dm ds w; cbn [expunge_processNext].
  - destruct (fault (OpCursorNext n)); [| destruct (fault OpSweepAttachments)];
      eexists; callbacks_split; rewrite callbacks_quota_event, app_nil_r;
      cbn [callbacks flat_map app]; rewrite ?app_nil_r; reflexivity.
  - destruct (fault (OpCursorNext n)).
    { eexists. callbacks_split. rewrite callbacks_quota_event, app_nil_r.
      reflexivity. }
    assert (Hw1 : callbacks (trace (if silent u then w
                                    else emit (EvWrite {| resp_command := "EXPUNGE";
                                                          resp_uid := uid m;
                                                          resp_data := [] |}) w))
                  = callbacks (trace w)).
    { destruct (silent u); [reflexivity |]. callbacks_split. apply app_nil_r. }
    destruct (fault (OpDeleteMessage (msg_id m))).
    { eexists. callbacks_split. rewrite callbacks_quota_event, app_nil_r, Hw1.
      reflexivity. }
    match goal with
    | |- context [expunge_processNext _ _ _ _ _ rest (S n) ?a ?b ?w4] =>
        destruct (IH (S n) a b w4) as [args H]
    end.
    exists args. rewrite H. f_equal.
    destruct (fault (OpUnlinkAttachments (msg_id m))); callbacks_split;
      rewrite Hw1; cbn [callbacks flat_map app]; rewrite ?app_nil_r; reflexivity.
Qed.

Lemma copy_processNext_callbacks fault s target mailbox cursor :
  forall n cm cs src dst w,
  exists args,
    callbacks (trace (copy_processNext fault s target mailbox cursor n cm cs
                                       src dst w))
    = callbacks (trace w) ++ [args].
Proof.
  induction cursor as [|m rest IH]; intros n cm cs src dst w;
    cbn [copy_processNext].
  - destruct (fault (OpCursorNext n)); eexists; callbacks_split;
      rewrite callbacks_quota_event, app_nil_r;
      cbn [callbacks flat_map app]; rewrite ?app_nil_r; reflexivity.
  - destruct (fault (OpCursorNext n)).
    { eexists. callbacks_split. rewrite callbacks_quota_event, app_nil_r.
      reflexivity. }
    destruct (fault (OpIncUidNext _ _)).
    { eexists. callbacks_split. rewrite callbacks_quota_event, app_nil_r.
      reflexivity. }
    destruct (find_mailbox_by_id _ _) as [item|].
    2:{ eexists. callbacks_split. rewrite callbacks_quota_event, app_nil_r.
        reflexivity. }
    destruct (fault (OpInsertMessage _)).
    { eexists. callbacks_split. rewrite callbacks_quota_event, app_nil_r.
      reflexivity. }
    match goal with
    | |- context [copy_processNext _ _ _ _ rest (S n) ?a ?b ?c ?e ?w5] =>
        destruct (IH (S n) a b c e w5) as [args H]
    end.
    exists args. rewrite H. f_equal.
    destruct (fault (OpLinkAttachments _ _)); callbacks_split;
      cbn [callbacks flat_map app]; rewrite ?app_nil_r; reflexivity.
Qed.

Lemma callbacks_fetch_done fault path s args isUpdated ue ne w :
  callbacks (trace (fetch_done fault path s args isUpdated ue ne w))
  = callbacks (trace w) ++ [args].
Proof.
  callbacks_split. destruct ue; [destruct isUpdated |]; reflexivity.
Qed.

Lemma fetch_processNext_callbacks fault getQueryResponse path o s cursor :
  forall n isUpdated ue ne w,
  exists args,
    callbacks (trace (fetch_processNext fault getQueryResponse path o s cursor n
                                        isUpdated ue ne w))
    = callbacks (trace w) ++ [args].
Proof.
  induction cursor as [|m rest IH]; intros n isUpdated ue ne w;
    cbn [fetch_processNext].
  - destruct (fault (OpCursorNext n)); eexists; apply callbacks_fetch_done.
  - destruct (fault (OpCursorNext n)); [eexists; apply callbacks_fetch_done |].
    cbn zeta.
    destruct (fault (OpStream _)).
    { eexists. rewrite callbacks_fetch_done. callbacks_split.
      cbn [callbacks flat_map app]. rewrite !app_nil_r. reflexivity. }
    destruct (negb (markAsSeen o && negb (includes (flags m) "\Seen"))).
    { match goal with
      | |- context [fetch_processNext _ _ _ _ _ rest (S n) ?a ?b ?c ?w1] =>
          destruct (IH (S n) a b c w1) as [args H]
      end.
      exists args. rewrite H. callbacks_split. cbn [callbacks flat_map app].
      rewrite app_nil_r. reflexivity. }
    destruct (BULK_BATCH_SIZE <=? _)%nat.
    + destruct (fault (OpBulkWrite _)).
      { eexists. rewrite callbacks_fetch_done. callbacks_split.
        cbn [callbacks flat_map app]. rewrite !app_nil_r. reflexivity. }
      match goal with
      | |- context [fetch_processNext _ _ _ _ _ rest (S n) ?a ?b ?c ?w1] =>
          destruct (IH (S n) a b c w1) as [args H]
      end.
      exists args. rewrite H. callbacks_split. cbn [callbacks flat_map app].
      rewrite !app_nil_r. reflexivity.
    + match goal with
      | |- context [fetch_processNext _ _ _ _ _ rest (S n) ?a ?b ?c ?w1] =>
          destruct (IH (S n) a b c w1) as [args H]
      end.
      exists args. rewrite H. callbacks_split. cbn [callbacks flat_map app].
      rewrite app_nil_r. reflexivity.
Qed.

(** X12. AUTH, STORE, EXPUNGE, COPY and FETCH call their callback once, whichever
    storage calls fail and whatever the mailbox holds: no command is left
    without an answer and none is answered twice. *)
Theorem commands_answer_once :
  forall (fault : op -> bool) (loginLimiter : string -> Z)
         (compareSync : string -> string -> bool) (systemFlags : list string)
         (getQueryResponse : jsval -> message -> jsval)
         (lg : login) (path : string) (u : update) (o : fetch_options)
         (s : session) (d : DB),
    List.length (callbacks (trace (onAuth fault loginLimiter compareSync lg s
                                          (start d)))) = 1%nat
    /\ List.length (callbacks (trace (onStore fault systemFlags path u s
                                              (start d)))) = 1%nat
    /\ List.length (callbacks (trace (onExpunge fault path u s (start d)))) = 1%nat
    /\ List.length (callbacks (trace (onCopy fault path u s (start d)))) = 1%nat
    /\ List.length (callbacks (trace (onFetch fault getQueryResponse path o s
                                              (start d)))) = 1%nat.
Proof.
  intros. split; [| split; [| split; [| split]]].
  - unfold onAuth.
    repeat match goal with
           | |- context [if ?c then _ else _] => destruct c
           | |- context [match find_user ?a ?b with _ => _ end] =>
               destruct (find_user a b)
           end; reflexivity.
  - unfold onStore. destruct (fault _); [reflexivity |].
    destruct (find_mailbox _ _ _) as [mailbox|]; [| reflexivity].
    destruct (@store_processNext_callbacks fault systemFlags path u s mailbox
                (find_messages (store_query mailbox u) (db (start d))) 0%nat [] []
                (start d)) as (args & _ & H).
    rewrite H. reflexivity.
  - unfold onExpunge. destruct (fault _); [reflexivity |].
    destruct (find_mailbox _ _ _) as [mailbox|]; [| reflexivity].
    destruct (@expunge_processNext_callbacks fault path u s mailbox
                (find_messages (expunge_query mailbox) (db (start d))) 0%nat 0%nat 0
                (start d)) as (args & H).
    rewrite H. reflexivity.
  - unfold onCopy. destruct (fault _); [reflexivity |].
    destruct (find_mailbox _ _ path) as [mailbox|]; [| reflexivity].
    destruct (fault _); [reflexivity |].
    destruct (find_mailbox _ _ _) as [target|]; [| reflexivity].
    destruct (@copy_processNext_callbacks fault s target mailbox
                (find_messages (copy_query mailbox u) (db (start d))) 0%nat 0%nat 0
                [] [] (start d)) as (args & H).
    rewrite H. reflexivity.
  - unfold onFetch. destruct (fault _); [reflexivity |].
    destruct (find_mailbox _ _ _) as [mailbox|]; [| reflexivity].
    destruct (@fetch_processNext_callbacks fault getQueryResponse path o s
                (find_messages (fetch_query mailbox o) (db (start d))) 0%nat false
                [] [] (start d)) as (args & H).
    rewrite H. reflexivity.
Qed.

(** X13. LIST, LSUB, SUBSCRIBE, UNSUBSCRIBE, CREATE, RENAME, DELETE, SELECT,
    STATUS, GETQUOTAROOT and GETQUOTA call their callback once, whichever
    storage call fails; MOVE adds one call to what the message handler
    did. *)
Theorem mailbox_commands_answer_once :
  forall (fails : call -> bool) (now maxStorage : Z)
         (move : Z -> string -> string -> session -> list Z -> world
                 -> world * handler_result)
         (path newname quotaRoot : string) (u : update) (s : session) (d : DB)
         (j : journal),
    let once := fun w => List.length (callbacks (trace w)) = 1%nat in
    once (onList fails s (start d))
    /\ once (onLsub fails s (start d))
    /\ once (onSubscribe fails path s (start d))
    /\ once (onUnsubscribe fails path s (start d))
    /\ once (onCreate fails now path s (start d))
    /\ once (onRename fails path newname s (start d))
    /\ once (fst (onDelete fails path s (start d) j))
    /\ once (onOpen fails path s (start d))
    /\ once (onStatus fails path s (start d))
    /\ once (onGetQuotaRoot fails maxStorage path s (start d))
    /\ once (onGetQuota fails maxStorage quotaRoot s (start d))
    /\ List.length (callbacks (trace (onMove move path u s (start d))))
       = S (List.length
              (callbacks (trace (fst (move (sess_user s) path (destination u) s
                                           (upd_messages u) (start d)))))).
Proof.
  intros. subst once. cbn beta.
  assert (Hq : List.length (callbacks (trace (quota_lookup fails maxStorage s
                                                            (start d)))) = 1%nat).
  { unfold quota_lookup. destruct (fails _); [reflexivity |].
    destruct (find_user_by_id _ _); reflexivity. }
  repeat split.
  - unfold onList. destruct (fails _); reflexivity.
  - unfold onLsub. destruct (fails _); reflexivity.
  - unfold onSubscribe, set_subscription. destruct (fails _); [reflexivity |].
    destruct (find_mailbox _ _ _); reflexivity.
  - unfold onUnsubscribe, set_subscription. destruct (fails _); [reflexivity |].
    destruct (find_mailbox _ _ _); reflexivity.
  - unfold onCreate. destruct (fails _); [reflexivity |].
    destruct (find_mailbox _ _ _); [reflexivity |]. destruct (fails _); reflexivity.
  - unfold onRename. destruct (fails _); [reflexivity |].
    destruct (find_mailbox _ _ newname); [reflexivity |].
    destruct (fails _); [reflexivity |]. destruct (find_mailbox _ _ _); reflexivity.
  - unfold onDelete. destruct (fails _); [reflexivity |].
    destruct (find_mailbox _ _ _) as [m|]; [| reflexivity].
    destruct (has_specialUse m); [reflexivity |].
    destruct (fails (CallDeleteMailbox _)); [reflexivity |].
    destruct (fails (CallAggregateSize _)); [reflexivity |].
    destruct (fails (CallDeleteMessages _)); [reflexivity |].
    destruct (_ =? 0); unfold delete_done; destruct (fails _); cbn [fst];
      callbacks_split; reflexivity.
  - unfold onOpen. destruct (fails _); [reflexivity |].
    destruct (find_mailbox _ _ _); [| reflexivity]. destruct (fails _); reflexivity.
  - unfold onStatus. destruct (fails _); [reflexivity |].
    destruct (find_mailbox _ _ _); [| reflexivity].
    destruct (fails _); [reflexivity |]. destruct (fails _); reflexivity.
  - unfold onGetQuotaRoot. destruct (fails _); [reflexivity |].
    destruct (find_mailbox _ _ _); [exact Hq | reflexivity].
  - unfold onGetQuota. destruct (negb _); [reflexivity | exact Hq].
  - unfold onMove.
    destruct (move _ _ _ _ _ _) as [w1 [err | status data]]; cbn [fst];
      callbacks_split; rewrite length_app; cbn [List.length callbacks flat_map app];
      lia.
Qed.

(** ** STORE and FETCH: the batches *)

Lemma bulk_batches_app (a b : list event) :
  bulk_batches (a ++ b) = bulk_batches a ++ bulk_batches b.
Proof. apply flat_map_app. Qed.

Ltac batches_split :=
  repeat first
    [ rewrite trace_emit
    | rewrite trace_write_updates
    | rewrite trace_store_done
    | rewrite trace_fetch_done
    | rewrite bulk_batches_app
    | apply Forall_app; split ].

Lemma store_processNext_batches fault systemFlags path u s mailbox cursor :
  forall n ue ne w,
    (List.length ue < BULK_BATCH_SIZE)%nat ->
    Forall batch_ok (bulk_batches (trace w)) ->
    Forall batch_ok
           (bulk_batches (trace (store_processNext fault systemFlags path u s
                                                   mailbox cursor n ue ne w))).
Proof.
  assert (Hdone : forall args ue ne w,
             (List.length ue < BULK_BATCH_SIZE)%nat ->
             Forall batch_ok (bulk_batches (trace w)) ->
             Forall batch_ok
                    (bulk_batches (trace (store_done fault systemFlags path u s
                                                     mailbox args ue ne w)))).
  { intros args ue ne w Hlen Hw. batches_split; try exact Hw;
      try solve [repeat constructor].
    destruct ue as [|x r]; [constructor |].
    cbn [bulk_batches flat_map app].
    constructor; [| constructor].
    unfold batch_ok, BULK_BATCH_SIZE in *. cbn [List.length] in *. lia. }
  induction cursor as [|m rest IH]; intros n ue ne w Hlen Hw;
    cbn [store_processNext].
  - destruct (fault (OpCursorNext n)); apply Hdone; assumption.
  - destruct (fault (OpCursorNext n)); [apply Hdone; assumption |].
    destruct (store_flags u m) as [[fl upd] fu].
    assert (Hw1 : Forall batch_ok
                    (bulk_batches (trace (if silent u then w
                                          else emit (EvWrite (store_response u m fl)) w)))).
    { destruct (silent u); [exact Hw |].
      batches_split; try exact Hw; cbn [bulk_batches flat_map app]; constructor. }
    destruct upd; [| apply IH; assumption].
    assert (Hlen' : List.length (ue ++ [(msg_id m, fu)]) = S (List.length ue))
      by (rewrite length_app; cbn; lia).
    destruct (Nat.leb_spec BULK_BATCH_SIZE (List.length (ue ++ [(msg_id m, fu)])))
      as [Hfull | Hroom].
    + assert (Hb : batch_ok (ue ++ [(msg_id m, fu)])) by (unfold batch_ok; lia).
      destruct (fault (OpBulkWrite _)).
      * apply Hdone; [unfold BULK_BATCH_SIZE; cbn; lia |].
        batches_split; try exact Hw1; cbn [bulk_batches flat_map app]; try (constructor; [exact Hb |]); constructor.
      * apply IH; [unfold BULK_BATCH_SIZE; cbn; lia |].
        batches_split; try exact Hw1; cbn [bulk_batches flat_map app]; try (constructor; [exact Hb |]); constructor.
    + apply IH; [lia | exact Hw1].
Qed.

Lemma fetch_processNext_batches fault getQueryResponse path o s cursor :
  forall n isUpdated ue ne w,
    (List.length ue < BULK_BATCH_SIZE)%nat ->
    Forall batch_ok (bulk_batches (trace w)) ->
    Forall batch_ok
           (bulk_batches (trace (fetch_processNext fault getQueryResponse path o s
                                                   cursor n isUpdated ue ne w))).
Proof.
  assert (Hdone : forall args isUpdated ue ne w,
             (List.length ue < BULK_BATCH_SIZE)%nat ->
             Forall batch_ok (bulk_batches (trace w)) ->
             Forall batch_ok
                    (bulk_batches (trace (fetch_done fault path s args isUpdated
                                                     ue ne w)))).
  { intros args isUpdated ue ne w Hlen Hw.
    batches_split; try exact Hw; try solve [repeat constructor].
    destruct ue as [|x r]; [destruct isUpdated; constructor |].
    cbn [bulk_batches flat_map app].
    constructor; [| constructor].
    unfold batch_ok, BULK_BATCH_SIZE in *. cbn [List.length] in *. lia. }
  induction cursor as [|m rest IH]; intros n isUpdated ue ne w Hlen Hw;
    cbn [fetch_processNext].
  - destruct (fault (OpCursorNext n)); apply Hdone; assumption.
  - destruct (fault (OpCursorNext n)); [apply Hdone; assumption |]. cbn zeta.
    match goal with
    | |- context [emit (EvWrite ?r) w] =>
        assert (Hw1 : Forall batch_ok (bulk_batches (trace (emit (EvWrite r) w))))
          by (batches_split; try exact Hw; cbn [bulk_batches flat_map app]; constructor)
    end.
    destruct (fault (OpStream _)).
    { apply Hdone; [exact Hlen |].
      batches_split; try exact Hw; cbn [bulk_batches flat_map app]; constructor. }
    destruct (negb (markAsSeen o && negb (includes (flags m) "\Seen")));
      [apply IH; assumption |].
    match goal with
    | |- context [(BULK_BATCH_SIZE <=? List.length ?l)%nat] =>
        assert (Hlen' : List.length l = S (List.length ue))
          by (rewrite length_app; cbn; lia);
        destruct (Nat.leb_spec BULK_BATCH_SIZE (List.length l)) as [Hfull | Hroom];
        [assert (Hb : batch_ok l) by (unfold batch_ok; lia) |]
    end.
    + destruct (fault (OpBulkWrite _)).
      * apply Hdone; [unfold BULK_BATCH_SIZE; cbn; lia |].
        batches_split; try exact Hw; cbn [bulk_batches flat_map app]; try (constructor; [exact Hb |]); constructor.
      * apply IH; [unfold BULK_BATCH_SIZE; cbn; lia |].
        batches_split; try exact Hw; cbn [bulk_batches flat_map app]; try (constructor; [exact Hb |]); constructor.
    + apply IH; [lia | exact Hw1].
Qed.

(** X14. STORE and FETCH never hand more than [BULK_BATCH_SIZE] operations, and
    never none, to one [bulkWrite], however many messages they change and
    whichever storage calls fail. *)
Theorem bulk_writes_are_bounded :
  forall (fault : op -> bool) (systemFlags : list string)
         (getQueryResponse : jsval -> message -> jsval)
         (path : string) (u : update) (o : fetch_options) (s : session) (d : DB),
    Forall batch_ok
           (bulk_batches (trace (onStore fault systemFlags path u s (start d))))
    /\ Forall batch_ok
              (bulk_batches (trace (onFetch fault getQueryResponse path o s
                                            (start d)))).
Proof.
  intros. split.
  - unfold onStore. destruct (fault _); [repeat constructor |].
    destruct (find_mailbox _ _ _); [| repeat constructor].
    apply store_processNext_batches; [unfold BULK_BATCH_SIZE; cbn; lia | constructor].
  - unfold onFetch. destruct (fault _); [repeat constructor |].
    destruct (find_mailbox _ _ _); [| repeat constructor].
    apply fetch_processNext_batches; [unfold BULK_BATCH_SIZE; cbn; lia | constructor].
Qed.

(** ** STORE and FETCH: what they leave alone *)

Lemma frame_set_field m kv :
  fst kv <> "modseq" -> message_frame (set_field m kv) = message_frame m.
Proof.
  destruct kv as [k v]. cbn [fst]. intro Hk. unfold set_field.
  destruct v; try reflexivity.
  - repeat match goal with |- context [if ?c then _ else _] => destruct c end;
      reflexivity.
  - destruct (String.eqb_spec k "modseq"); [contradiction | reflexivity].
  - destruct (String.eqb k "flags"); reflexivity.
Qed.

Lemma frame_fold_set_field fs :
  obj_get "modseq" fs = None ->
  forall m, message_frame (fold_left set_field fs m) = message_frame m.
Proof.
  induction fs as [|[k v] r IH]; intros Hget m; [reflexivity |].
  cbn [obj_get] in Hget. cbn [fold_left].
  destruct (String.eqb_spec "modseq" k) as [|Hk]; [discriminate |].
  rewrite (IH Hget). apply frame_set_field. cbn [fst]. congruence.
Qed.

Lemma frame_apply_update u m :
  (forall fs, obj_get "$set" u = Some (JObj fs) -> obj_get "modseq" fs = None) ->
  message_frame (apply_update u m) = message_frame m.
Proof.
  intro Hset. unfold apply_update.
  assert (H1 : message_frame match obj_get "$set" u with
                             | Some (JObj fs) => fold_left set_field fs m
                             | _ => m
                             end = message_frame m).
  { destruct (obj_get "$set" u) as [[| | | | | |fs]|]; try reflexivity.
    apply frame_fold_set_field. apply Hset. reflexivity. }
  set (m1 := match obj_get "$set" u with
             | Some (JObj fs) => fold_left set_field fs m
             | _ => m
             end) in *.
  assert (H2 : message_frame
                 match obj_get "$addToSet" u with
                 | Some (JObj o) =>
                     match obj_get "flags" o with
                     | Some v => with_flags (add_to_set (flags m1)
                                                        (add_to_set_operand v)) m1
                     | None => m1
                     end
                 | _ => m1
                 end = message_frame m).
  { destruct (obj_get "$addToSet" u) as [[| | | | | |o]|]; try exact H1.
    destruct (obj_get "flags" o); exact H1. }
  set (m2 := match obj_get "$addToSet" u with
             | Some (JObj o) => _
             | _ => m1
             end) in *.
  destruct (obj_get "$pull" u) as [[| | | | | |o]|]; try exact H2.
  destruct (obj_get "flags" o); exact H2.
Qed.

Lemma frame_update_one id u l :
  (forall m, message_frame (apply_update u m) = message_frame m) ->
  map message_frame (update_one id u l) = map message_frame l.
Proof.
  intro H. induction l as [|m r IH]; [reflexivity |]. cbn [update_one].
  destruct (msg_id m =? id); cbn [map]; [rewrite H | rewrite IH]; reflexivity.
Qed.

Lemma frame_bulk_write ops d :
  Forall (fun o => forall m, message_frame (apply_update (snd o) m)
                             = message_frame m) ops ->
  map message_frame (messages (bulk_write ops d)) = map message_frame (messages d).
Proof.
  unfold bulk_write. cbn [messages with_messages].
  generalize (messages d) as l.
  induction ops as [|o r IH]; intros l H; [reflexivity |].
  inversion H as [|? ? Ho Hr]; subst. cbn [fold_left].
  rewrite (IH _ Hr). apply frame_update_one. exact Ho.
Qed.

Lemma frame_add_mailbox_flags id news l :
  map mailbox_frame (add_mailbox_flags id news l) = map mailbox_frame l.
Proof.
  induction l as [|m r IH]; [reflexivity |]. cbn [add_mailbox_flags].
  destruct (mb_id m =? id); cbn [map]; [| rewrite IH]; reflexivity.
Qed.

(** X15. STORE writes nothing but flags, whichever storage calls fail: every
    message keeps its id, mailbox, uid, modseq, size and content, and the
    messages their number and order; every mailbox keeps all but its flags;
    users and attachments stay, and [storageUsed] is not adjusted. *)
Theorem store_writes_flags_only :
  forall (fault : op -> bool) (systemFlags : list string) (path : string)
         (u : update) (s : session) (d : DB),
    let r := onStore fault systemFlags path u s (start d) in
    map message_frame (messages (db r)) = map message_frame (messages d)
    /\ map mailbox_frame (mailboxes (db r)) = map mailbox_frame (mailboxes d)
    /\ users (db r) = users d
    /\ attachments (db r) = attachments d
    /\ storage_adjustments (trace r) = [].
Proof.
  intros fault systemFlags path u s d. cbn zeta. unfold onStore.
  destruct (fault _); [repeat split |].
  destruct (find_mailbox _ _ _) as [mailbox|]; [| repeat split].
  apply store_processNext_inv
    with (I := fun w =>
                 map message_frame (messages (db w)) = map message_frame (messages d)
                 /\ map mailbox_frame (mailboxes (db w))
                    = map mailbox_frame (mailboxes d)
                 /\ users (db w) = users d
                 /\ attachments (db w) = attachments d
                 /\ storage_adjustments (trace w) = [])
         (Pop := fun o => forall m, message_frame (apply_update (snd o) m)
                                    = message_frame m)
         (Pent := fun _ => True);
    try (intros; rewrite db_emit, trace_emit, storage_adjustments_app;
         cbn [storage_adjustments flat_map app]; rewrite app_nil_r; assumption).
  - intros ops w Hops (Hm & Hb & Hu & Ha & Ht). rewrite db_with_db, trace_with_db.
    rewrite frame_bulk_write by exact Hops. repeat split; assumption.
  - intros w (Hm & Hb & Hu & Ha & Ht).
    rewrite trace_updateMailboxFlags, messages_updateMailboxFlags.
    split; [exact Hm |]. unfold updateMailboxFlags.
    destruct (String.eqb (action u) "remove"); [repeat split; assumption |].
    destruct (learn_flags _ _); [repeat split; assumption |].
    destruct (fault _); [repeat split; assumption |].
    rewrite db_with_db. cbn [mailboxes users attachments with_mailboxes].
    rewrite frame_add_mailbox_flags. repeat split; assumption.
  - apply Forall_forall. intros m _. split; [| exact Logic.I].
    intro x. cbn [snd]. apply frame_apply_update. apply store_flagsupdate_set.
  - constructor.
  - constructor.
  - repeat split.
Qed.

(** ** FETCH: invariants of the loop *)

Section FetchInvariant.

Variable fault : op -> bool.
Variable getQueryResponse : jsval -> message -> jsval.
Variable path : string.
Variable o : fetch_options.
Variable s : session.

Variable I : world -> Prop.
Variable Pop : Z * jsobj -> Prop.

Hypothesis I_write : forall r w, I w -> I (emit (EvWrite r) w).
Hypothesis I_socket : forall l w, I w -> I (emit (EvSocketWrite l) w).
Hypothesis I_destroy : forall w, I w -> I (emit EvSocketDestroy w).
Hypothesis I_callback : forall a w, I w -> I (emit (EvCallback a) w).
Hypothesis I_fire : forall us p w, I w -> I (emit (EvFire us p) w).
Hypothesis I_entries : forall us p es w, I w -> I (emit (EvAddEntries us p es) w).
Hypothesis I_bulk_event :
  forall ops w, Forall Pop ops -> I w -> I (emit (EvBulkWrite ops) w).
Hypothesis I_bulk :
  forall ops w, Forall Pop ops -> I w -> I (with_db (bulk_write ops) w).

Lemma fetch_write_updates_inv ops w :
  Forall Pop ops -> I w -> I (write_updates fault ops w).
Proof.
  intros Hops Hw. unfold write_updates.
  destruct (fault (OpBulkWrite ops)); auto.
Qed.

Lemma fetch_done_inv args isUpdated ue ne w :
  Forall Pop ue -> I w -> I (fetch_done fault path s args isUpdated ue ne w).
Proof.
  intros Hue Hw. unfold fetch_done. destruct ue as [|x ue'].
  - destruct isUpdated; auto.
  - apply I_callback, I_fire, I_entries, fetch_write_updates_inv; assumption.
Qed.

Lemma fetch_processNext_inv cursor :
  Forall (fun m => markAsSeen o = true -> includes (flags m) "\Seen" = false ->
                   Pop (msg_id m, seen_update)) cursor ->
  forall n isUpdated ue ne w,
    Forall Pop ue -> I w ->
    I (fetch_processNext fault getQueryResponse path o s cursor n isUpdated ue ne w).
Proof.
  induction 1 as [|m rest Hm _ IH]; intros n isUpdated ue ne w Hue Hw;
    cbn [fetch_processNext].
  - destruct (fault (OpCursorNext n)); apply fetch_done_inv; auto.
  - destruct (fault (OpCursorNext n)); [apply fetch_done_inv; auto |]. cbn zeta.
    destruct (fault (OpStream _)).
    { apply fetch_done_inv; auto. }
    destruct (markAsSeen o) eqn:Hmark; cbn [andb negb].
    2:{ apply IH; auto. }
    destruct (includes (flags m) "\Seen") eqn:Hseen; cbn [negb].
    { apply IH; auto. }
    cbn [msg_id with_flags].
    assert (Hop : Pop (msg_id m, seen_update)) by (apply Hm; reflexivity).
    assert (Hue' : Forall Pop (ue ++ [(msg_id m, seen_update)]))
      by (apply Forall_app; split; [assumption | constructor; [assumption | constructor]]).
    destruct (BULK_BATCH_SIZE <=? _)%nat; [| apply IH; auto].
    destruct (fault (OpBulkWrite _)) eqn:Hf.
    + apply fetch_done_inv; auto.
    + apply IH; auto. apply I_fire, I_entries, fetch_write_updates_inv; auto.
Qed.

End FetchInvariant.

Lemma marked_seen_again m : marked_seen (marked_seen m) = marked_seen m.
Proof.
  unfold marked_seen, add_to_set. cbn [fold_left flags with_flags with_seen].
  destruct (includes (flags m) "\Seen") eqn:E.
  - rewrite E. reflexivity.
  - assert (H : includes (flags m ++ ["\Seen"]) "\Seen" = true).
    { apply includes_In. apply in_or_app. right. left. reflexivity. }
    rewrite H. reflexivity.
Qed.

Lemma apply_seen_update m : apply_update seen_update m = marked_seen m.
Proof. reflexivity. Qed.

Lemma seen_update_one id l0 l :
  Forall2 unchanged_or_seen l0 l ->
  Forall2 unchanged_or_seen l0 (update_one id seen_update l).
Proof.
  induction 1 as [|a b l0 l Hab Hl IH]; [constructor |]. cbn [update_one].
  destruct (msg_id b =? id); constructor; auto.
  rewrite apply_seen_update. right.
  destruct Hab as [-> | ->]; [reflexivity | apply marked_seen_again].
Qed.

Lemma seen_bulk_write ops l0 d :
  Forall (fun op => snd op = seen_update) ops ->
  Forall2 unchanged_or_seen l0 (messages d) ->
  Forall2 unchanged_or_seen l0 (messages (bulk_write ops d)).
Proof.
  unfold bulk_write. cbn [messages with_messages].
  generalize (messages d) as l.
  induction ops as [|op r IH]; intros l H Hl; [exact Hl |].
  inversion H as [|? ? Ho Hr]; subst. cbn [fold_left].
  apply (IH _ Hr). rewrite Ho. apply seen_update_one. exact Hl.
Qed.

Lemma Forall2_same {A} (R : A -> A -> Prop) l :
  (forall x, R x x) -> Forall2 R l l.
Proof. intro H. induction l; constructor; auto. Qed.

(** X16. FETCH with [markAsSeen] changes messages in one way only, whichever
    storage calls fail: a message is left as it was or it gets [\Seen] added
    to its flags and [seen] set.  Mailboxes, users and attachments stay, and
    so do the number and the order of the messages. *)
Theorem fetch_marks_seen_only :
  forall (fault : op -> bool) (getQueryResponse : jsval -> message -> jsval)
         (path : string) (o : fetch_options) (s : session) (d : DB),
    let r := onFetch fault getQueryResponse path o s (start d) in
    Forall2 (fun before after => after = before \/ after = marked_seen before)
            (messages d) (messages (db r))
    /\ mailboxes (db r) = mailboxes d
    /\ users (db r) = users d
    /\ attachments (db r) = attachments d.
Proof.
  intros fault getQueryResponse path o s d. cbn zeta.
  assert (H0 : Forall2 unchanged_or_seen (messages d) (messages d))
    by (apply Forall2_same; left; reflexivity).
  unfold onFetch.
  destruct (fault _); [repeat split; exact H0 |].
  destruct (find_mailbox _ _ _) as [mailbox|]; [| repeat split; exact H0].
  apply fetch_processNext_inv
    with (I := fun w => Forall2 unchanged_or_seen (messages d) (messages (db w))
                        /\ mailboxes (db w) = mailboxes d
                        /\ users (db w) = users d
                        /\ attachments (db w) = attachments d)
         (Pop := fun op => snd op = seen_update);
    try (intros; rewrite db_emit; assumption).
  - intros ops w Hops (Hm & Hb & Hu & Ha). rewrite db_with_db.
    split; [apply seen_bulk_write; assumption |]. repeat split; assumption.
  - apply Forall_forall. intros m _ _ _. reflexivity.
  - constructor.
  - repeat split. exact H0.
Qed.

Lemma fetch_processNext_unmarked fault getQueryResponse path o s cursor :
  markAsSeen o = false ->
  forall n w,
    let r := fetch_processNext fault getQueryResponse path o s cursor n false
                               [] [] w in
    db r = db w
    /\ (forallb answers_only (trace w) = true ->
        forallb answers_only (trace r) = true).
Proof.
  intro Hmark.
  induction cursor as [|m rest IH]; intros n w; cbn zeta;
    cbn [fetch_processNext fetch_done].
  - destruct (fault (OpCursorNext n)); (split; [reflexivity |]);
      intro H; rewrite trace_emit, forallb_app, H; reflexivity.
  - destruct (fault (OpCursorNext n)).
    { split; [reflexivity |].
      intro H; rewrite trace_emit, forallb_app, H; reflexivity. }
    rewrite Hmark. cbn [andb negb].
    destruct (fault (OpStream _)).
    { split; [reflexivity |].
      intro H. rewrite !trace_emit, !forallb_app, H. reflexivity. }
    match goal with
    | |- context [fetch_processNext _ _ _ _ _ rest (S n) false [] [] ?w1] =>
        destruct (IH (S n) w1) as [Hd Ht]
    end.
    split; [rewrite Hd; reflexivity |].
    intro H. apply Ht. rewrite trace_emit, forallb_app, H. reflexivity.
Qed.

(** X17. FETCH without [markAsSeen] reads only, whichever storage calls fail: the
    database is left as it was, and the command does nothing but write
    responses and complete: no [bulkWrite], no journal entry, no
    notification. *)
Theorem fetch_without_mark_reads_only :
  forall (fault : op -> bool) (getQueryResponse : jsval -> message -> jsval)
         (path : string) (o : fetch_options) (s : session) (d : DB),
    markAsSeen o = false ->
    let r := onFetch fault getQueryResponse path o s (start d) in
    db r = d /\ forallb answers_only (trace r) = true.
Proof.
  intros fault getQueryResponse path o s d Hmark. cbn zeta. unfold onFetch.
  destruct (fault _); [split; reflexivity |].
  destruct (find_mailbox _ _ _) as [mailbox|]; [| split; reflexivity].
  destruct (@fetch_processNext_unmarked fault getQueryResponse path o s
              (find_messages (fetch_query mailbox o) (db (start d))) Hmark 0%nat
              (start d)) as [Hd Ht].
  split; [exact Hd | apply Ht; reflexivity].
Qed.

Lemma fetch_without_mark_reads_only_witness :
  let peek := {| opt_messages := [7; 9]; opt_query := JArr [JStr "BODY.PEEK[]"];
                 markAsSeen := false; changedSince := None;
                 metadataOnly := false |} in
  let r := onFetch (Sample.torn_stream 2) Sample.getQueryResponse "Drafts"
                   peek Sample.s1 (start Sample.db0) in
  db r = Sample.db0 /\ forallb answers_only (trace r) = true.
Proof.
  exact (@fetch_without_mark_reads_only (Sample.torn_stream 2)
           Sample.getQueryResponse "Drafts"
           {| opt_messages := [7; 9]; opt_query := JArr [JStr "BODY.PEEK[]"];
              markAsSeen := false; changedSince := None; metadataOnly := false |}
           Sample.s1 Sample.db0 eq_refl).
Defined.

(** ** The flags a mailbox learns *)

Lemma add_to_set_length news :
  forall l, (List.length (add_to_set l news) <= List.length l + List.length news)%nat.
Proof.
  unfold add_to_set.
  induction news as [|f r IH]; intro l; cbn [fold_left List.length]; [lia |].
  destruct (includes l f).
  - specialize (IH l). lia.
  - specialize (IH (l ++ [f])). rewrite length_app in IH. cbn [List.length] in IH. lia.
Qed.

Lemma add_to_set_from news :
  forall l x, In x (add_to_set l news) -> In x l \/ In x news.
Proof.
  unfold add_to_set.
  induction news as [|f r IH]; intros l x H; cbn [fold_left] in H; [left; exact H |].
  destruct (includes l f).
  - destruct (IH _ _ H) as [Hl | Hr]; [left; exact Hl | right; right; exact Hr].
  - destruct (IH _ _ H) as [Hl | Hr]; [| right; right; exact Hr].
    apply in_app_or in Hl. destruct Hl as [Hl | [<- | []]];
      [left; exact Hl | right; left; reflexivity].
Qed.

Lemma learn_flags_spec known vs :
  let learned := learn_flags known vs in
  (forall f, In f learned -> In f vs /\ includes known (normalize f) = false)
  /\ (learned <> [] -> (List.length known + List.length learned <= 100)%nat).
Proof.
  cbn zeta. unfold learn_flags.
  set (step := fun newFlags flag =>
                 if (100 <=? List.length known + List.length newFlags)%nat
                 then newFlags
                 else if negb (includes known (normalize flag))
                      then newFlags ++ [flag] else newFlags).
  assert (H : forall l acc,
             ((forall f, In f acc -> includes known (normalize f) = false)
              /\ (acc <> [] -> (List.length known + List.length acc <= 100)%nat)) ->
             (forall f, In f (fold_left step l acc) ->
                        (In f acc \/ In f l)
                        /\ includes known (normalize f) = false)
             /\ (fold_left step l acc <> [] ->
                 (List.length known + List.length (fold_left step l acc)
                  <= 100)%nat)).
  { induction l as [|x r IH]; intros acc [Hacc Hlen];
      cbn [fold_left].
    - split; [| exact Hlen]. intros f Hf. split; [left; exact Hf | apply Hacc, Hf].
    - assert (Hstep : (forall f, In f (step acc x) ->
                                 includes known (normalize f) = false)
                      /\ (step acc x <> [] ->
                          (List.length known + List.length (step acc x) <= 100)%nat)
                      /\ (forall f, In f (step acc x) -> In f acc \/ f = x)).
      { unfold step.
        destruct (Nat.leb_spec 100 (List.length known + List.length acc)).
        - split; [exact Hacc |]. split; [exact Hlen |]. intros f Hf. left. exact Hf.
        - destruct (includes known (normalize x)) eqn:E; cbn [negb].
          + split; [exact Hacc |]. split; [exact Hlen |]. intros f Hf. left.
            exact Hf.
          + split; [| split].
            * intros f Hf. apply in_app_or in Hf.
              destruct Hf as [Hf | [<- | []]]; [apply Hacc, Hf | exact E].
            * intros _. rewrite length_app. cbn [List.length]. lia.
            * intros f Hf. apply in_app_or in Hf.
              destruct Hf as [Hf | [<- | []]]; [left; exact Hf | right; reflexivity]. }
      destruct Hstep as (H1 & H2 & H3).
      destruct (IH (step acc x) (conj H1 H2)) as [Ha Hb].
      split; [| exact Hb].
      intros f Hf. destruct (Ha f Hf) as [[Hi | Hi] Hn]; (split; [| exact Hn]).
      + destruct (H3 f Hi) as [Hacc' | ->]; [left; exact Hacc' | right; left; reflexivity].
      + right. right. exact Hi. }
  destruct (H vs []) as [Ha Hb].
  { split; [intros f [] | intro Hne; contradiction]. }
  split; [| exact Hb].
  intros f Hf. destruct (Ha f Hf) as [[[] | Hi] Hn]. split; assumption.
Qed.

Lemma add_mailbox_flags_replaces id news l mailbox :
  NoDup (map mb_id l) -> In mailbox l -> mb_id mailbox = id ->
  flags_replaced id (add_to_set (mb_flags mailbox) news) l
                 (add_mailbox_flags id news l).
Proof.
  unfold flags_replaced.
  induction l as [|x r IH]; intros Hnd Hin Hid; [contradiction |].
  cbn [map] in Hnd. inversion Hnd as [|? ? Hx Hr]; subst.
  cbn [add_mailbox_flags].
  destruct (Z.eqb_spec (mb_id x) (mb_id mailbox)) as [He | Hne].
  - assert (x = mailbox).
    { destruct Hin as [-> | Hin]; [reflexivity |].
      exfalso. apply Hx. rewrite He. apply in_map. exact Hin. }
    subst x. constructor.
    + rewrite Z.eqb_refl. reflexivity.
    + clear - Hx. induction r as [|y r IH]; constructor.
      * destruct (Z.eqb_spec (mb_id y) (mb_id mailbox)) as [E |]; [| reflexivity].
        exfalso. apply Hx. left. exact E.
      * apply IH. intro H. apply Hx. right. exact H.
  - destruct Hin as [-> | Hin]; [contradiction Hne; reflexivity |].
    constructor; [| apply IH; auto].
    destruct (Z.eqb_spec (mb_id x) (mb_id mailbox)); [contradiction | reflexivity].
Qed.

Lemma flags_replaced_same l mailbox :
  NoDup (map mb_id l) -> In mailbox l ->
  flags_replaced (mb_id mailbox) (mb_flags mailbox) l l.
Proof.
  intros Hnd Hin. unfold flags_replaced.
  assert (H : forall x, In x l ->
                        x = if mb_id x =? mb_id mailbox
                            then with_mb_flags (mb_flags mailbox) x else x).
  { intros x Hx. destruct (Z.eqb_spec (mb_id x) (mb_id mailbox)) as [E |];
      [| reflexivity].
    rewrite (@unique_mailbox_by_id l x mailbox Hnd Hx Hin E). destruct mailbox; reflexivity. }
  clear Hnd Hin. induction l as [|x r IH]; constructor.
  - apply H. left. reflexivity.
  - apply IH. intros y Hy. apply H. right. exact Hy.
Qed.

(** X18. What the mailbox learns from a STORE: its flags are kept and in the
    end its flags and the system flags are not more than 100, unless they
    were before; a learned flag comes from the command and was not known,
    whatever its case; the action [remove] teaches nothing.  Nothing else
    is written: the other mailboxes, the messages, the users and the trace
    stay. *)
Theorem mailbox_learns_up_to_100_flags :
  forall (fault : op -> bool) (systemFlags : list string) (mailbox : mailbox)
         (u : update) (d : DB),
    unique_mailbox_ids d ->
    In mailbox (mailboxes d) ->
    let r := updateMailboxFlags fault systemFlags mailbox u (start d) in
    let known := map (fun flag => toLowerCase (trim flag))
                     (systemFlags ++ mb_flags mailbox) in
    exists flags',
      flags_replaced (mb_id mailbox) flags' (mailboxes d) (mailboxes (db r))
      /\ incl (mb_flags mailbox) flags'
      /\ (forall f, In f flags' ->
                    In f (mb_flags mailbox)
                    \/ (In f (value u) /\ includes known (normalize f) = false))
      /\ (List.length systemFlags + List.length flags'
          <= Nat.max 100 (List.length systemFlags + List.length (mb_flags mailbox)))%nat
      /\ (action u = "remove" -> flags' = mb_flags mailbox)
      /\ messages (db r) = messages d
      /\ users (db r) = users d
      /\ attachments (db r) = attachments d
      /\ trace r = [].
Proof.
  intros fault systemFlags mailbox u d Hnd Hin. cbn zeta.
  assert (Hsame : exists flags',
             flags_replaced (mb_id mailbox) flags' (mailboxes d) (mailboxes d)
             /\ incl (mb_flags mailbox) flags'
             /\ (forall f, In f flags' ->
                    In f (mb_flags mailbox)
                    \/ (In f (value u)
                        /\ includes (map (fun flag => toLowerCase (trim flag))
                                         (systemFlags ++ mb_flags mailbox))
                                    (normalize f) = false))
             /\ (List.length systemFlags + List.length flags'
                 <= Nat.max 100 (List.length systemFlags
                                 + List.length (mb_flags mailbox)))%nat
             /\ (action u = "remove" -> flags' = mb_flags mailbox)
             /\ messages d = messages d /\ users d = users d
             /\ attachments d = attachments d /\ @nil event = []).
  { exists (mb_flags mailbox).
    split; [apply flags_replaced_same; assumption |].
    split; [apply incl_refl |]. split; [intros f Hf; left; exact Hf |].
    split; [lia |]. repeat split. }
  unfold updateMailboxFlags.
  destruct (String.eqb_spec (action u) "remove") as [Hrm | Hrm]; [exact Hsame |].
  pose proof (learn_flags_spec
                (map (fun flag => toLowerCase (trim flag))
                     (systemFlags ++ mb_flags mailbox)) (value u)) as [Hl1 Hl2].
  destruct (learn_flags _ _) as [|f0 news] eqn:El; [exact Hsame |].
  destruct (fault _); [exact Hsame |].
  exists (add_to_set (mb_flags mailbox) (f0 :: news)).
  rewrite db_with_db. cbn [start db trace mailboxes messages users attachments
                           with_mailboxes with_db].
  split; [apply add_mailbox_flags_replaces; auto |].
  split; [intros f Hf; apply add_to_set_keeps; exact Hf |].
  split.
  { intros f Hf. apply add_to_set_from in Hf. destruct Hf as [Hf | Hf];
      [left; exact Hf | right; apply Hl1; exact Hf]. }
  split.
  { pose proof (add_to_set_length (f0 :: news) (mb_flags mailbox)) as Hlen.
    assert (Hcap := Hl2 ltac:(discriminate)).
    rewrite length_map, length_app in Hcap. lia. }
  split; [intro Ha; contradiction |]. repeat split.
Qed.

Lemma mailbox_learns_up_to_100_flags_witness :
  exists flags',
    flags_replaced 1 flags' (mailboxes Sample.db0)
      (mailboxes (db (updateMailboxFlags Sample.no_fault Sample.systemFlags
                        (Sample.box 1 "Drafts" 100 10 5)
                        (Sample.store "add" ["$Label1"] [7] None) (start Sample.db0))))
    /\ incl [] flags'.
Proof.
  assert (Hnd : unique_mailbox_ids Sample.db0).
  { unfold unique_mailbox_ids. cbn. repeat constructor; cbn; intuition discriminate. }
  assert (Hin : In (Sample.box 1 "Drafts" 100 10 5) (mailboxes Sample.db0)).
  { cbn. left. reflexivity. }
  destruct (@mailbox_learns_up_to_100_flags Sample.no_fault Sample.systemFlags
              (Sample.box 1 "Drafts" 100 10 5) (Sample.store "add" ["$Label1"] [7] None)
              Sample.db0 Hnd Hin) as (flags' & H1 & H2 & _).
  exists flags'. split; [exact H1 | exact H2].
Defined.

(** ** COPY, whichever storage calls fail *)


Lemma find_inc_uidNext_other id id' l :
  id' <> id ->
  find (fun m => mb_id m =? id') (inc_uidNext id l)
  = find (fun m => mb_id m =? id') l.
Proof.
  intro Hne. induction l as [|x r IH]; [reflexivity |]. cbn [inc_uidNext].
  destruct (Z.eqb_spec (mb_id x) id) as [He | Hx].
  - cbn [find mb_id].
    destruct (Z.eqb_spec (mb_id x) id'); [congruence | reflexivity].
  - cbn [find]. rewrite IH. reflexivity.
Qed.

Lemma find_iter_inc_other id id' j l :
  id' <> id ->
  find (fun m => mb_id m =? id') (Nat.iter j (inc_uidNext id) l)
  = find (fun m => mb_id m =? id') l.
Proof.
  intro Hne. induction j as [|j IH]; [reflexivity |].
  rewrite Nat.iter_succ, find_inc_uidNext_other by exact Hne. exact IH.
Qed.

Lemma find_iter_inc id j l item :
  find (fun m => mb_id m =? id) l = Some item ->
  exists item',
    find (fun m => mb_id m =? id) (Nat.iter j (inc_uidNext id) l) = Some item'
    /\ uidNext item' = uidNext item + Z.of_nat j.
Proof.
  intro H. induction j as [|j (item' & Hf & Hn)].
  - exists item. split; [exact H | cbn; lia].
  - rewrite Nat.iter_succ.
    destruct (find_inc_uidNext _ _ Hf) as (item'' & Hf' & Hn').
    exists item''. split; [exact Hf' | lia].
Qed.


Section CopyAny.

Variable fault : op -> bool.
Variable s : session.
Variable target : mailbox.
Variable mailbox : mailbox.

Lemma db_copy_updateQuota cm cs w :
  mailboxes (db (copy_updateQuota fault mailbox cm cs w)) = mailboxes (db w)
  /\ messages (db (copy_updateQuota fault mailbox cm cs w)) = messages (db w).
Proof.
  destruct cm; [auto |]. cbn [copy_updateQuota]. unfold adjust_storage.
  destruct (fault _); auto.
Qed.

Lemma copy_processNext_any cursor :
  forall n cm cs src dst w item,
    find_mailbox_by_id (db w) (mb_id target) = Some item ->
    let r := copy_processNext fault s target mailbox cursor n cm cs src dst w in
    exists k j,
      (k <= j)%nat /\ (k <= List.length cursor)%nat
      /\ messages (db r)
         = messages (db w)
           ++ copies target (firstn k cursor) (next_oid (db w)) (uidNext item)
      /\ mailboxes (db r)
         = Nat.iter j (inc_uidNext (mb_id target)) (mailboxes (db w))
      /\ storage_adjustments (trace r)
         = storage_adjustments (trace w)
           ++ match (cm + k)%nat with
              | O => []
              | S _ => [(mb_user mailbox, cs + sum_sizes (firstn k cursor))]
              end.
Proof.
  assert (Hstop : forall args cm cs w,
             let r := emit (EvCallback args)
                           (copy_updateQuota fault mailbox cm cs w) in
             messages (db r) = messages (db w) ++ []
             /\ mailboxes (db r) = mailboxes (db w)
             /\ storage_adjustments (trace r)
                = storage_adjustments (trace w)
                  ++ match (cm + 0)%nat with
                     | O => []
                     | S _ => [(mb_user mailbox, cs + 0)]
                     end).
  { intros args cm cs w. cbn zeta. rewrite db_emit, trace_emit.
    destruct (db_copy_updateQuota cm cs w) as [Hb Hm].
    rewrite Hb, Hm, trace_copy_updateQuota, !storage_adjustments_app, app_nil_r.
    rewrite Nat.add_0_r, Z.add_0_r.
    destruct cm; cbn [storage_adjustments flat_map app]; rewrite ?app_nil_r; auto. }
  induction cursor as [|m rest IH]; intros n cm cs src dst w item Hitem; cbn zeta;
    cbn [copy_processNext].
  - exists 0%nat, 0%nat. cbn [firstn copies sum_sizes fold_right Nat.iter List.length].
    split; [lia |]. split; [lia |].
    destruct (fault (OpCursorNext n)); [apply Hstop |].
    destruct (Hstop [] cm cs w) as (H1 & H2 & H3).
    rewrite !db_emit, !trace_emit, !storage_adjustments_app in *.
    cbn [storage_adjustments flat_map app] in *. rewrite !app_nil_r in *.
    auto.
  - destruct (fault (OpCursorNext n)).
    { exists 0%nat, 0%nat. split; [lia |]. split; [lia |]. apply Hstop. }
    destruct (fault (OpIncUidNext _ _)).
    { exists 0%nat, 0%nat. split; [lia |]. split; [lia |]. apply Hstop. }
    rewrite Hitem.
    destruct (find_inc_uidNext _ _ Hitem) as (item' & Hitem' & Hnext).
    destruct (fault (OpInsertMessage _)).
    { exists 0%nat, 1%nat. split; [lia |]. split; [cbn; lia |].
      match goal with
      | |- context [copy_updateQuota _ _ _ _ ?w2] =>
          destruct (Hstop [storage_error] cm cs w2) as (H1 & H2 & H3)
      end.
      cbn [firstn copies sum_sizes fold_right Nat.iter].
      rewrite H1, H2, H3. rewrite !db_with_db, !trace_with_db.
      cbn [messages mailboxes fresh_oid with_mailboxes]. auto. }
    match goal with
    | |- context [copy_processNext _ _ _ _ rest (S n) ?cm' ?cs' ?src' ?dst' ?w5] =>
        destruct (IH (S n) cm' cs' src' dst' w5 item') as (k & j & Hkj & Hk & H1 & H2 & H3)
    end.
    { destruct (fault (OpLinkAttachments _ _)); rewrite ?db_emit, ?db_with_db;
        exact Hitem'. }
    exists (S k), (S j). split; [lia |]. split; [cbn [List.length]; lia |].
    rewrite H1, H2, H3.
    rewrite Nat.iter_succ_r. cbn [firstn copies].
    rewrite Hnext, number_or_zero_id.
    replace (S cm + k)%nat with (S (cm + k)) by lia.
    replace (cm + S k)%nat with (S (cm + k)) by lia.
    unfold sum_sizes. cbn [fold_right]. fold (sum_sizes (firstn k rest)).
    cbn [size copy_of].
    destruct (fault (OpLinkAttachments _ _));
      rewrite !db_emit, !trace_emit, ?db_with_db, ?trace_with_db,
        !storage_adjustments_app;
      cbn [messages mailboxes next_oid fresh_oid with_mailboxes with_messages
                    with_attachments storage_adjustments flat_map app db trace
                    with_db];
      rewrite ?app_nil_r, <- ?app_assoc; cbn [app];
      (split; [reflexivity |]); (split; [reflexivity |]);
      rewrite Z.add_assoc; reflexivity.
Qed.

End CopyAny.



Lemma zseq_bounds un k x : In x (zseq un k) -> un <= x < un + Z.of_nat k.
Proof.
  revert un. induction k as [|k IH]; intros un H; [contradiction |].
  cbn [zseq] in H. destruct H as [<- | H]; [lia |].
  apply IH in H. lia.
Qed.

Lemma NoDup_zseq un k : NoDup (zseq un k).
Proof.
  revert un. induction k as [|k IH]; intro un; constructor; [| apply IH].
  intro H. apply zseq_bounds in H. lia.
Qed.

Lemma In_copies target cursor c :
  forall oid un,
    In c (copies target cursor oid un) ->
    msg_mailbox c = mb_id target /\ In (uid c) (zseq un (List.length cursor)).
Proof.
  intros oid un H. split.
  - revert oid un H. induction cursor as [|m r IH]; intros oid un H;
      [contradiction |].
    destruct H as [<- | H]; [reflexivity | eapply IH; exact H].
  - rewrite <- (uid_copies target cursor oid un). apply in_map. exact H.
Qed.

Lemma keys_copies target cursor :
  forall oid un,
    map (fun m => (msg_mailbox m, uid m)) (copies target cursor oid un)
    = map (fun z => (mb_id target, z)) (zseq un (List.length cursor)).
Proof.
  induction cursor as [|m l IH]; intros oid un; [reflexivity |].
  cbn [copies map List.length zseq msg_mailbox uid copy_of]. rewrite IH.
  reflexivity.
Qed.

(** X20. COPY keeps the uids fresh, whichever storage calls fail: when every
    message has a uid below the [uidNext] of its mailbox and no two messages
    of a mailbox share a uid, both still hold after the command. *)
Theorem copy_keeps_uids_fresh :
  forall (fault : op -> bool) (path : string) (u : update) (s : session) (d : DB),
    uids_below_next d ->
    unique_uids d ->
    let r := onCopy fault path u s (start d) in
    uids_below_next (db r) /\ unique_uids (db r).
Proof.
  intros fault path u s d Hbelow Huniq. cbn zeta.
  unfold onCopy. destruct (fault _); [split; assumption |].
  destruct (find_mailbox _ _ path) as [mailbox|] eqn:Hsrc; [| split; assumption].
  destruct (fault _); [split; assumption |].
  destruct (find_mailbox _ _ (destination u)) as [target|] eqn:Hdst;
    [| split; assumption].
  change (db (start d)) with d in *.
  assert (Hitem : exists item, find_mailbox_by_id d (mb_id target) = Some item).
  { unfold find_mailbox in Hdst. apply find_some in Hdst. destruct Hdst as [Hin _].
    unfold find_mailbox_by_id.
    destruct (find (fun m => mb_id m =? mb_id target) (mailboxes d)) eqn:E;
      [eauto |].
    pose proof (find_none _ _ E _ Hin) as H. cbn in H.
    rewrite Z.eqb_refl in H. discriminate. }
  destruct Hitem as [item Hitem].
  set (cursor := find_messages (copy_query mailbox u) d).
  destruct (@copy_processNext_any fault s target mailbox cursor 0%nat 0%nat 0 [] []
              (start d) item Hitem) as (k & j & Hkj & Hk & H1 & H2 & _).
  cbn [start db trace] in H1, H2.
  set (r := copy_processNext fault s target mailbox cursor 0 0 0 [] [] (start d)) in *.
  assert (Hfind : forall id b,
             find_mailbox_by_id (db r) id = Some b ->
             exists b0, find_mailbox_by_id d id = Some b0
                        /\ uidNext b0 <= uidNext b
                        /\ (id = mb_id target ->
                            b0 = item /\ uidNext b = uidNext item + Z.of_nat j)).
  { intros id b Hb. unfold find_mailbox_by_id in *. rewrite H2 in Hb.
    destruct (Z.eq_dec id (mb_id target)) as [-> | Hne].
    - destruct (find_iter_inc (mb_id target) j _ Hitem) as (item' & Hf & Hn).
      rewrite Hf in Hb. injection Hb as <-. exists item.
      split; [exact Hitem |]. split; [lia |]. intros _. split; [reflexivity | exact Hn].
    - rewrite find_iter_inc_other in Hb by exact Hne. exists b.
      split; [exact Hb |]. split; [lia |]. intro; contradiction. }
  split.
  - intros m b Hm Hb. rewrite H1 in Hm. apply in_app_or in Hm.
    destruct (Hfind _ _ Hb) as (b0 & Hb0 & Hle & Htarget).
    destruct Hm as [Hm | Hm].
    + pose proof (Hbelow m b0 Hm Hb0). lia.
    + apply In_copies in Hm. destruct Hm as [Hmb Hu].
      apply zseq_bounds in Hu. rewrite length_firstn in Hu.
      destruct (Htarget Hmb) as [-> Hn]. lia.
  - unfold unique_uids in *. rewrite H1, map_app. apply NoDup_app.
    + exact Huniq.
    + rewrite keys_copies. apply Finite.Injective_map_NoDup; [| apply NoDup_zseq].
      intros a b H. congruence.
    + intros key Hold Hnew.
      apply in_map_iff in Hold. destruct Hold as (m & <- & Hm).
      apply in_map_iff in Hnew. destruct Hnew as (c & Hc & Hin).
      apply In_copies in Hin. destruct Hin as [Hmb Hu].
      apply zseq_bounds in Hu. injection Hc as Hc1 Hc2.
      assert (Hlt : uid m < uidNext item).
      { apply Hbelow; [exact Hm |]. rewrite <- Hc1, Hmb. exact Hitem. }
      lia.
Qed.

Lemma copy_keeps_uids_fresh_witness :
  uids_below_next (db (onCopy Sample.no_fault "Drafts" (Sample.copy [7; 9] "Archive")
                              Sample.s1 (start Sample.db0)))
  /\ unique_uids (db (onCopy Sample.no_fault "Drafts" (Sample.copy [7; 9] "Archive")
                             Sample.s1 (start Sample.db0))).
Proof.
  apply copy_keeps_uids_fresh.
  - intros m b Hm Hb. cbn in Hm.
    destruct Hm as [<- | [<- | []]]; cbn in Hb; injection Hb as <-; cbn; lia.
  - unfold unique_uids. cbn. repeat constructor; cbn; intuition congruence.
Defined.

(** ** EXPUNGE: what is removed *)

Lemma In_delete_one id l x :
  NoDup (map msg_id l) ->
  (In x (delete_one id l) <-> In x l /\ msg_id x <> id).
Proof.
  induction l as [|y r IH]; intro Hnd; [cbn; tauto |].
  cbn [map] in Hnd. inversion Hnd as [|? ? Hy Hr]; subst.
  cbn [delete_one]. destruct (Z.eqb_spec (msg_id y) id) as [He | Hne].
  - cbn [In]. split.
    + intro Hx. split; [right; exact Hx |]. intro Hid. apply Hy.
      rewrite He, <- Hid. apply in_map. exact Hx.
    + intros [[-> | Hx] Hid]; [contradiction | exact Hx].
  - cbn [In]. rewrite (IH Hr). split.
    + intros [-> | [Hx Hid]]; [split; [left; reflexivity | exact Hne] |].
      split; [right; exact Hx | exact Hid].
    + intros [[-> | Hx] Hid]; [left; reflexivity | right; split; assumption].
Qed.

Lemma NoDup_delete_one id l :
  NoDup (map msg_id l) -> NoDup (map msg_id (delete_one id l)).
Proof.
  induction l as [|y r IH]; intro Hnd; [exact Hnd |].
  cbn [map] in Hnd. inversion Hnd as [|? ? Hy Hr]; subst.
  cbn [delete_one]. destruct (msg_id y =? id); [exact Hr |].
  cbn [map]. constructor; [| apply IH; exact Hr].
  intro H. apply Hy. apply in_map_iff in H. destruct H as (x & Hx & Hin).
  apply in_map_iff. exists x. split; [exact Hx |].
  clear - Hin. induction r as [|z r IH]; [contradiction |].
  cbn [delete_one] in Hin. destruct (msg_id z =? id); [right; exact Hin |].
  destruct Hin as [-> | Hin]; [left; reflexivity | right; auto].
Qed.

Lemma In_delete_all gone :
  forall l x,
    NoDup (map msg_id l) ->
    (In x (fold_left (fun l m => delete_one (msg_id m) l) gone l)
     <-> In x l /\ ~ In (msg_id x) (map msg_id gone)).
Proof.
  induction gone as [|g r IH]; intros l x Hnd; cbn [fold_left map In]; [tauto |].
  rewrite (IH _ _ (@NoDup_delete_one (msg_id g) _ Hnd)), (@In_delete_one (msg_id g) _ _ Hnd).
  intuition congruence.
Qed.

Section ExpungeWritten.

Variable fault : op -> bool.
Variable path : string.
Variable u : update.
Variable s : session.
Variable mailbox : mailbox.

Hypothesis faults : only_attachment_faults fault.

Lemma db_expunge_updateQuota dm ds w :
  attachments (db (expunge_updateQuota fault mailbox dm ds w)) = attachments (db w).
Proof.
  destruct dm; [reflexivity |]. cbn [expunge_updateQuota]. unfold adjust_storage.
  destruct (fault _); reflexivity.
Qed.

Lemma written_quota_event (dm : nat) (id delta : Z) :
  written match dm with
          | O => []
          | S _ => [EvStorageUsed id delta]
          end = [].
Proof. destruct dm; reflexivity. Qed.

Lemma expunge_processNext_written cursor :
  forall n dm ds w,
    let r := expunge_processNext fault path u s mailbox cursor n dm ds w in
    written (trace r)
    = written (trace w) ++ (if silent u then [] else map expunged_response cursor)
    /\ (reliable fault ->
        attachments (db r)
        = sweep_attachments
            (fold_left (fun l m => unlink_attachments (msg_id m) l) cursor
                       (attachments (db w)))).
Proof.
  induction cursor as [|m rest IH]; intros n dm ds w; cbn zeta;
    cbn [expunge_processNext];
    rewrite (no_other_fault (OpCursorNext n) faults Logic.I).
  - split.
    + destruct (fault OpSweepAttachments);
        rewrite ?trace_emit, ?trace_with_db, ?trace_emit, trace_expunge_updateQuota,
          !written_app, written_quota_event;
        cbn [written flat_map app map]; destruct (silent u); rewrite ?app_nil_r;
        reflexivity.
    + intro Hok. rewrite Hok. rewrite db_emit, db_with_db, db_emit.
      cbn [attachments with_attachments fold_left].
      rewrite db_expunge_updateQuota. reflexivity.
  - rewrite (no_other_fault (OpDeleteMessage _) faults Logic.I).
    match goal with
    | |- context [expunge_processNext _ _ _ _ _ rest (S n) ?a ?b ?w4] =>
        destruct (IH (S n) a b w4) as [H1 H2]
    end.
    split.
    + rewrite H1. cbn [map].
      destruct (fault (OpUnlinkAttachments _)), (silent u);
        rewrite ?trace_emit, ?trace_with_db, ?trace_emit, !written_app;
        cbn [written flat_map app]; rewrite ?app_nil_r, <- ?app_assoc;
        reflexivity.
    + intro Hok. rewrite (H2 Hok). rewrite Hok.
      rewrite db_emit, !db_with_db. cbn [attachments with_attachments with_messages
                                                     fold_left].
      destruct (silent u); rewrite ?db_emit; reflexivity.
Qed.

End ExpungeWritten.

Lemma filter_none {A} (f : A -> bool) l :
  (forall x, In x l -> f x = false) -> filter f l = [].
Proof.
  induction l as [|x r IH]; intro H; [reflexivity |]. cbn [filter].
  rewrite (H x (or_introl eq_refl)). apply IH. intros y Hy. apply H. right. exact Hy.
Qed.

(** X21. EXPUNGE removes the messages of the mailbox that are marked deleted,
    no other, and for good.  With unique message ids and nothing failing but
    the maintenance of the attachments: a message is stored afterwards
    exactly when it was stored and is not a deleted message of the mailbox;
    unless the command is silent one EXPUNGE response is written for each
    removed message, by ascending uid; and a second EXPUNGE finds nothing to
    do: it writes no response, adjusts no quota and leaves the messages. *)
Theorem expunge_removes_deleted_for_good :
  forall (fault : op -> bool) (path : string) (u : update) (s : session)
         (d : DB) (mailbox : mailbox),
    only_attachment_faults fault ->
    unique_ids d ->
    find_mailbox d (sess_user s) path = Some mailbox ->
    let gone := find_messages (expunge_query mailbox) d in
    let r := onExpunge fault path u s (start d) in
    let again := onExpunge fault path u s (start (db r)) in
    (forall x, In x (messages (db r)) <->
               In x (messages d)
               /\ ~ (msg_mailbox x = mb_id mailbox /\ deleted x = true))
    /\ written (trace r) = (if silent u then [] else map expunged_response gone)
    /\ Sorted Z.le (map uid gone)
    /\ messages (db again) = messages (db r)
    /\ written (trace again) = []
    /\ storage_adjustments (trace again) = []
    /\ callbacks (trace again) = [[JNull; JBool true]].
Proof.
  intros fault path u s d mailbox Hf Hids Hfind gone r again.
  assert (Hr : r = expunge_processNext fault path u s mailbox gone 0 0 0 (start d)).
  { subst r. unfold onExpunge.
    rewrite (no_other_fault (OpFindMailbox _ _) Hf Logic.I).
    change (db (start d)) with d. rewrite Hfind. reflexivity. }
  destruct (@expunge_processNext_quota fault path u s mailbox Hf gone
              0%nat 0%nat 0 (start d)) as (_ & _ & _ & Hmb & Hms).
  destruct (@expunge_processNext_written fault path u s mailbox Hf gone
              0%nat 0%nat 0 (start d)) as (Hw & _).
  cbn zeta in Hmb, Hms, Hw. rewrite <- Hr in Hmb, Hms, Hw.
  change (db (start d)) with d in *. change (trace (start d)) with (@nil event) in *.
  assert (Hin : forall x, In x (messages (db r)) <->
                          In x (messages d)
                          /\ ~ (msg_mailbox x = mb_id mailbox /\ deleted x = true)).
  { intro x. rewrite Hms. rewrite (@In_delete_all gone _ x Hids). split.
    - intros [Hx Hno]. split; [exact Hx |]. intros [Hb Hdel]. apply Hno.
      apply in_map. apply In_find_messages. split; [exact Hx |].
      unfold expunge_query. rewrite Hb, Z.eqb_refl, Hdel. reflexivity.
    - intros [Hx Hno]. split; [exact Hx |]. intro Hg.
      apply in_map_iff in Hg. destruct Hg as (g & Hid & Hg).
      apply In_find_messages in Hg. destruct Hg as [Hg Hq].
      assert (g = x) by (eapply unique_ids_eq; eassumption). subst g.
      apply Hno. unfold expunge_query in Hq. apply andb_true_iff in Hq.
      destruct Hq as [Hq1 Hq2]. apply Z.eqb_eq in Hq1.
      destruct (deleted x); [split; [exact Hq1 | reflexivity] | discriminate]. }
  assert (Hnone : find_messages (expunge_query mailbox) (db r) = []).
  { unfold find_messages. rewrite filter_none; [reflexivity |].
    intros x Hx. apply Hin in Hx. destruct Hx as [_ Hno].
    unfold expunge_query.
    destruct (Z.eqb_spec (msg_mailbox x) (mb_id mailbox)); [| reflexivity].
    destruct (deleted x); [exfalso; apply Hno; auto | reflexivity]. }
  split; [exact Hin |]. split; [exact Hw |].
  split; [apply Sorted_map_uid; apply Sorted_sort_by_uid |].
  subst again. unfold onExpunge.
  rewrite (no_other_fault (OpFindMailbox _ _) Hf Logic.I).
  change (db (start (db r))) with (db r).
  unfold find_mailbox in *. rewrite Hmb, Hfind.
  fold (find_messages (expunge_query mailbox) (db r)). rewrite Hnone.
  cbn [expunge_processNext expunge_updateQuota].
  rewrite (no_other_fault (OpCursorNext 0) Hf Logic.I).
  destruct (fault OpSweepAttachments); repeat split.
Qed.

Lemma expunge_removes_deleted_for_good_witness :
  written (trace (onExpunge Sample.failing_sweep "Drafts" Sample.expunge Sample.s1
                            (start Sample.db1)))
  = [expunged_response (Sample.msg 10 1 7 2 ["\Seen"; "\Deleted"] 30);
     expunged_response (Sample.msg 11 1 9 5 ["\Deleted"] 50)].
Proof.
  assert (Hf : only_attachment_faults Sample.failing_sweep).
  { intros o H. destruct o; try discriminate H. left. reflexivity. }
  assert (Hids : unique_ids Sample.db1).
  { unfold unique_ids. cbn. repeat constructor; cbn; intuition discriminate. }
  exact (proj1 (proj2 (@expunge_removes_deleted_for_good Sample.failing_sweep
                         "Drafts" Sample.expunge Sample.s1 Sample.db1
                         (Sample.box 1 "Drafts" 100 10 5) Hf Hids eq_refl))).
Defined.

(** ** EXPUNGE: the attachments *)

Lemma unlink_all_without cursor :
  forall l,
    fold_left (fun l m => unlink_attachments (msg_id m) l) cursor l
    = map (without_links (map msg_id cursor)) l.
Proof.
  induction cursor as [|m r IH]; intro l; cbn [fold_left map].
  - induction l as [|a l IHl]; [reflexivity |]. cbn [map]. rewrite <- IHl.
    f_equal. unfold without_links. cbn [uid_in existsb negb].
    destruct a as [i ms]. cbn [att_id att_messages]. f_equal.
    induction ms as [|x ms IHm]; [reflexivity |]. cbn [filter]. rewrite <- IHm.
    reflexivity.
  - rewrite IH. unfold unlink_attachments. rewrite map_map.
    apply map_ext. intro a. unfold without_links. cbn [att_id att_messages].
    f_equal. induction (att_messages a) as [|x ms IHm]; [reflexivity |].
    cbn [filter uid_in existsb].
    destruct (Z.eqb_spec x (msg_id m)) as [He | Hne]; cbn [negb orb filter].
    + exact IHm.
    + fold (uid_in (map msg_id r) x). destruct (uid_in (map msg_id r) x);
        cbn [negb]; rewrite IHm; reflexivity.
Qed.

(** X22. After an EXPUNGE without failures every attachment has lost its links to
    the removed messages, and no other link; attachments left without a link
    are removed, and no other attachment. *)
Theorem expunge_cleans_attachments :
  forall (fault : op -> bool) (path : string) (u : update) (s : session)
         (d : DB) (mailbox : mailbox),
    reliable fault ->
    find_mailbox d (sess_user s) path = Some mailbox ->
    let gone := map msg_id (find_messages (expunge_query mailbox) d) in
    let r := onExpunge fault path u s (start d) in
    attachments (db r)
    = filter (fun a => negb (List.length (att_messages a) =? 0)%nat)
             (map (without_links gone) (attachments d))
    /\ (forall a, In a (attachments (db r)) ->
                  att_messages a <> []
                  /\ forall id, In id gone -> ~ In id (att_messages a))
    /\ (forall a id, In a (attachments d) -> In id (att_messages a) ->
                     ~ In id gone ->
                     exists a', In a' (attachments (db r))
                                /\ att_id a' = att_id a
                                /\ In id (att_messages a')).
Proof.
  intros fault path u s d mailbox Hok Hfind gone r.
  assert (Hf : only_attachment_faults fault).
  { intros o Ho. rewrite Hok in Ho. discriminate. }
  assert (Ha : attachments (db r)
               = filter (fun a => negb (List.length (att_messages a) =? 0)%nat)
                        (map (without_links gone) (attachments d))).
  { subst r. unfold onExpunge. rewrite Hok. change (db (start d)) with d.
    rewrite Hfind.
    destruct (@expunge_processNext_written fault path u s mailbox Hf
                (find_messages (expunge_query mailbox) d) 0%nat 0%nat 0 (start d))
      as (_ & H).
    rewrite (H Hok). change (db (start d)) with d.
    rewrite unlink_all_without. reflexivity. }
  split; [exact Ha |]. split.
  - intros a Hin. rewrite Ha in Hin. apply filter_In in Hin.
    destruct Hin as [Hin Hlen]. apply in_map_iff in Hin.
    destruct Hin as (a0 & <- & Hin). split.
    + intro He. rewrite He in Hlen. discriminate.
    + intros id Hid Hatt. cbn [without_links att_messages] in Hatt.
      apply filter_In in Hatt. destruct Hatt as [_ Hno].
      apply negb_true_iff in Hno.
      assert (Hyes : uid_in gone id = true) by (apply uid_in_In; exact Hid).
      congruence.
  - intros a id Hin Hid Hno. exists (without_links gone a).
    assert (Hkeep : In id (att_messages (without_links gone a))).
    { cbn [without_links att_messages]. apply filter_In. split; [exact Hid |].
      apply negb_true_iff. destruct (uid_in gone id) eqn:E; [| reflexivity].
      apply uid_in_In in E. contradiction. }
    split; [| split; [reflexivity | exact Hkeep]].
    rewrite Ha. apply filter_In. split; [apply in_map; exact Hin |].
    destruct (att_messages (without_links gone a)); [contradiction | reflexivity].
Qed.

Lemma expunge_cleans_attachments_witness :
  attachments (db (onExpunge Sample.no_fault "Drafts" Sample.expunge Sample.s1
                             (start Sample.db1))) = [].
Proof.
  exact (proj1 (@expunge_cleans_attachments Sample.no_fault "Drafts" Sample.expunge
                  Sample.s1 Sample.db1 (Sample.box 1 "Drafts" 100 10 5)
                  (fun o => eq_refl) eq_refl)).
Defined.

(** ** SEARCH: the walk and the answer *)

Lemma walked_refl st : walked st st.
Proof. unfold walked. auto. Qed.

Lemma walked_trans a b c : walked a b -> walked b c -> walked a c.
Proof.
  intros (A1 & A2 & A3 & A4) (B1 & B2 & B3 & B4). unfold walked.
  repeat split; auto. congruence.
Qed.

Lemma walk_each_walked pd bts ne node :
  (forall t, In t node -> forall ne st, walked st (snd (walk_term pd bts ne t st))) ->
  forall st, walked st (snd (walk_each pd bts ne node st)).
Proof.
  induction node as [|t r IHr]; intros Hall st; [apply walked_refl |].
  cbn [walk_each].
  pose proof (Hall t (or_introl eq_refl) ne st) as H1.
  destruct (walk_term pd bts ne t st) as [p1 st1]. cbn [snd] in H1.
  assert (H2 : walked st1 (snd (walk_each pd bts ne r st1)))
    by (apply IHr; intros t' Ht'; apply Hall; right; exact Ht').
  destruct (walk_each pd bts ne r st1) as [p2 st2]. cbn [snd] in *.
  eapply walked_trans; eassumption.
Qed.

Lemma walk_term_walked pd bts :
  forall t ne st, walked st (snd (walk_term pd bts ne t st)).
Proof.
  fix IH 1. intros t ne st.
  destruct t as [|ts|es|v|v|v|l|v|v e|h v|op v|op v|op v|k];
    try apply walked_refl.
  - cbn [walk_term]. destruct (negb ne); [| apply walked_refl].
    unfold walked. cbn [hasAll nothing walk_world snd]. auto.
  - rewrite walk_term_not. unfold walkQuery.
    destruct (hasAll st || nothing st); [apply walked_refl |].
    apply walk_each_walked.
    induction ts as [|t' r IHr]; intros t Ht; [destruct Ht |].
    destruct Ht as [<- | Ht]; [apply IH | apply IHr; exact Ht].
  - rewrite walk_term_or.
    assert (H : walked st (snd (walk_entries pd bts es st))).
    { revert st. induction es as [|entry r IHr]; intro st; [apply walked_refl |].
      cbn [walk_entries].
      assert (H1 : walked st (snd (walkQuery pd bts false entry st))).
      { unfold walkQuery. destruct (hasAll st || nothing st); [apply walked_refl |].
        apply walk_each_walked.
        induction entry as [|t' e IHe]; intros t Ht; [destruct Ht |].
        destruct Ht as [<- | Ht]; [apply IH | apply IHe; exact Ht]. }
      destruct (walkQuery pd bts false entry st) as [p1 st1]. cbn [snd] in H1.
      specialize (IHr st1).
      destruct (walk_entries pd bts r st1) as [p2 st2]. cbn [snd] in *.
      eapply walked_trans; eassumption. }
    destruct (walk_entries pd bts es st) as [inner st']. exact H.
  - cbn [walk_term]. destruct (truthy v && negb ne); [apply walked_refl |].
    unfold walked. cbn [hasAll nothing walk_world snd]. auto.
  - cbn [walk_term]. destruct (truthy v && negb ne); [apply walked_refl |].
    unfold walked. cbn [hasAll nothing walk_world snd]. auto.
  - cbn [walk_term]. destruct l; [| apply walked_refl].
    unfold walked. cbn [hasAll nothing walk_world snd].
    rewrite db_emit, trace_emit, forallb_app.
    repeat split; auto. intros ->. reflexivity.
Qed.

Lemma walkQuery_walked pd bts ne node st :
  walked st (snd (walkQuery pd bts ne node st)).
Proof.
  unfold walkQuery. destruct (hasAll st || nothing st); [apply walked_refl |].
  apply walk_each_walked. intros t _ ne' st'. apply walk_term_walked.
Qed.

Lemma max_modseq h m :
  (if h <? modseq m then modseq m else h) = Z.max h (modseq m).
Proof. destruct (Z.ltb_spec h (modseq m)); lia. Qed.

Lemma search_processNext_any fault cursor :
  forall n h l w,
    let r := search_processNext fault cursor n h l w in
    db r = db w
    /\ (forallb is_callback (trace w) = true ->
        forallb is_callback (trace r) = true)
    /\ ((forall k, fault (OpCursorNext k) = false) ->
        trace r
        = trace w
          ++ [EvCallback
                [JNull;
                 JObj [("uidList", num_array (l ++ map uid cursor));
                       ("highestModseq",
                        JNum (fold_left Z.max (map modseq cursor) h))]]]).
Proof.
  induction cursor as [|m rest IH]; intros n h l w; cbn zeta;
    cbn [search_processNext].
  - destruct (fault (OpCursorNext n)) eqn:Hf.
    + split; [reflexivity |]. split.
      * intro H. rewrite trace_emit, forallb_app, H. reflexivity.
      * intro Hok. rewrite Hok in Hf. discriminate.
    + split; [reflexivity |]. split.
      * intro H. rewrite trace_emit, forallb_app, H. reflexivity.
      * intros _. rewrite trace_emit. cbn [map fold_left]. rewrite app_nil_r.
        reflexivity.
  - destruct (fault (OpCursorNext n)) eqn:Hf.
    + split; [reflexivity |]. split.
      * intro H. rewrite trace_emit, forallb_app, H. reflexivity.
      * intro Hok. rewrite Hok in Hf. discriminate.
    + destruct (IH (S n) (if h <? modseq m then modseq m else h)
                  (l ++ [uid m]) w) as (H1 & H2 & H3).
      split; [exact H1 |]. split; [exact H2 |].
      intro Hok. rewrite (H3 Hok). rewrite max_modseq, <- app_assoc. reflexivity.
Qed.

(** X23. SEARCH reads only, whatever the criteria are and whichever storage
    calls fail: the database is left as it was and nothing is done but
    calling back. *)
Theorem search_reads_only :
  forall (fault : op -> bool) (parse_date : string -> Z)
         (binary_to_string : string -> string)
         (run_query : jsval -> DB -> list message)
         (path : string) (query : list term) (s : session) (d : DB),
    let r := onSearch fault parse_date binary_to_string run_query path query s
                      (start d) in
    db r = d /\ forallb is_callback (trace r) = true.
Proof.
  intros fault pd bts run_query path query s d. cbn zeta. unfold onSearch.
  destruct (fault _); [split; reflexivity |].
  destruct (find_mailbox _ _ _) as [mailbox|]; [| split; reflexivity].
  pose proof (walkQuery_walked pd bts false query
                {| hasAll := false; nothing := false; walk_world := start d |})
    as (_ & _ & Hd & Ht).
  destruct (walkQuery pd bts false query _) as [pushed st]. cbn [snd walk_world] in *.
  change (db (start d)) with d in Hd.
  specialize (Ht eq_refl).
  destruct (nothing st).
  - rewrite db_emit, trace_emit, forallb_app, Ht. split; [exact Hd | reflexivity].
  - match goal with
    | |- context [search_processNext _ ?c ?n ?h ?l ?w] =>
        destruct (search_processNext_any fault c n h l w) as (H1 & H2 & _)
    end.
    split; [rewrite H1; exact Hd | exact (H2 Ht)].
Qed.

(** X24. The answer of SEARCH when no storage call fails and the walk over the
    criteria did not give up: after what the walk itself called back, one
    callback with the uids of the messages the database finds, in the order
    it hands them over, and the greatest of their modseqs (0 when none is
    above 0).  The query names the mailbox and the clauses of the walk; with
    ALL among the criteria it names the mailbox only, whatever the other
    criteria are. *)
Theorem search_answers_with_matches :
  forall (fault : op -> bool) (parse_date : string -> Z)
         (binary_to_string : string -> string)
         (run_query : jsval -> DB -> list message)
         (path : string) (query : list term) (s : session) (d : DB)
         (mailbox : mailbox),
    reliable fault ->
    find_mailbox d (sess_user s) path = Some mailbox ->
    let walk := walkQuery parse_date binary_to_string false query
                          {| hasAll := false; nothing := false;
                             walk_world := start d |} in
    nothing (snd walk) = false ->
    let q := if hasAll (snd walk)
             then JObj [("mailbox", JId (mb_id mailbox))]
             else JObj [("mailbox", JId (mb_id mailbox)); ("$and", JArr (fst walk))] in
    let found := run_query q d in
    let r := onSearch fault parse_date binary_to_string run_query path query s
                      (start d) in
    trace r
    = trace (walk_world (snd walk)) ++ [EvCallback [JNull; search_result found]]
    /\ Forall (fun m => modseq m <= highest_modseq found) found
    /\ (highest_modseq found = 0 \/ In (highest_modseq found) (map modseq found))
    /\ (In TAll query -> q = JObj [("mailbox", JId (mb_id mailbox))]).
Proof.
  intros fault pd bts run_query path query s d mailbox Hok Hfind walk Hnot q found r.
  assert (Hmax : forall l h,
             h <= fold_left Z.max l h
             /\ Forall (fun x => x <= fold_left Z.max l h) l
             /\ (fold_left Z.max l h = h \/ In (fold_left Z.max l h) l)).
  { induction l as [|x l IH]; intro h; cbn [fold_left].
    - split; [lia |]. split; [constructor | left; reflexivity].
    - destruct (IH (Z.max h x)) as (H1 & H2 & H3).
      split; [lia |]. split; [constructor; [lia | exact H2] |].
      destruct H3 as [H3 | H3]; [| right; right; exact H3].
      destruct (Z.max_spec h x) as [[_ E] | [_ E]]; rewrite E in H3 |- *.
      + right. left. symmetry. exact H3.
      + left. exact H3. }
  split; [| split; [| split]].
  - subst r. unfold onSearch. rewrite Hok. change (db (start d)) with d.
    rewrite Hfind.
    pose proof (walkQuery_walked pd bts false query
                  {| hasAll := false; nothing := false; walk_world := start d |})
      as (_ & _ & Hd & _).
    subst found q. fold walk in Hd |- *.
    destruct walk as [pushed st]. cbn [fst snd walk_world] in *.
    rewrite Hnot. change (db (start d)) with d in Hd. rewrite Hd.
    match goal with
    | |- context [search_processNext _ ?c ?n ?h ?l ?w] =>
        destruct (search_processNext_any fault c n h l w) as (_ & _ & H)
    end.
    rewrite H by (intro k; apply Hok). reflexivity.
  - destruct (Hmax (map modseq found) 0) as (_ & H & _).
    unfold highest_modseq. rewrite Forall_map in H. exact H.
  - destruct (Hmax (map modseq found) 0) as (_ & _ & H). exact H.
  - intro Hall. subst q.
    assert (H : hasAll (snd walk) = true); [| rewrite H; reflexivity].
    subst walk. unfold walkQuery. cbn [hasAll nothing orb].
    assert (Hgen : forall node st,
               In TAll node -> hasAll (snd (walk_each pd bts false node st)) = true).
    { induction node as [|t more IH]; intros st Hin; [contradiction |].
      cbn [walk_each].
      destruct Hin as [-> | Hin].
      - cbn [walk_term negb].
        pose proof (walk_each_walked pd bts false more
                      (fun t _ ne st => walk_term_walked pd bts t ne st)
                      {| hasAll := true; nothing := nothing st;
                         walk_world := walk_world st |}) as (H1 & _).
        destruct (walk_each pd bts false more _) as [p2 st2]. cbn [snd] in *.
        apply H1. reflexivity.
      - destruct (walk_term pd bts false t st) as [p1 st1].
        specialize (IH st1 Hin).
        destruct (walk_each pd bts false more st1) as [p2 st2]. exact IH. }
    apply Hgen. exact Hall.
Qed.

Lemma search_answers_with_matches_witness :
  trace (onSearch Sample.no_fault Sample.parse_date Sample.binary_to_string
                  Sample.run_query "Drafts" [TModseq 1; TAll] Sample.s1
                  (start Sample.db0))
  = [EvCallback [JNull; JObj [("uidList", JArr [JNum 9; JNum 7]);
                              ("highestModseq", JNum 5)]]].
Proof.
  exact (proj1 (@search_answers_with_matches Sample.no_fault Sample.parse_date
                  Sample.binary_to_string Sample.run_query "Drafts"
                  [TModseq 1; TAll] Sample.s1 Sample.db0
                  (Sample.box 1 "Drafts" 100 10 5) (fun o => eq_refl) eq_refl
                  eq_refl)).
Defined.

(** X25. A text or body criterion that is empty, or that stands alone under a
    NOT, cannot be searched for: with one among the criteria SEARCH answers
    with the empty result and does not ask the database, whatever the other
    criteria are and whatever is stored. *)
Theorem search_unsearchable_finds_nothing :
  forall (fault : op -> bool) (parse_date : string -> Z)
         (binary_to_string : string -> string)
         (run_query : jsval -> DB -> list message)
         (path : string) (t : term) (rest : list term) (s : session) (d : DB)
         (mailbox : mailbox),
    fault (OpFindMailbox (sess_user s) path) = false ->
    find_mailbox d (sess_user s) path = Some mailbox ->
    unsearchable t = true ->
    let r := onSearch fault parse_date binary_to_string run_query path (t :: rest)
                      s (start d) in
    exists before,
      trace r = before ++ [EvCallback [JNull; empty_result]]
      /\ (forall other_query : jsval -> DB -> list message,
             onSearch fault parse_date binary_to_string other_query path
                      (t :: rest) s (start d) = r).
Proof.
  intros fault pd bts run_query path t rest s d mailbox Hf Hfind Ht. cbn zeta.
  assert (Hfirst : nothing (snd (walk_term pd bts false t
                                   {| hasAll := false; nothing := false;
                                      walk_world := start d |})) = true).
  { destruct t as [|ts|es|v|v|v|l|v|v e|h v|op v|op v|op v|k];
      try discriminate Ht; cbn [unsearchable] in Ht.
    - destruct ts as [|[|ts'|es|v|v|v|l|v|v e|h v|op v|op v|op v|k] [|t2 r2]];
        try discriminate Ht; rewrite walk_term_not; unfold walkQuery;
        cbn [hasAll nothing orb walk_each walk_term negb andb snd];
        rewrite andb_false_r; reflexivity.
    - cbn [walk_term]. apply negb_true_iff in Ht. rewrite Ht. reflexivity.
    - cbn [walk_term]. apply negb_true_iff in Ht. rewrite Ht. reflexivity. }
  assert (Hnothing :
             nothing (snd (walkQuery pd bts false (t :: rest)
                             {| hasAll := false; nothing := false;
                                walk_world := start d |})) = true).
  { unfold walkQuery. cbn [hasAll nothing orb walk_each].
    destruct (walk_term pd bts false t _) as [p1 st1]. cbn [snd] in Hfirst.
    pose proof (walk_each_walked pd bts false rest
                  (fun t _ ne st => walk_term_walked pd bts t ne st) st1)
      as (_ & H & _).
    destruct (walk_each pd bts false rest st1) as [p2 st2]. cbn [snd] in *.
    apply H. exact Hfirst. }
  unfold onSearch. rewrite Hf. change (db (start d)) with d. rewrite Hfind.
  destruct (walkQuery pd bts false (t :: rest) _) as [pushed st]. cbn [snd] in Hnothing.
  rewrite Hnothing. exists (trace (walk_world st)).
  split; [apply trace_emit | reflexivity].
Qed.

Lemma search_unsearchable_finds_nothing_witness :
  exists before,
    trace (onSearch Sample.no_fault Sample.parse_date Sample.binary_to_string
                    Sample.run_query "Drafts" [TNot [TText "draft"]; TModseq 1]
                    Sample.s1 (start Sample.db0))
    = before ++ [EvCallback [JNull; empty_result]].
Proof.
  destruct (@search_unsearchable_finds_nothing Sample.no_fault Sample.parse_date
              Sample.binary_to_string Sample.run_query "Drafts"
              (TNot [TText "draft"]) [TModseq 1] Sample.s1 Sample.db0
              (Sample.box 1 "Drafts" 100 10 5) eq_refl eq_refl eq_refl)
    as (before & H & _).
  exists before. exact H.
Defined.

(** ** STORE: what a run without failures stores *)

Lemma insert_by_uid_perm m l : Permutation (insert_by_uid m l) (m :: l).
Proof.
  induction l as [|x r IH]; [apply Permutation_refl |]. cbn [insert_by_uid].
  destruct (uid m <=? uid x); [apply Permutation_refl |].
  eapply perm_trans; [apply perm_skip; exact IH | apply perm_swap].
Qed.

Lemma sort_by_uid_perm l : Permutation (sort_by_uid l) l.
Proof.
  induction l as [|x r IH]; [apply perm_nil |].
  cbn [sort_by_uid fold_right]. fold (sort_by_uid r).
  eapply perm_trans; [apply insert_by_uid_perm | apply perm_skip; exact IH].
Qed.

Lemma NoDup_ids_filter (q : message -> bool) l :
  NoDup (map msg_id l) -> NoDup (map msg_id (filter q l)).
Proof.
  induction l as [|x r IH]; intro H; [exact H |].
  cbn [map] in H. inversion H as [|? ? Hx Hr]; subst. cbn [filter].
  destruct (q x); [| apply IH; exact Hr].
  cbn [map]. constructor; [| apply IH; exact Hr].
  intro Hin. apply Hx. apply in_map_iff in Hin. destruct Hin as (y & Hy & Hin).
  apply filter_In in Hin. apply in_map_iff. exists y. tauto.
Qed.

Lemma NoDup_ids_find_messages q d :
  unique_ids d -> NoDup (map msg_id (find_messages q d)).
Proof.
  intro H. unfold find_messages.
  eapply Permutation_NoDup.
  - apply Permutation_map. apply Permutation_sym. apply sort_by_uid_perm.
  - apply NoDup_ids_filter. exact H.
Qed.

Lemma msg_id_frame a b : message_frame a = message_frame b -> msg_id a = msg_id b.
Proof. intro H. apply (f_equal msg_id) in H. exact H. Qed.

Lemma ids_update_one id u l :
  (forall m, msg_id (apply_update u m) = msg_id m) ->
  map msg_id (update_one id u l) = map msg_id l.
Proof.
  intro H. induction l as [|m r IH]; [reflexivity |]. cbn [update_one].
  destruct (msg_id m =? id); cbn [map]; [rewrite H | rewrite IH]; reflexivity.
Qed.

Lemma length_update_one id u l :
  List.length (update_one id u l) = List.length l.
Proof.
  induction l as [|m r IH]; [reflexivity |]. cbn [update_one].
  destruct (msg_id m =? id); cbn [List.length]; [| rewrite IH]; reflexivity.
Qed.

Lemma length_fold_update_one ops :
  forall l,
    List.length (fold_left (fun l o => update_one (fst o) (snd o) l) ops l)
    = List.length l.
Proof.
  induction ops as [|o r IH]; intro l; [reflexivity |].
  cbn [fold_left]. rewrite IH. apply length_update_one.
Qed.

Lemma In_update_one_hit u l x :
  NoDup (map msg_id l) -> In x l ->
  In (apply_update u x) (update_one (msg_id x) u l).
Proof.
  induction l as [|m r IH]; intros Hnd Hin; [contradiction |].
  cbn [map] in Hnd. inversion Hnd as [|? ? Hm Hr]; subst. cbn [update_one].
  destruct (Z.eqb_spec (msg_id m) (msg_id x)) as [He | Hne].
  - destruct Hin as [-> | Hin]; [left; reflexivity |].
    exfalso. apply Hm. rewrite He. apply in_map. exact Hin.
  - destruct Hin as [-> | Hin]; [contradiction Hne; reflexivity |].
    right. apply IH; assumption.
Qed.

Lemma In_fold_update_one_miss ops :
  forall l x,
    Forall (fun o => fst o <> msg_id x) ops -> In x l ->
    In x (fold_left (fun l o => update_one (fst o) (snd o) l) ops l).
Proof.
  induction ops as [|o r IH]; intros l x H Hin; [exact Hin |].
  inversion H as [|? ? Ho Hr]; subst. cbn [fold_left].
  apply (IH _ _ Hr). apply In_update_one; [exact Hin | congruence].
Qed.

Lemma In_fold_update_one_hit ops :
  forall l x upd,
    (forall o m, In o ops -> msg_id (apply_update (snd o) m) = msg_id m) ->
    NoDup (map fst ops) -> NoDup (map msg_id l) ->
    In (msg_id x, upd) ops -> In x l ->
    In (apply_update upd x)
       (fold_left (fun l o => update_one (fst o) (snd o) l) ops l).
Proof.
  induction ops as [|o r IH]; intros l x upd Hid Hops Hl Hin Hx; [contradiction |].
  cbn [map] in Hops. inversion Hops as [|? ? Ho Hr]; subst. cbn [fold_left].
  destruct Hin as [-> | Hin].
  - cbn [fst snd]. apply In_fold_update_one_miss.
    + apply Forall_forall. intros o' Ho' He. apply Ho.
      pose proof (Hid (msg_id x, upd) x (or_introl eq_refl)) as E.
      cbn [fst snd] in *. rewrite E in He.
      rewrite <- He. apply in_map. exact Ho'.
    + apply In_update_one_hit; assumption.
  - apply IH.
    + intros o' m Ho'. apply Hid. right. exact Ho'.
    + exact Hr.
    + rewrite ids_update_one; [exact Hl |]. intro m. apply Hid. left. reflexivity.
    + exact Hin.
    + apply In_update_one; [exact Hx |]. intro He. apply Ho. rewrite <- He.
      apply (in_map fst _ (msg_id x, upd)). exact Hin.
Qed.

Section StoreDb.

Variable fault : op -> bool.
Variable systemFlags : list string.
Variable path : string.
Variable u : update.
Variable s : session.
Variable mailbox : mailbox.

Hypothesis ok : reliable fault.

Lemma store_processNext_db cursor :
  forall n ue ne w,
    messages (db (store_processNext fault systemFlags path u s mailbox cursor n
                                    ue ne w))
    = fold_left (fun l o => update_one (fst o) (snd o) l)
                (ue ++ map (fun m => (msg_id m, store_flagsupdate u m))
                           (filter (store_updated u) cursor))
                (messages (db w)).
Proof.
  induction cursor as [|m rest IH]; intros n ue ne w; cbn [store_processNext];
    rewrite ok.
  - cbn [filter map]. rewrite app_nil_r. unfold store_done, store_finish.
    cbn [js_truthy]. destruct ue as [|o ue'].
    + rewrite db_emit, messages_updateMailboxFlags, db_emit. reflexivity.
    + rewrite db_emit, messages_updateMailboxFlags, !db_emit.
      unfold write_updates. rewrite ok, db_with_db, db_emit. reflexivity.
  - destruct (store_flags u m) as [[fl upd] fu] eqn:E.
    destruct (store_updated_eq _ _ E) as (Efl & Eupd & Efu).
    cbn [filter]. rewrite Eupd.
    assert (Hw1 : messages (db (if silent u then w
                                else emit (EvWrite (store_response u m fl)) w))
                  = messages (db w)) by (destruct (silent u); reflexivity).
    destruct upd; [| rewrite IH, Hw1; reflexivity].
    cbn [map]. rewrite Efu.
    destruct (BULK_BATCH_SIZE <=? _)%nat.
    + rewrite ok, IH. rewrite !db_emit. unfold write_updates.
      rewrite ok, db_with_db, db_emit. unfold bulk_write.
      cbn [messages with_messages app]. rewrite Hw1.
      rewrite <- fold_left_app, <- app_assoc. reflexivity.
    + rewrite IH, Hw1, <- app_assoc. reflexivity.
Qed.

End StoreDb.

Lemma flags_store_set u m x :
  action u = "set" -> flags (apply_update (store_flagsupdate u m) x) = value u.
Proof.
  intro Ha. unfold store_flagsupdate, store_flags. rewrite Ha.
  cbn [String.eqb Ascii.eqb Bool.eqb andb snd].
  unfold apply_update.
  cbn [obj_get String.eqb Ascii.eqb Bool.eqb andb fold_left set_field].
  unfold str_array. cbn iota.
  change (JArr (map JStr (value u))) with (str_array (value u)).
  rewrite strings_of_str_array. reflexivity.
Qed.

(** X26. What STORE stores when no storage call fails and the message ids are
    unique: every message the command changes is stored with the update of
    the command applied to it, keeping its id, uid, modseq, size and
    content, and every other message is stored as it was; no message is
    added or lost.  With the action [set] a changed message ends with
    exactly the flags of the command, and its three booleans agree with
    them. *)
Theorem store_stores_the_update :
  forall (fault : op -> bool) (systemFlags : list string) (path : string)
         (u : update) (s : session) (d : DB) (mailbox : mailbox),
    reliable fault ->
    unique_ids d ->
    find_mailbox d (sess_user s) path = Some mailbox ->
    let matched := find_messages (store_query mailbox u) d in
    let r := onStore fault systemFlags path u s (start d) in
    (forall x, In x matched -> store_updated u x = true ->
               let x' := apply_update (store_flagsupdate u x) x in
               In x' (messages (db r))
               /\ message_frame x' = message_frame x
               /\ (action u = "set" -> flags x' = value u /\ denormalized x'))
    /\ (forall x, In x (messages d) ->
                  ~ (In x matched /\ store_updated u x = true) ->
                  In x (messages (db r)))
    /\ List.length (messages (db r)) = List.length (messages d).
Proof.
  intros fault systemFlags path u s d mailbox Hok Hids Hfind matched r.
  set (ops := map (fun m => (msg_id m, store_flagsupdate u m))
                  (filter (store_updated u) matched)).
  assert (Hr : messages (db r)
               = fold_left (fun l o => update_one (fst o) (snd o) l) ops
                           (messages d)).
  { subst r. unfold onStore. rewrite Hok. change (db (start d)) with d.
    rewrite Hfind. rewrite store_processNext_db by exact Hok. reflexivity. }
  assert (Hframe : forall x m,
             message_frame (apply_update (store_flagsupdate u x) m)
             = message_frame m).
  { intros x m. apply frame_apply_update. apply store_flagsupdate_set. }
  assert (Hid : forall o m, In o ops -> msg_id (apply_update (snd o) m) = msg_id m).
  { intros o m Ho. apply in_map_iff in Ho. destruct Ho as (x & <- & _).
    cbn [snd]. apply msg_id_frame. apply Hframe. }
  assert (Hops : NoDup (map fst ops)).
  { subst ops. rewrite map_map. cbn [fst].
    apply NoDup_ids_filter. apply NoDup_ids_find_messages. exact Hids. }
  split; [| split].
  - intros x Hx Hupd. cbn zeta. split; [| split].
    + rewrite Hr. apply In_fold_update_one_hit; try assumption.
      * subst ops. apply in_map_iff. exists x. split; [reflexivity |].
        apply filter_In. split; assumption.
      * apply In_find_messages in Hx. tauto.
    + apply Hframe.
    + intro Ha. split; [apply flags_store_set; exact Ha |].
      apply store_set_denormalized. exact Ha.
  - intros x Hx Hno. rewrite Hr. apply In_fold_update_one_miss; [| exact Hx].
    apply Forall_forall. intros o Ho He. apply Hno.
    subst ops. apply in_map_iff in Ho. destruct Ho as (y & <- & Hy).
    cbn [fst] in He. apply filter_In in Hy. destruct Hy as [Hy Hu].
    assert (y = x).
    { apply (@unique_ids_eq (messages d)); try assumption.
      apply In_find_messages in Hy. tauto. }
    subst y. split; assumption.
  - rewrite Hr. apply length_fold_update_one.
Qed.

Lemma store_stores_the_update_witness :
  In (Sample.msg 11 1 9 5 ["\Seen"; "\Deleted"] 50)
     (messages (db (onStore Sample.no_fault Sample.systemFlags "Drafts"
                            (Sample.store "set" ["\Seen"; "\Deleted"] [9] None)
                            Sample.s1 (start Sample.db0)))).
Proof.
  assert (Hids : unique_ids Sample.db0).
  { unfold unique_ids. cbn. repeat constructor; cbn; intuition discriminate. }
  refine (proj1 (proj1 (@store_stores_the_update Sample.no_fault Sample.systemFlags
                          "Drafts" (Sample.store "set" ["\Seen"; "\Deleted"] [9] None)
                          Sample.s1 Sample.db0 (Sample.box 1 "Drafts" 100 10 5)
                          (fun o => eq_refl) Hids eq_refl)
                       (Sample.msg 11 1 9 5 [] 50) _ eq_refl)).
  cbn. left. reflexivity.
Defined.

(** ** FETCH: the responses and the marks *)

Lemma written_fetch_done fault path s args isUpdated ue ne w :
  written (trace (fetch_done fault path s args isUpdated ue ne w))
  = written (trace w).
Proof.
  rewrite trace_fetch_done, !written_app.
  destruct ue; [destruct isUpdated |]; cbn [written flat_map app];
    rewrite ?app_nil_r; reflexivity.
Qed.

Lemma messages_fetch_done fault path s args isUpdated ue ne w :
  reliable fault ->
  messages (db (fetch_done fault path s args isUpdated ue ne w))
  = fold_left (fun l op => update_one (fst op) (snd op) l) ue (messages (db w)).
Proof.
  intro Hok. unfold fetch_done. destruct ue as [|x ue'].
  - destruct isUpdated; rewrite ?db_emit; reflexivity.
  - rewrite !db_emit. unfold write_updates. rewrite Hok, db_with_db, db_emit.
    reflexivity.
Qed.

Section FetchWritten.

Variable fault : op -> bool.
Variable getQueryResponse : jsval -> message -> jsval.
Variable path : string.
Variable o : fetch_options.
Variable s : session.

Lemma fetch_processNext_written cursor :
  forall n isUpdated ue ne w,
    let r := fetch_processNext fault getQueryResponse path o s cursor n
                               isUpdated ue ne w in
    exists k,
      (k <= List.length cursor)%nat
      /\ written (trace r)
         = written (trace w)
           ++ map (fetch_response getQueryResponse o) (firstn k cursor)
      /\ (reliable fault ->
          k = List.length cursor
          /\ messages (db r)
             = fold_left (fun l op => update_one (fst op) (snd op) l)
                         (ue ++ map (fun m => (msg_id m, seen_update))
                                    (filter (fun m => markAsSeen o
                                                      && negb (includes (flags m) "\Seen"))
                                            cursor))
                         (messages (db w))).
Proof.
  induction cursor as [|m rest IH]; intros n isUpdated ue ne w; cbn zeta;
    cbn [fetch_processNext].
  - exists 0%nat. split; [lia |]. cbn [firstn map filter List.length].
    rewrite !app_nil_r.
    destruct (fault (OpCursorNext n)); (split; [apply written_fetch_done |]);
      intro Hok; (split; [reflexivity | apply messages_fetch_done; exact Hok]).
  - destruct (fault (OpCursorNext n)) eqn:Hnext.
    { exists 0%nat. split; [lia |]. cbn [firstn map]. rewrite app_nil_r.
      split; [apply written_fetch_done |].
      intro Hok. rewrite Hok in Hnext. discriminate. }
    cbn [filter].
    fold (fetch_shown o m). fold (fetch_response getQueryResponse o m).
    set (w1 := emit (EvWrite (fetch_response getQueryResponse o m)) w).
    assert (Hw1 : written (trace w1)
                  = written (trace w) ++ [fetch_response getQueryResponse o m]).
    { subst w1. rewrite trace_emit, written_app. reflexivity. }
    assert (Hd1 : db w1 = db w) by reflexivity.
    clearbody w1.
    destruct (fault (OpStream _)) eqn:Hstream.
    { exists 1%nat. split; [cbn [List.length]; lia |]. cbn [firstn map].
      split.
      - rewrite written_fetch_done, !trace_emit, !written_app, Hw1.
        cbn [written flat_map app]. rewrite !app_nil_r. reflexivity.
      - intro Hok. rewrite Hok in Hstream. discriminate. }
    destruct (markAsSeen o && negb (includes (flags m) "\Seen")) eqn:Hmark;
      cbn [negb].
    2:{ destruct (IH (S n) isUpdated ue ne w1) as (k & Hk & Hwr & Hrel).
        exists (S k). split; [cbn [List.length]; lia |]. cbn [firstn map].
        split; [rewrite Hwr, Hw1, <- app_assoc; reflexivity |].
        intro Hok. destruct (Hrel Hok) as [-> Hm].
        split; [reflexivity | rewrite Hm, Hd1; reflexivity]. }
    assert (Hid : msg_id (fetch_shown o m) = msg_id m).
    { unfold fetch_shown. rewrite Hmark. reflexivity. }
    rewrite Hid. cbn [map].
    destruct (BULK_BATCH_SIZE <=? _)%nat.
    + destruct (fault (OpBulkWrite _)) eqn:Hbulk.
      { exists 1%nat. split; [cbn [List.length]; lia |]. cbn [firstn map].
        split.
        - rewrite written_fetch_done, trace_emit, written_app, Hw1.
          cbn [written flat_map app]. rewrite !app_nil_r. reflexivity.
        - intro Hok. rewrite Hok in Hbulk. discriminate. }
      match goal with
      | |- context [fetch_processNext _ _ _ _ _ rest (S n) true [] [] ?w4] =>
          destruct (IH (S n) true [] [] w4) as (k & Hk & Hwr & Hrel)
      end.
      exists (S k). split; [cbn [List.length]; lia |]. cbn [firstn map].
      split.
      * rewrite Hwr, !trace_emit, trace_write_updates, !written_app, Hw1.
        cbn [written flat_map app]. rewrite !app_nil_r, <- app_assoc. reflexivity.
      * intro Hok. destruct (Hrel Hok) as [-> Hm].
        split; [reflexivity |]. rewrite Hm. rewrite !db_emit.
        unfold write_updates. rewrite Hok, db_with_db, db_emit, Hd1.
        unfold bulk_write. cbn [messages with_messages app].
        rewrite <- fold_left_app, <- app_assoc. reflexivity.
    + destruct (IH (S n) true (ue ++ [(msg_id m, seen_update)])
                  (ne ++ [fetch_entry s (fetch_shown o m)]) w1)
        as (k & Hk & Hwr & Hrel).
      exists (S k). split; [cbn [List.length]; lia |]. cbn [firstn map].
      split; [rewrite Hwr, Hw1, <- app_assoc; reflexivity |].
      intro Hok. destruct (Hrel Hok) as [-> Hm].
      split; [reflexivity |]. rewrite Hm, Hd1, <- app_assoc. reflexivity.
Qed.

End FetchWritten.

Lemma firstn_sorted {A} (R : A -> A -> Prop) k l :
  Sorted R l -> Sorted R (firstn k l).
Proof.
  revert l. induction k as [|k IH]; intros l H; [constructor |].
  destruct l as [|x l]; [constructor |]. cbn [firstn].
  inversion H as [|? ? Hs Hh]; subst. constructor; [apply IH; exact Hs |].
  destruct l as [|y l]; [destruct k; constructor |].
  destruct k; [constructor |]. cbn [firstn]. constructor.
  inversion Hh; subst. assumption.
Qed.

(** X27. FETCH answers by ascending uid, each matching message at most once:
    whichever storage calls fail, the responses written are those of the
    first matching messages, in their order, and of all of them when nothing
    fails.  In a run without failures over unique message ids every
    matching message that lacked [\Seen] is stored marked when [markAsSeen]
    is set, and every other message is stored as it was. *)
Theorem fetch_answers_in_uid_order :
  forall (fault : op -> bool) (getQueryResponse : jsval -> message -> jsval)
         (path : string) (o : fetch_options) (s : session) (d : DB)
         (mailbox : mailbox),
    fault (OpFindMailbox (sess_user s) path) = false ->
    find_mailbox d (sess_user s) path = Some mailbox ->
    let matched := find_messages (fetch_query mailbox o) d in
    let r := onFetch fault getQueryResponse path o s (start d) in
    exists k,
      (k <= List.length matched)%nat
      /\ written (trace r)
         = map (fetch_response getQueryResponse o) (firstn k matched)
      /\ map resp_uid (written (trace r)) = map uid (firstn k matched)
      /\ Sorted Z.le (map resp_uid (written (trace r)))
      /\ (reliable fault ->
          k = List.length matched
          /\ (unique_ids d ->
              (forall x, In x matched -> In (fetch_stored o x) (messages (db r)))
              /\ (forall x, In x (messages d) -> ~ In x matched ->
                            In x (messages (db r))))).
Proof.
  intros fault getQueryResponse path o s d mailbox Hf Hfind matched r.
  assert (Hr : r = fetch_processNext fault getQueryResponse path o s matched 0
                                     false [] [] (start d)).
  { subst r. unfold onFetch. rewrite Hf. change (db (start d)) with d.
    rewrite Hfind. reflexivity. }
  destruct (@fetch_processNext_written fault getQueryResponse path o s matched
              0%nat false [] [] (start d)) as (k & Hk & Hwr & Hrel).
  cbn zeta in Hwr, Hrel. rewrite <- Hr in Hwr, Hrel.
  change (trace (start d)) with (@nil event) in Hwr.
  change (db (start d)) with d in Hrel. cbn [written flat_map app] in Hwr, Hrel.
  assert (Huids : map resp_uid (written (trace r)) = map uid (firstn k matched)).
  { rewrite Hwr, map_map. apply map_ext. intro m. cbn [resp_uid fetch_response].
    unfold fetch_shown. destruct (_ && _); reflexivity. }
  exists k. split; [exact Hk |]. split; [exact Hwr |]. split; [exact Huids |].
  split.
  { rewrite Huids. apply Sorted_map_uid. apply firstn_sorted.
    apply Sorted_sort_by_uid. }
  intro Hok. destruct (Hrel Hok) as [Hall Hms]. split; [exact Hall |].
  intro Hids.
  set (ops := map (fun m => (msg_id m, seen_update))
                  (filter (fun m => markAsSeen o && negb (includes (flags m) "\Seen"))
                          matched)) in *.
  assert (Hid : forall op m, In op ops -> msg_id (apply_update (snd op) m) = msg_id m).
  { intros op m Hop. apply in_map_iff in Hop. destruct Hop as (x & <- & _).
    reflexivity. }
  assert (Hops : NoDup (map fst ops)).
  { subst ops. rewrite map_map. cbn [fst].
    apply NoDup_ids_filter. apply NoDup_ids_find_messages. exact Hids. }
  split.
  - intros x Hx. rewrite Hms. unfold fetch_stored.
    destruct (markAsSeen o && negb (includes (flags x) "\Seen")) eqn:Hmark.
    + rewrite <- apply_seen_update. apply In_fold_update_one_hit; try assumption.
      * subst ops. apply in_map_iff. exists x. split; [reflexivity |].
        apply filter_In. split; assumption.
      * apply In_find_messages in Hx. tauto.
    + apply In_fold_update_one_miss; [| apply In_find_messages in Hx; tauto].
      apply Forall_forall. intros op Hop He.
      subst ops. apply in_map_iff in Hop. destruct Hop as (y & <- & Hy).
      cbn [fst] in He. apply filter_In in Hy. destruct Hy as [Hy Hu].
      assert (y = x).
      { apply (@unique_ids_eq (messages d)); try assumption;
          [apply In_find_messages in Hy | apply In_find_messages in Hx]; tauto. }
      subst y. congruence.
  - intros x Hx Hno. rewrite Hms. apply In_fold_update_one_miss; [| exact Hx].
    apply Forall_forall. intros op Hop He. apply Hno.
    subst ops. apply in_map_iff in Hop. destruct Hop as (y & <- & Hy).
    cbn [fst] in He. apply filter_In in Hy. destruct Hy as [Hy Hu].
    assert (y = x).
    { apply (@unique_ids_eq (messages d)); try assumption.
      apply In_find_messages in Hy. tauto. }
    subst y. exact Hy.
Qed.

Lemma fetch_answers_in_uid_order_witness :
  exists k,
    map resp_uid (written (trace (onFetch (Sample.torn_stream 11)
                                          Sample.getQueryResponse "Drafts"
                                          (Sample.fetch [7; 9]) Sample.s1
                                          (start Sample.db0))))
    = map uid (firstn k [Sample.msg 10 1 7 2 ["\Seen"] 30;
                         Sample.msg 11 1 9 5 [] 50]).
Proof.
  destruct (@fetch_answers_in_uid_order (Sample.torn_stream 11)
              Sample.getQueryResponse "Drafts" (Sample.fetch [7; 9]) Sample.s1
              Sample.db0 (Sample.box 1 "Drafts" 100 10 5) eq_refl eq_refl)
    as (k & _ & _ & H & _).
  exists k. exact H.
Defined.

(** ** The quota roots *)

(** X28. There is one quota root, the empty one, and it is the user's:
    GETQUOTAROOT answers for every mailbox of the user what GETQUOTA answers
    for the root [""]; for a path without mailbox, as GETQUOTA for any other
    root, the answer is NONEXISTENT and the user is not looked up.  The
    [storageUsed] that is reported is never negative. *)
Theorem quota_roots_agree :
  forall (fails : call -> bool) (maxStorage : Z) (path root : string)
         (s : session) (d : DB),
    fails (Basic (OpFindMailbox (sess_user s) path)) = false ->
    let by_mailbox := onGetQuotaRoot fails maxStorage path s (start d) in
    let by_root := onGetQuota fails maxStorage "" s (start d) in
    (forall m, find_mailbox d (sess_user s) path = Some m -> by_mailbox = by_root)
    /\ (find_mailbox d (sess_user s) path = None ->
        by_mailbox = emit (EvCallback [JNull; JStr "NONEXISTENT"]) (start d))
    /\ (root <> "" ->
        onGetQuota fails maxStorage root s (start d)
        = emit (EvCallback [JNull; JStr "NONEXISTENT"]) (start d))
    /\ (forall answer used,
           callbacks (trace by_root) = [[JNull; JObj answer]] ->
           obj_get "storageUsed" answer = Some (JNum used) -> 0 <= used).
Proof.
  intros fails maxStorage path root s d Hf. cbn zeta.
  unfold onGetQuotaRoot, onGetQuota. rewrite Hf. change (db (start d)) with d.
  cbn [String.eqb negb].
  split; [intros m ->; reflexivity |].
  split; [intros ->; reflexivity |].
  split.
  { intro Hroot. destruct (String.eqb_spec root ""); [contradiction | reflexivity]. }
  intros answer used Hcb Hget. unfold quota_lookup in Hcb.
  destruct (fails (CallFindUserById (sess_user s))); [cbn in Hcb; discriminate Hcb |].
  change (db (start d)) with d in Hcb.
  destruct (find_user_by_id d (sess_user s)) as [user|];
    [| cbn in Hcb; discriminate Hcb].
  cbn in Hcb. injection Hcb as <-. cbn in Hget. injection Hget as <-. lia.
Qed.

Lemma quota_roots_agree_witness :
  onGetQuotaRoot (fun _ => false) 1000 "Drafts" Sample.s1 (start Sample.db0)
  = onGetQuota (fun _ => false) 1000 "" Sample.s1 (start Sample.db0).
Proof.
  exact (proj1 (@quota_roots_agree (fun _ => false) 1000 "Drafts" "INBOX" Sample.s1
                  Sample.db0 eq_refl)
               (Sample.box 1 "Drafts" 100 10 5) eq_refl).
Defined.

(** ** EXPUNGE: every run *)

Section ExpungeRun.

Variable fault : op -> bool.
Variable path : string.
Variable u : update.
Variable s : session.
Variable mailbox : mailbox.

Lemma expunge_updateQuota_run dm ds w :
  let q := expunge_updateQuota fault mailbox dm ds w in
  callbacks (trace q) = callbacks (trace w)
  /\ added_entries (trace q) = added_entries (trace w)
  /\ messages (db q) = messages (db w)
  /\ mailboxes (db q) = mailboxes (db w)
  /\ storage_adjustments (trace q)
     = storage_adjustments (trace w)
       ++ match dm with
          | O => []
          | S _ => [(mb_user mailbox, - ds)]
          end
  /\ users (db q)
     = match dm with
       | O => users (db w)
       | S _ => if fault (OpIncStorageUsed (mb_user mailbox) (- ds))
                then users (db w)
                else inc_storageUsed (mb_user mailbox) (- ds) (users (db w))
       end.
Proof.
  cbn zeta. rewrite trace_expunge_updateQuota, callbacks_app, added_entries_app,
    storage_adjustments_app.
  destruct dm; cbn [expunge_updateQuota]; [rewrite !app_nil_r; repeat split |].
  unfold adjust_storage. destruct (fault _); cbn; rewrite !app_nil_r; repeat split.
Qed.

Lemma expunge_processNext_run cursor :
  forall n dm ds w,
    let r := expunge_processNext fault path u s mailbox cursor n dm ds w in
    exists k args,
      (k <= List.length cursor)%nat
      /\ callbacks (trace r) = callbacks (trace w) ++ [args]
      /\ added_entries (trace r)
         = added_entries (trace w) ++ map (expunge_entry s) (firstn k cursor)
      /\ messages (db r)
         = fold_left (fun l m => delete_one (msg_id m) l) (firstn k cursor)
                     (messages (db w))
      /\ mailboxes (db r) = mailboxes (db w)
      /\ storage_adjustments (trace r)
         = storage_adjustments (trace w)
           ++ match (dm + k)%nat with
              | O => []
              | S _ => [(mb_user mailbox, - (ds + sum_sizes (firstn k cursor)))]
              end
      /\ users (db r)
         = match (dm + k)%nat with
           | O => users (db w)
           | S _ =>
               if fault (OpIncStorageUsed (mb_user mailbox)
                                          (- (ds + sum_sizes (firstn k cursor))))
               then users (db w)
               else inc_storageUsed (mb_user mailbox)
                                    (- (ds + sum_sizes (firstn k cursor)))
                                    (users (db w))
           end
      /\ (args = [JNull; JBool true] -> k = List.length cursor)
      /\ ((forall i, fault (OpCursorNext i) = false) ->
          (forall id, fault (OpDeleteMessage id) = false) ->
          args = [JNull; JBool true]).
Proof.
  assert (Hstop : forall args dm ds w,
             let r := emit (EvCallback args)
                           (expunge_updateQuota fault mailbox dm ds w) in
             callbacks (trace r) = callbacks (trace w) ++ [args]
             /\ added_entries (trace r) = added_entries (trace w) ++ []
             /\ messages (db r) = messages (db w)
             /\ mailboxes (db r) = mailboxes (db w)
             /\ storage_adjustments (trace r)
                = storage_adjustments (trace w)
                  ++ match (dm + 0)%nat with
                     | O => []
                     | S _ => [(mb_user mailbox, - (ds + 0))]
                     end
             /\ users (db r)
                = match (dm + 0)%nat with
                  | O => users (db w)
                  | S _ =>
                      if fault (OpIncStorageUsed (mb_user mailbox) (- (ds + 0)))
                      then users (db w)
                      else inc_storageUsed (mb_user mailbox) (- (ds + 0))
                                           (users (db w))
                  end).
  { intros args dm ds w. cbn zeta.
    destruct (expunge_updateQuota_run dm ds w) as (Q1 & Q2 & Q3 & Q4 & Q5 & Q6).
    rewrite db_emit, trace_emit, callbacks_app, added_entries_app,
      storage_adjustments_app, Q1, Q2, Q3, Q4, Q5, Q6.
    rewrite Nat.add_0_r, Z.add_0_r.
    cbn [callbacks added_entries storage_adjustments flat_map app].
    rewrite !app_nil_r. repeat split. }
  induction cursor as [|m rest IH]; intros n dm ds w; cbn zeta;
    cbn [expunge_processNext].
  - exists 0%nat. cbn [firstn map fold_left sum_sizes fold_right List.length].
    destruct (fault (OpCursorNext n)) eqn:Hnext.
    + exists [storage_error].
      destruct (Hstop [storage_error] dm ds w) as (S1 & S2 & S3 & S4 & S5 & S6).
      split; [lia |]. split; [exact S1 |]. split; [exact S2 |].
      split; [exact S3 |]. split; [exact S4 |]. split; [exact S5 |].
      split; [exact S6 |]. split; [reflexivity |].
      intros Hn _. rewrite Hn in Hnext. discriminate.
    + exists [JNull; JBool true].
      destruct (expunge_updateQuota_run dm ds w) as (Q1 & Q2 & Q3 & Q4 & Q5 & Q6).
      split; [lia |].
      assert (Hsweep : forall w3,
                 (w3 = emit (EvFire (sess_user s) path)
                            (expunge_updateQuota fault mailbox dm ds w)
                  \/ w3 = with_db (fun d => with_attachments
                                              (sweep_attachments (attachments d)) d)
                                  (emit (EvFire (sess_user s) path)
                                        (expunge_updateQuota fault mailbox dm ds w))) ->
                 trace w3 = trace (expunge_updateQuota fault mailbox dm ds w)
                            ++ [EvFire (sess_user s) path]
                 /\ messages (db w3) = messages (db w)
                 /\ mailboxes (db w3) = mailboxes (db w)
                 /\ users (db w3)
                    = users (db (expunge_updateQuota fault mailbox dm ds w))).
      { intros w3 [-> | ->]; rewrite ?trace_with_db, ?db_with_db, trace_emit, db_emit;
          cbn [messages mailboxes users with_attachments]; auto. }
      match goal with
      | |- context [emit (EvCallback [JNull; JBool true]) ?w3] =>
          destruct (Hsweep w3) as (T1 & T2 & T3 & T4);
          [destruct (fault OpSweepAttachments); auto |]
      end.
      rewrite db_emit, trace_emit, T1, T2, T3, T4, Q6.
      rewrite !callbacks_app, !added_entries_app, !storage_adjustments_app,
        Q1, Q2, Q5, Nat.add_0_r, Z.add_0_r.
      cbn [callbacks added_entries storage_adjustments flat_map app].
      rewrite !app_nil_r. repeat split.
  - destruct (fault (OpCursorNext n)) eqn:Hnext.
    { exists 0%nat, [storage_error].
      cbn [firstn map fold_left sum_sizes fold_right].
      destruct (Hstop [storage_error] dm ds w) as (S1 & S2 & S3 & S4 & S5 & S6).
      split; [lia |]. split; [exact S1 |]. split; [exact S2 |].
      split; [exact S3 |]. split; [exact S4 |]. split; [exact S5 |].
      split; [exact S6 |]. split; [discriminate |].
      intros Hn _. rewrite Hn in Hnext. discriminate. }
    set (w1 := if silent u then w
               else emit (EvWrite {| resp_command := "EXPUNGE"; resp_uid := uid m;
                                     resp_data := [] |}) w).
    assert (Hw1 : callbacks (trace w1) = callbacks (trace w)
                  /\ added_entries (trace w1) = added_entries (trace w)
                  /\ storage_adjustments (trace w1) = storage_adjustments (trace w)
                  /\ db w1 = db w).
    { subst w1. destruct (silent u); [auto |].
      rewrite trace_emit, callbacks_app, added_entries_app, storage_adjustments_app.
      cbn. rewrite !app_nil_r. auto. }
    destruct Hw1 as (Hcb & Hae & Hsa & Hdb). clearbody w1.
    destruct (fault (OpDeleteMessage (msg_id m))) eqn:Hdel.
    { exists 0%nat, [storage_error].
      cbn [firstn map fold_left sum_sizes fold_right].
      destruct (Hstop [storage_error] dm ds w1) as (S1 & S2 & S3 & S4 & S5 & S6).
      rewrite Hcb, Hae, Hsa, Hdb in *.
      split; [lia |]. split; [exact S1 |]. split; [exact S2 |].
      split; [exact S3 |]. split; [exact S4 |]. split; [exact S5 |].
      split; [exact S6 |]. split; [discriminate |].
      intros _ Hd. rewrite Hd in Hdel. discriminate. }
    match goal with
    | |- context [expunge_processNext _ _ _ _ _ rest (S n) (S dm) ?ds' ?w4] =>
        destruct (IH (S n) (S dm) ds' w4)
          as (k & args & Hk & H1 & H2 & H3 & H4 & H5 & H6 & H7 & H8);
        assert (Hw4 : callbacks (trace w4) = callbacks (trace w)
                      /\ added_entries (trace w4)
                         = added_entries (trace w) ++ [expunge_entry s m]
                      /\ storage_adjustments (trace w4) = storage_adjustments (trace w)
                      /\ messages (db w4) = delete_one (msg_id m) (messages (db w))
                      /\ mailboxes (db w4) = mailboxes (db w)
                      /\ users (db w4) = users (db w))
    end.
    { destruct (fault (OpUnlinkAttachments (msg_id m)));
        rewrite ?trace_emit, ?trace_with_db, ?db_emit, ?db_with_db, ?trace_with_db,
          ?db_with_db, ?callbacks_app, ?added_entries_app, ?storage_adjustments_app,
          ?Hcb, ?Hae, ?Hsa, ?Hdb;
        cbn; rewrite ?app_nil_r; repeat split. }
    destruct Hw4 as (G1 & G2 & G3 & G4 & G5 & G6).
    exists (S k), args. rewrite H1, H2, H3, H4, H5, H6, G1, G2, G3, G4, G5, G6.
    cbn [firstn map sum_sizes fold_right fold_left List.length].
    fold (sum_sizes (firstn k rest)).
    rewrite number_or_zero_id.
    replace (dm + S k)%nat with (S dm + k)%nat by lia.
    replace (ds + size m + sum_sizes (firstn k rest))
      with (ds + (size m + sum_sizes (firstn k rest))) by lia.
    rewrite <- app_assoc. cbn [app].
    split; [lia |]. repeat split.
    + intro Ha. rewrite (H7 Ha). reflexivity.
    + exact H8.
Qed.

End ExpungeRun.

(** C6, as stated, fails: when the adjustment of [storageUsed] fails, the
    EXPUNGE of Drafts deletes the uids 7 and 9 (80 octets), completes with
    [(null, true)] and leaves [storageUsed] at 80. *)
Lemma expunge_storage_counterexample :
  let r := onExpunge Sample.failing_inc "Drafts" Sample.expunge Sample.s1
                     (start Sample.db1) in
  callbacks (trace r) = [[JNull; JBool true]]
  /\ map uid (messages (db r)) = [8]
  /\ sum_sizes (removed_messages Sample.db1 (db r)) = 80
  /\ storage_of Sample.db1 1 = Some 80
  /\ storage_of (db r) 1 = Some 80
  /\ ~ expunge_decrements_storage Sample.failing_inc "Drafts" Sample.expunge
                                  Sample.s1 Sample.db1.
Proof.
  cbn zeta. split; [reflexivity |]. split; [reflexivity |].
  split; [reflexivity |]. split; [reflexivity |]. split; [reflexivity |].
  intro H. specialize (H (Sample.box 1 "Drafts" 100 10 5) eq_refl).
  vm_compute in H. discriminate H.
Qed.

(** C6 (amended). In every run of EXPUNGE, whichever storage calls fail, the
    command completes once, having deleted the first messages of those marked
    deleted in the mailbox, by ascending uid, and all of them when it
    completes with [(null, true)]; it asks once for [storageUsed] of the
    owner of the mailbox to be adjusted by minus the summed sizes of the
    messages it deleted, and not at all when it deleted none; it writes no
    mailbox, so [uidNext] stays.  The outcome of that adjustment is not
    looked at: [storageUsed] goes down by the sum when the adjustment
    succeeds and stays as it was when it fails, and the command completes
    all the same.  Whenever reading the messages and deleting them do not
    fail the command completes with [(null, true)]: neither a failure of the
    sweep of the attachments nor one of the adjustment prevents it. *)
Theorem expunge_quota_and_frame :
  forall (fault : op -> bool) (path : string) (u : update) (s : session)
         (d : DB) (mailbox : mailbox),
    fault (OpFindMailbox (sess_user s) path) = false ->
    find_mailbox d (sess_user s) path = Some mailbox ->
    let gone := find_messages (expunge_query mailbox) d in
    let r := onExpunge fault path u s (start d) in
    exists k args,
      let removed := firstn k gone in
      let delta := - sum_sizes removed in
      callbacks (trace r) = [args]
      /\ messages (db r)
         = fold_left (fun l m => delete_one (msg_id m) l) removed (messages d)
      /\ storage_adjustments (trace r)
         = match removed with
           | [] => []
           | _ => [(mb_user mailbox, delta)]
           end
      /\ storage_of (db r) (mb_user mailbox)
         = match removed with
           | [] => storage_of d (mb_user mailbox)
           | _ =>
               if fault (OpIncStorageUsed (mb_user mailbox) delta)
               then storage_of d (mb_user mailbox)
               else option_map (fun z => z - sum_sizes removed)
                               (storage_of d (mb_user mailbox))
           end
      /\ (removed = [] -> users (db r) = users d)
      /\ mailboxes (db r) = mailboxes d
      /\ map uidNext (mailboxes (db r)) = map uidNext (mailboxes d)
      /\ (args = [JNull; JBool true] -> removed = gone)
      /\ ((forall i, fault (OpCursorNext i) = false) ->
          (forall id, fault (OpDeleteMessage id) = false) ->
          args = [JNull; JBool true])
      /\ (forall m, In m gone <->
                    In m (messages d) /\ msg_mailbox m = mb_id mailbox
                    /\ deleted m = true).
Proof.
  intros fault path u s d mailbox Hf Hfind gone r.
  subst r. unfold onExpunge. rewrite Hf. change (db (start d)) with d.
  rewrite Hfind. fold gone.
  destruct (@expunge_processNext_run fault path u s mailbox gone 0%nat 0%nat 0
              (start d)) as (k & args & Hk & H1 & _ & H3 & H4 & H5 & H6 & H7 & H8).
  cbn [Nat.add Z.add start db trace callbacks storage_adjustments flat_map app]
    in H1, H3, H4, H5, H6.
  exists k, args. cbn zeta.
  assert (Hempty : firstn k gone = [] -> k = 0%nat \/ gone = []).
  { destruct k; [auto |]. destruct gone; [auto | discriminate]. }
  split; [exact H1 |]. split; [exact H3 |].
  split.
  { rewrite H5. destruct k as [|k']; [reflexivity |].
    destruct gone as [|g gone']; [cbn [List.length] in Hk; lia | reflexivity]. }
  split.
  { unfold storage_of. rewrite H6. destruct k as [|k']; [reflexivity |].
    destruct gone as [|g gone']; [cbn [List.length] in Hk; lia |].
    cbn [firstn]. destruct (fault (OpIncStorageUsed _ _)); [reflexivity |].
    rewrite storage_of_inc.
    destruct (find _ (users d)); cbn [option_map]; [f_equal; lia | reflexivity]. }
  split.
  { intro He. rewrite H6. destruct k as [|k']; [reflexivity |].
    destruct gone as [|g gone']; [cbn [List.length] in Hk; lia | discriminate He]. }
  split; [exact H4 |]. split; [rewrite H4; reflexivity |].
  split.
  { intro Ha. rewrite (H7 Ha). apply firstn_all. }
  split; [exact H8 |].
  intro m. subst gone. rewrite In_find_messages. unfold expunge_query.
  rewrite andb_true_iff, Z.eqb_eq. destruct (deleted m); cbn; intuition congruence.
Qed.

Lemma expunge_quota_and_frame_witness :
  exists k args,
    callbacks (trace (onExpunge Sample.failing_inc "Drafts" Sample.expunge
                                Sample.s1 (start Sample.db1))) = [args]
    /\ storage_adjustments (trace (onExpunge Sample.failing_inc "Drafts"
                                             Sample.expunge Sample.s1
                                             (start Sample.db1)))
       = match firstn k (find_messages
                           (expunge_query (Sample.box 1 "Drafts" 100 10 5))
                           Sample.db1) with
         | [] => []
         | _ => [(1, - sum_sizes
                         (firstn k (find_messages
                                      (expunge_query
                                         (Sample.box 1 "Drafts" 100 10 5))
                                      Sample.db1)))]
         end
    /\ args = [JNull; JBool true].
Proof.
  destruct (@expunge_quota_and_frame Sample.failing_inc "Drafts" Sample.expunge
              Sample.s1 Sample.db1 (Sample.box 1 "Drafts" 100 10 5) eq_refl eq_refl)
    as (k & args & H1 & _ & H3 & _ & _ & _ & _ & _ & H9 & _).
  exists k, args. split; [exact H1 |]. split; [exact H3 |].
  apply H9; intros; reflexivity.
Defined.

(** ** The journal entries: one for every change *)

Section FetchAdded.

Variable fault : op -> bool.
Variable getQueryResponse : jsval -> message -> jsval.
Variable path : string.
Variable o : fetch_options.
Variable s : session.

Hypothesis ok : reliable fault.

Lemma added_fetch_done args isUpdated ue ne w :
  List.length ue = List.length ne ->
  added_entries (trace (fetch_done fault path s args isUpdated ue ne w))
  = added_entries (trace w) ++ ne.
Proof.
  intro Hlen. rewrite trace_fetch_done, !added_entries_app.
  destruct ue as [|x ue']; destruct ne as [|e ne']; try discriminate Hlen.
  - destruct isUpdated; reflexivity.
  - cbn [added_entries flat_map app]. rewrite !app_nil_r. reflexivity.
Qed.

Lemma fetch_processNext_added cursor :
  forall n isUpdated ue ne w,
    List.length ue = List.length ne ->
    added_entries (trace (fetch_processNext fault getQueryResponse path o s cursor
                                            n isUpdated ue ne w))
    = added_entries (trace w) ++ ne
      ++ map (fun m => fetch_entry s (fetch_shown o m))
             (filter (fun m => markAsSeen o && negb (includes (flags m) "\Seen"))
                     cursor).
Proof.
  induction cursor as [|m rest IH]; intros n isUpdated ue ne w Hlen;
    cbn [fetch_processNext]; rewrite ok.
  - cbn [filter map]. rewrite app_nil_r. apply added_fetch_done. exact Hlen.
  - cbn zeta. rewrite ok. cbn [filter].
    fold (fetch_shown o m).
    set (w1 := emit (EvWrite _) w).
    assert (Hw1 : added_entries (trace w1) = added_entries (trace w)).
    { subst w1. rewrite trace_emit, added_entries_app. apply app_nil_r. }
    clearbody w1.
    destruct (markAsSeen o && negb (includes (flags m) "\Seen")) eqn:Hmark;
      cbn [negb].
    2:{ rewrite IH by exact Hlen. rewrite Hw1. reflexivity. }
    cbn [map].
    assert (Hlen' : List.length (ue ++ [(msg_id (fetch_shown o m), seen_update)])
                    = List.length (ne ++ [fetch_entry s (fetch_shown o m)]))
      by (rewrite !length_app; cbn [List.length]; lia).
    destruct (BULK_BATCH_SIZE <=? _)%nat.
    + rewrite ok, IH by reflexivity.
      rewrite !trace_emit, trace_write_updates, !added_entries_app, Hw1.
      cbn [added_entries flat_map app]. rewrite !app_nil_r, <- !app_assoc.
      reflexivity.
    + rewrite IH by exact Hlen'. rewrite Hw1, <- !app_assoc. reflexivity.
Qed.

End FetchAdded.

Lemma copy_processNext_fires fault s target mailbox cursor :
  reliable fault ->
  forall n cm cs src dst w item,
    find_mailbox_by_id (db w) (mb_id target) = Some item ->
    exists pre args,
      trace (copy_processNext fault s target mailbox cursor n cm cs src dst w)
      = pre ++ [EvFire (sess_user s) (mb_path target); EvCallback args].
Proof.
  intro ok.
  induction cursor as [|m rest IH]; intros n cm cs src dst w item Hitem;
    cbn [copy_processNext]; rewrite ok.
  - eexists. eexists. rewrite !trace_emit, <- app_assoc. reflexivity.
  - rewrite ok, Hitem, ok.
    destruct (find_inc_uidNext _ _ Hitem) as (item' & Hitem' & _).
    eapply IH. rewrite ok. rewrite db_emit, !db_with_db. exact Hitem'.
Qed.

(** C10. Every entry COPY appends is an EXISTS entry for the destination
    without an [ignore] field, so every session of the user that has the
    destination selected gets it, the copying session too; every entry STORE
    and FETCH append is a FETCH entry, every entry EXPUNGE appends an EXPUNGE
    entry, each with [ignore = session.id], which keeps it from the session
    that made the change.  This holds whichever storage calls fail.  And the
    entries are there: in a run without failures COPY appends one EXISTS
    entry for every message it inserts, with the uid and the id of the copy,
    and then fires the notification for the destination, so that every such
    session is handed every one of them; STORE appends one entry for every
    message it changes, FETCH one for every message it marks as seen, and
    EXPUNGE one for every message it deletes. *)
Theorem journal_entries_ignore :
  forall (fault : op -> bool) (systemFlags : list string)
         (getQueryResponse : jsval -> message -> jsval)
         (path : string) (u : update) (o : fetch_options) (s : session) (d : DB),
    entries_all (shared_entry "EXISTS" s (destination u))
                (trace (onCopy fault path u s (start d)))
    /\ entries_all (own_entry "FETCH" s path)
                   (trace (onStore fault systemFlags path u s (start d)))
    /\ entries_all (own_entry "FETCH" s path)
                   (trace (onFetch fault getQueryResponse path o s (start d)))
    /\ entries_all (own_entry "EXPUNGE" s path)
                   (trace (onExpunge fault path u s (start d)))
    /\ (reliable fault ->
        forall mailbox,
          find_mailbox d (sess_user s) path = Some mailbox ->
          (forall target,
              find_mailbox d (sess_user s) (destination u) = Some target ->
              find_mailbox_by_id d (mb_id target) = Some target ->
              let r := onCopy fault path u s (start d) in
              let inserted := copies target (find_messages (copy_query mailbox u) d)
                                     (next_oid d) (uidNext target) in
              messages (db r) = messages d ++ inserted
              /\ added_entries (trace r) = map copy_entry inserted
              /\ (exists pre args,
                     trace r = pre ++ [EvFire (sess_user s) (destination u);
                                       EvCallback args])
              /\ (forall l e,
                     listener_user l = sess_user s ->
                     listener_selected l = destination u ->
                     In e (added_entries (trace r)) ->
                     delivered_to l (sess_user s) (destination u) e = true))
          /\ added_entries (trace (onStore fault systemFlags path u s (start d)))
             = map (fun m => store_entry s m (store_new_flags u m))
                   (filter (store_updated u)
                           (find_messages (store_query mailbox u) d))
          /\ added_entries (trace (onFetch fault getQueryResponse path o s
                                           (start d)))
             = map (fun m => fetch_entry s (fetch_shown o m))
                   (filter (fun m => markAsSeen o
                                     && negb (includes (flags m) "\Seen"))
                           (find_messages (fetch_query mailbox o) d))
          /\ added_entries (trace (onExpunge fault path u s (start d)))
             = map (expunge_entry s) (find_messages (expunge_query mailbox) d)).
Proof.
  intros fault systemFlags getQueryResponse path u o s d.
  split; [| split; [| split; [| split]]].
  - unfold onCopy.
    destruct (fault _); [repeat constructor |].
    destruct (find_mailbox _ _ path) as [mailbox|]; [| repeat constructor].
    destruct (fault _); [repeat constructor |].
    destruct (find_mailbox _ _ (destination u)) as [target|] eqn:Ht;
      [| repeat constructor].
    apply copy_processNext_entries; [| constructor].
    apply find_some in Ht. destruct Ht as [_ Ht].
    apply andb_true_iff in Ht. destruct Ht as [_ Ht].
    apply String.eqb_eq in Ht. exact Ht.
  - eapply entries_all_impl; [| apply store_entries].
    intros us p e [H _]. exact H.
  - unfold onFetch.
    destruct (fault _); [repeat constructor |].
    destruct (find_mailbox _ _ _) as [mailbox|]; [| repeat constructor].
    apply fetch_processNext_entries; constructor.
  - unfold onExpunge.
    destruct (fault _); [repeat constructor |].
    destruct (find_mailbox _ _ _) as [mailbox|]; [| repeat constructor].
    apply expunge_processNext_entries. constructor.
  - intros Hok mailbox Hfind. split; [| split; [| split]].
    + intros target Hdst Hid. cbn zeta.
      assert (Hpath : mb_path target = destination u).
      { pose proof Hdst as Ht. unfold find_mailbox in Ht.
        apply find_some in Ht. destruct Ht as [_ Ht].
        apply andb_true_iff in Ht. destruct Ht as [_ Ht].
        apply String.eqb_eq in Ht. exact Ht. }
      unfold onCopy. rewrite Hok. change (db (start d)) with d.
      rewrite Hfind, Hok, Hdst.
      destruct (@copy_processNext_reliable fault s target mailbox Hok
                  (find_messages (copy_query mailbox u) d)
                  0%nat 0%nat 0 [] [] (start d) target Hid)
        as (_ & H2 & _ & H4).
      cbn [start db trace added_entries flat_map app] in H2, H4.
      split; [exact H2 |]. split; [exact H4 |]. split.
      * rewrite <- Hpath. eapply copy_processNext_fires; [exact Hok | exact Hid].
      * intros l e Hu Hp He. rewrite H4 in He. apply in_map_iff in He.
        destruct He as (c & <- & _). unfold delivered_to. cbn.
        rewrite Hu, Hp, Z.eqb_refl, String.eqb_refl. reflexivity.
    + unfold onStore. rewrite Hok. change (db (start d)) with d. rewrite Hfind.
      destruct (@store_processNext_reliable fault systemFlags path u s mailbox
                  (fun n => Hok _) (fun ops => Hok _)
                  (find_messages (store_query mailbox u) d) 0%nat [] [] (start d)
                  eq_refl) as (_ & _ & H3 & _).
      exact H3.
    + unfold onFetch. rewrite Hok. change (db (start d)) with d. rewrite Hfind.
      rewrite fetch_processNext_added by (exact Hok || reflexivity). reflexivity.
    + unfold onExpunge. rewrite Hok. change (db (start d)) with d. rewrite Hfind.
      destruct (@expunge_processNext_run fault path u s mailbox
                  (find_messages (expunge_query mailbox) d) 0%nat 0%nat 0 (start d))
        as (k & args & _ & _ & H2 & _ & _ & _ & _ & H7 & H8).
      rewrite H2. cbn [start trace added_entries flat_map app].
      rewrite (H7 (H8 (fun i => Hok _) (fun id => Hok _))), firstn_all.
      reflexivity.
Qed.

Lemma journal_entries_ignore_witness :
  added_entries (trace (onCopy Sample.no_fault "Drafts" (Sample.copy [7; 9] "Archive")
                               Sample.s1 (start Sample.db0)))
  = [[("command", JStr "EXISTS"); ("uid", JNum 40); ("message", JId 1000)];
     [("command", JStr "EXISTS"); ("uid", JNum 41); ("message", JId 1001)]]
  /\ forall e,
       In e (added_entries
               (trace (onCopy Sample.no_fault "Drafts" (Sample.copy [7; 9] "Archive")
                              Sample.s1 (start Sample.db0)))) ->
       delivered_to {| listener_id := "s1"; listener_user := 1;
                       listener_selected := "Archive" |} 1 "Archive" e = true.
Proof.
  pose proof (proj2 (proj2 (proj2 (proj2
                (@journal_entries_ignore Sample.no_fault Sample.systemFlags
                   Sample.getQueryResponse "Drafts" (Sample.copy [7; 9] "Archive")
                   (Sample.fetch [7; 9]) Sample.s1 Sample.db0))))
                (fun op => eq_refl) (Sample.box 1 "Drafts" 100 10 5) eq_refl)
    as (Hcopy & _).
  destruct (Hcopy (Sample.box 2 "Archive" 200 40 0) eq_refl eq_refl)
    as (_ & H2 & _ & H4).
  split; [exact H2 |].
  intros e He.
  exact (H4 {| listener_id := "s1"; listener_user := 1;
               listener_selected := "Archive" |} e eq_refl eq_refl He).
Defined.
